(** * Career Booster: the reconciliation layer, the HTTP client and two string helpers

    A shallow embedding of the logic-bearing parts of the portal:
    - [escapeHtml]     src/alumni_search.js, the alumni search module
    - [request]        src/alumni_search.js, the API client that follows it
    - [normalizeUrl]   src/vite.config.ts, component [PublicJobSearch]
    - [loadLocalData], [saveLocalData], [handleDataUpdate], [handleAddProfessor],
      [handleRemoveProfessor], [handleRemoveDepartment], [handleEditProfessor]
      and [loadData]   src/vite.config.ts, component [App]
    - [fallbackData]   src/seed-export.ts
    - [renderResults], [doSearch]   src/alumni_search.js
    - [isJobPosting], [fetchWithRetry], the duplicate filter of
      [performSearch], [extractGithubInfo], [processGithubResults], the list
      handlers of [EditProfessorModal], [handleSubmit] of
      [AddProfessorModal], [navigateTo] and [goBack]   src/vite.config.ts

    JavaScript values are embedded as the inductive [JsVal]; objects used as
    dictionaries are [gmap string _]; an asynchronous call is a function of
    the outcome its awaited promise settles with; the clock and the answer
    to [window.confirm] are arguments; React state is a record that the
    handlers transform, one handler at a time. *)

From Stdlib Require Import ZArith Ascii String.
From stdpp Require Import gmap strings list fin_maps pretty.

Local Open Scope Z_scope.

#[local] Set Warnings "-register-all".

(* ===================================================================== *)
(** ** JavaScript values *)
(* ===================================================================== *)

Module Js.

(** The values that travel through the modelled code: what [JSON.parse] can
    produce, plus [undefined] and [NaN].  [JNum z] is an integer-valued
    number of magnitude at most 2^53, which prints as its decimal digits;
    [0] and [-0] are both [JNum 0] (they are [===] and both print as "0").
    Strings are sequences of bytes, the UTF-8 form of the text; the
    operations that depend on more than the bytes ([toLowerCase],
    [toUpperCase], [trim], indexing) are modelled on ASCII text, see
    [ascii_only]. *)
Inductive JsVal :=
  | JUndefined
  | JNull
  | JBool (b : bool)
  | JNaN
  | JNum (z : Z)
  | JStr (s : string)
  | JArr (l : list JsVal)
  | JObj (o : gmap string JsVal).

(** An object used as a record or a dictionary. *)
Abbreviation JsObj := (gmap string JsVal).

(** [!!v] is [true] exactly when [truthy v]. *)
Definition truthy (v : JsVal) : bool :=
  match v with
  | JUndefined | JNull | JNaN => false
  | JBool b => b
  | JNum z => negb (z =? 0)
  | JStr s => negb (String.eqb s "")
  | JArr _ | JObj _ => true
  end.

(** [String(v)] where the conversion returns: decimal digits for numbers,
    elements joined by commas for arrays ([null] and [undefined] elements
    print as nothing).  On an object with a property [toString] of its own
    the conversion throws instead; [AlumniSearch.StringOf] follows that. *)
Fixpoint ToString (v : JsVal) : string :=
  match v with
  | JUndefined => "undefined"
  | JNull => "null"
  | JBool true => "true"
  | JBool false => "false"
  | JNaN => "NaN"
  | JNum z => pretty z
  | JStr s => s
  | JArr l =>
      (fix join (l : list JsVal) : string :=
         match l with
         | [] => ""
         | [x] => match x with JUndefined | JNull => "" | _ => ToString x end
         | x :: r =>
             (match x with JUndefined | JNull => "" | _ => ToString x end)
               +:+ "," +:+ join r
         end) l
  | JObj _ => "[object Object]"
  end.

(** [o.k]: a missing property reads as [undefined]. *)
Definition get (o : JsObj) (k : string) : JsVal := default JUndefined (o !! k).

(** [a || b] *)
Definition or_else (a b : JsVal) : JsVal := if truthy a then a else b.


(** [String.prototype.toLowerCase] on ASCII text: the letters A to Z are
    mapped, every other character is kept.  Beyond ASCII the built-in
    follows the Unicode case mappings, which this function does not: what
    is concluded from it is stated of ASCII text. *)
Definition lower_ascii (c : ascii) : ascii :=
  let n := nat_of_ascii c in
  if ((65 <=? n) && (n <=? 90))%nat then ascii_of_nat (n + 32) else c.

Fixpoint toLowerCase (s : string) : string :=
  match s with
  | EmptyString => EmptyString
  | String c r => String (lower_ascii c) (toLowerCase r)
  end.

(** The double quote character. *)
Definition dquote : ascii := "034"%char.

(** The template literal [`${prefix}${Date.now()}`]. *)
Definition stamp (prefix : string) (now : Z) : string := prefix +:+ pretty now.

End Js.

Import Js.

(* ===================================================================== *)
(** ** Exceptions and settled promises *)
(* ===================================================================== *)

(** The classes of thrown values the modelled code can observe. *)
Inductive ErrorClass := TypeError | SyntaxError | DOMException | PlainError.

Record JsError := {
  err_class : ErrorClass;
  err_message : string;
  err_status : option Z  (* the [status] property [request] attaches *)
}.

(** What an awaited promise settles with, or what a call completes with. *)
Inductive Outcome (A : Type) :=
  | Returned (a : A)
  | Thrown (e : JsError).
Arguments Returned {A} a.
Arguments Thrown {A} e.

(** The [TypeError] raised by reading a property of [undefined]. *)
Definition undefined_deref : JsError :=
  {| err_class := TypeError;
     err_message := "Cannot read properties of undefined";
     err_status := None |}.

(** One statement after the other: the first exception ends both. *)
Definition and_then {A B} (o : Outcome A) (f : A → Outcome B) : Outcome B :=
  match o with
  | Returned a => f a
  | Thrown e => Thrown e
  end.

(* ===================================================================== *)
(** ** src/alumni_search.js : escapeHtml *)
(* ===================================================================== *)

Module AlumniSearch.

(** [s.replace(/c/g, ent)] for a one-character pattern. *)
Fixpoint replaceAll (c : ascii) (ent : string) (s : string) : string :=
  match s with
  | EmptyString => EmptyString
  | String a r =>
      if Ascii.eqb a c then ent +:+ replaceAll c ent r
      else String a (replaceAll c ent r)
  end.

(** [str !== 0] is false only for the number zero. *)
Definition is_zero (v : JsVal) : bool :=
  match v with JNum 0 => true | _ => false end.

(** The [TypeError] of [String(v)] on an object that has no way to a
    primitive value. *)
Definition cannot_convert : JsError :=
  {| err_class := TypeError;
     err_message := "Cannot convert object to primitive value";
     err_status := None |}.

(** [String(v)] on the values of [JsVal].  An object is converted through
    its [toString], then its [valueOf]: an object read from JSON inherits
    both from [Object.prototype] and prints as "[object Object]", unless it
    has a property [toString] of its own; that property is no function, so
    [valueOf] is tried, which gives no primitive either (the inherited one
    returns the object, one of its own is no function), and the conversion
    throws.  An array joins the conversions of its elements, [null] and
    [undefined] printing as nothing, so it throws when one of them does. *)
Fixpoint StringOf (v : JsVal) : Outcome string :=
  match v with
  | JArr l =>
      (fix join (l : list JsVal) : Outcome string :=
         match l with
         | [] => Returned ""
         | x :: r =>
             match (match x with
                    | JUndefined | JNull => Returned ""
                    | _ => StringOf x
                    end) with
             | Thrown e => Thrown e
             | Returned s =>
                 match r with
                 | [] => Returned s
                 | _ => match join r with
                        | Thrown e => Thrown e
                        | Returned t => Returned (s +:+ "," +:+ t)
                        end
                 end
             end
         end) l
  | JObj o =>
      if bool_decide (is_Some (o !! "toString")) then Thrown cannot_convert
      else Returned "[object Object]"
  | _ => Returned (ToString v)
  end.

(** What [escapeHtml] reads of its argument, whatever value it is: [!str],
    [str === 0] and [String(str)], which returns a string or throws. *)
Record Arg := {
  arg_not : bool;
  arg_is_zero : bool;
  arg_String : Outcome string
}.

(** The argument that is a value of [JsVal]. *)
Definition of_value (v : JsVal) : Arg :=
  {| arg_not := negb (truthy v); arg_is_zero := is_zero v; arg_String := StringOf v |}.

(** The chain of five [replace] calls, innermost first as in the source. *)
Definition passes (s : string) : string :=
  replaceAll "'" "&#039;"
    (replaceAll dquote "&quot;"
       (replaceAll ">" "&gt;"
          (replaceAll "<" "&lt;"
             (replaceAll "&" "&amp;" s)))).

Definition escapeHtml (str : Arg) : Outcome string :=
  if arg_not str && negb (arg_is_zero str) then Returned ""
  else
    match arg_String str with
    | Returned s => Returned (passes s)
    | Thrown e => Thrown e
    end.

(** The entity of one character, all five metacharacters at once. *)
Definition entity (a : ascii) : string :=
  if Ascii.eqb a "&" then "&amp;"
  else if Ascii.eqb a "<" then "&lt;"
  else if Ascii.eqb a ">" then "&gt;"
  else if Ascii.eqb a dquote then "&quot;"
  else if Ascii.eqb a "'" then "&#039;"
  else String a EmptyString.

Fixpoint escapeEach (s : string) : string :=
  match s with
  | EmptyString => EmptyString
  | String a r => entity a +:+ escapeEach r
  end.

(** No '<', '>', double quote or single quote. *)
Definition safe_char (a : ascii) : Prop :=
  a ≠ "<"%char ∧ a ≠ ">"%char ∧ a ≠ dquote ∧ a ≠ "'"%char.

Definition safe (s : string) : Prop := Forall safe_char (list_ascii_of_string s).

End AlumniSearch.

(* ===================================================================== *)
(** ** src/alumni_search.js (API client) : request *)
(* ===================================================================== *)

Module Api.

Definition MAX_RETRIES : nat := 2.
Definition RETRY_DELAY_MS : Z := 500.

(** An HTTP response: its status, the text [response.text()] resolves to and
    what [JSON.parse] makes of that text ([None] when it throws). *)
Record Response := {
  status : Z;
  body_text : string;
  body_json : option JsVal
}.

(** [response.ok] *)
Definition ok (r : Response) : bool := (200 <=? status r) && (status r <=? 299).

(** What one call of [fetch] settles with. *)
Inductive FetchOutcome :=
  | FetchRejected (e : JsError)
  | FetchResponse (r : Response).

(** What [request] does besides returning, in order. *)
Inductive Event :=
  | Fetched                       (* one call of [fetch] *)
  | Slept (ms : Z)                (* the back-off timer *)
  | Logged (level : string).      (* [apiLogger.log(level, ...)] *)

(** [s.includes(sub)] *)
Fixpoint includes (s sub : string) : bool :=
  String.prefix sub s ||
  match s with
  | EmptyString => false
  | String _ r => includes r sub
  end.

(** [errorJson.error]: [None] when the read itself throws (on [null]). *)
Definition error_field (errorJson : JsVal) : option JsVal :=
  match errorJson with
  | JNull | JUndefined => None
  | JObj o => Some (get o "error")
  | _ => Some JUndefined
  end.

(** The message computed for a non-2xx response, before [new Error]. *)
Definition errorMessage (r : Response) : JsVal :=
  let errorText := JStr (body_text r) in
  match body_json r with
  | Some errorJson =>
      match error_field errorJson with
      | Some e => or_else e errorText
      | None => errorText
      end
  | None => errorText
  end.

(** The error thrown for a non-2xx response. *)
Definition http_error (r : Response) : JsError :=
  {| err_class := PlainError;
     err_message :=
       ToString (or_else (errorMessage r) (JStr ("HTTP " +:+ pretty (status r))));
     err_status := Some (status r) |}.

(** [response.json()] rejects with a [SyntaxError] on a body that is not
    JSON; the text of its message is the engine's. *)
Definition json_error : JsError :=
  {| err_class := SyntaxError;
     err_message := "Unexpected token in JSON";
     err_status := None |}.

(** The body of the [try] block: what it evaluates to, and the log lines. *)
Definition attempt_body (f : FetchOutcome) : Outcome JsVal * list Event :=
  match f with
  | FetchRejected e => (Thrown e, [])
  | FetchResponse r =>
      if negb (ok r) then (Thrown (http_error r), [Logged "ERROR"])
      else
        match body_json r with
        | Some data => (Returned data, [Logged "SUCCESS"])
        | None => (Thrown json_error, [])
        end
  end.

(** The test of the [catch] block that decides to go round the loop again. *)
Definition retryable (attempt : nat) (error : JsError) : bool :=
  (attempt <? MAX_RETRIES)%nat
  && match err_class error with TypeError => true | _ => false end
  && includes (err_message error) "fetch".

(** The [for] loop.  [remaining] is [MAX_RETRIES + 1 - attempt], so the loop
    condition [attempt <= MAX_RETRIES] is [remaining <> 0]; falling off the
    end of the loop returns [undefined].  [net i] is what the [i]-th call of
    [fetch] settles with. *)
Fixpoint attempts (net : nat → FetchOutcome) (remaining attempt : nat)
  : Outcome JsVal * list Event :=
  match remaining with
  | O => (Returned JUndefined, [])
  | S remaining' =>
      let '(res, log) := attempt_body (net attempt) in
      match res with
      | Returned data => (Returned data, Fetched :: log)
      | Thrown error =>
          if retryable attempt error then
            let delay := RETRY_DELAY_MS * (Z.of_nat attempt + 1) in
            let '(res', log') := attempts net remaining' (S attempt) in
            (res', Fetched :: log ++ Slept delay :: log')
          else (Thrown error, Fetched :: log ++ [Logged "FAIL"])
      end
  end.

Definition request (net : nat → FetchOutcome) : Outcome JsVal * list Event :=
  attempts net (MAX_RETRIES + 1) 0.

(** Observations on a run. *)
Definition is_fetch (e : Event) : bool :=
  match e with Fetched => true | _ => false end.

Definition fetch_count (log : list Event) : nat :=
  length (List.filter is_fetch log).

Definition delays (log : list Event) : list Z :=
  omap (λ e, match e with Slept ms => Some ms | _ => None end) log.

(** *** Reading a run *)

(** A rejected [fetch] of the kind the loop retries: a [TypeError] whose
    message mentions "fetch". *)
Definition network_failure (f : FetchOutcome) : Prop :=
  ∃ e, f = FetchRejected e ∧ err_class e = TypeError
       ∧ includes (err_message e) "fetch" = true.

(** The delays [RETRY_DELAY_MS * (k + 1)] for [k = a, ..., a + n - 1]. *)
Definition backoff (a n : nat) : list Z :=
  (λ k : nat, RETRY_DELAY_MS * (Z.of_nat k + 1)) <$> seq a n.



End Api.

(* ===================================================================== *)
(** ** src/vite.config.ts, PublicJobSearch : normalizeUrl *)
(* ===================================================================== *)

Module JobSearch.

(** The components of a parsed [URL] object; [searchParams] is the list of
    name-value pairs of its query, in order. *)
Record URL := {
  protocol : string;
  username : string;
  password : string;
  host : string;
  pathname : string;
  searchParams : list (string * string);
  hash : string
}.

Definition tracking_params : list string :=
  ["utm_source"; "utm_medium"; "utm_campaign"; "utm_term"; "utm_content";
   "fbclid"; "gclid"].

(** [params.delete(p)] removes every pair named [p]. *)
Definition params_delete (p : string) (params : list (string * string))
  : list (string * string) :=
  filter (λ kv, kv.1 ≠ p) params.

Section WithPlatform.

(** The platform's URL parser ([new URL(raw)], [None] when it throws) and
    serializer ([u.toString()]). *)
Variable parse : string → option URL.
Variable serialize : URL → string.

Definition normalizeUrl (raw : string) : string :=
  match parse raw with
  | Some u =>
      let params := foldl (λ ps p, params_delete p ps) (searchParams u) tracking_params in
      serialize
        {| protocol := protocol u; username := username u; password := password u;
           host := host u; pathname := pathname u;
           searchParams := params;
           hash := "" |}
  | None => raw
  end.

End WithPlatform.

End JobSearch.

(* ===================================================================== *)
(** ** src/vite.config.ts, App : the directory aggregate *)
(* ===================================================================== *)

Module App.

(** [interface Department], [interface Branch].  A professor is handled as
    an untyped object throughout (spread, rest and computed keys), so it is
    a [JsObj]; [news] is carried along and never inspected. *)
Record Department := {
  dept_id : string;
  dept_name : string;
  dept_branches : list string
}.

Record Branch := {
  branch_id : string;
  branch_name : string;
  branch_departmentId : option string
}.

Record AppData := {
  departments : list Department;
  branches : gmap string Branch;
  professors : gmap string JsObj;
  news : JsVal
}.

(** An aggregate as it arrives from [JSON.parse]: each property is either
    missing ([None], reads as [undefined]) or of its declared type.
    Identifiers are never names of [Object.prototype]. *)
Record Payload := {
  p_departments : option (list Department);
  p_branches : option (gmap string Branch);
  p_professors : option (gmap string JsObj);
  p_news : JsVal
}.

Definition payload_of (d : AppData) : Payload :=
  {| p_departments := Some (departments d);
     p_branches := Some (branches d);
     p_professors := Some (professors d);
     p_news := news d |}.

(** *** JSON text *)

Definition is_undefined (v : JsVal) : bool :=
  match v with JUndefined => true | _ => false end.

Definition null_if_undefined (v : JsVal) : JsVal :=
  match v with JUndefined => JNull | _ => v end.

(** [JSON.parse(JSON.stringify(v))]: properties holding [undefined] are
    dropped, [undefined] array elements and [NaN] become [null]. *)
Fixpoint jsonValue (v : JsVal) : JsVal :=
  match v with
  | JNaN => JNull
  | JArr l => JArr (map (λ x, null_if_undefined (jsonValue x)) l)
  | JObj o => JObj (filter (λ kv, is_undefined kv.2 = false) (jsonValue <$> o))
  | _ => v
  end.

Definition jsonObj (o : JsObj) : JsObj :=
  filter (λ kv, is_undefined kv.2 = false) (jsonValue <$> o).

(** What [JSON.parse] reads back from [JSON.stringify(data)]. *)
Definition stringify (data : AppData) : Payload :=
  {| p_departments := Some (departments data);
     p_branches := Some (branches data);
     p_professors := Some (jsonObj <$> professors data);
     p_news := jsonValue (news data) |}.

(** *** Local Cache *)

Definition LOCAL_STORAGE_KEY : string := "career-booster-data".

(** A string held by [localStorage], by what [JSON.parse] makes of it:
    the empty string, a text that is not JSON, or the JSON text of a value
    ([BlobJson None] for a falsy one such as [null]). *)
Inductive Blob :=
  | BlobEmpty
  | BlobMalformed
  | BlobJson (v : option Payload).

(** The browser's store: its items, and whether [getItem] and [setItem]
    complete ([false]: the call throws, as on denied access or exceeded
    quota). *)
Record LocalStorage := {
  ls_items : gmap string Blob;
  ls_readable : bool;
  ls_writable : bool
}.

Definition loadLocalData (ls : LocalStorage) : option Payload :=
  if ls_readable ls then
    match ls_items ls !! LOCAL_STORAGE_KEY with
    | Some (BlobJson v) => v
    | Some BlobMalformed => None   (* JSON.parse throws: caught *)
    | Some BlobEmpty => None       (* data is falsy *)
    | None => None                 (* getItem returns null *)
    end
  else None.

Definition saveLocalData (data : AppData) (ls : LocalStorage) : LocalStorage :=
  if ls_writable ls then
    {| ls_items := <[LOCAL_STORAGE_KEY := BlobJson (Some (stringify data))]> (ls_items ls);
       ls_readable := ls_readable ls;
       ls_writable := ls_writable ls |}
  else ls.                         (* setItem throws: ignored *)

(** *** Session state *)

Inductive ApiStatus := connecting | connected | offline.

(** The [useState] cells of [App] that the handlers touch, the messages
    passed to [showToast] (oldest first) and the browser's store.  A handler
    runs to its end before the next one starts, so the [data] its closure
    captured is the [currentData] its updater receives. *)
Record AppState := {
  data : option AppData;
  loading : bool;
  apiStatus : ApiStatus;
  activeModal : option string;
  editingProfessor : option JsObj;
  toasts : list string;
  localStorage : LocalStorage
}.

Definition setData (d : option AppData) (st : AppState) : AppState :=
  {| data := d; loading := loading st; apiStatus := apiStatus st;
     activeModal := activeModal st; editingProfessor := editingProfessor st;
     toasts := toasts st; localStorage := localStorage st |}.

Definition setLoading (b : bool) (st : AppState) : AppState :=
  {| data := data st; loading := b; apiStatus := apiStatus st;
     activeModal := activeModal st; editingProfessor := editingProfessor st;
     toasts := toasts st; localStorage := localStorage st |}.

Definition setApiStatus (s : ApiStatus) (st : AppState) : AppState :=
  {| data := data st; loading := loading st; apiStatus := s;
     activeModal := activeModal st; editingProfessor := editingProfessor st;
     toasts := toasts st; localStorage := localStorage st |}.

Definition setActiveModal (m : option string) (st : AppState) : AppState :=
  {| data := data st; loading := loading st; apiStatus := apiStatus st;
     activeModal := m; editingProfessor := editingProfessor st;
     toasts := toasts st; localStorage := localStorage st |}.

Definition setEditingProfessor (p : option JsObj) (st : AppState) : AppState :=
  {| data := data st; loading := loading st; apiStatus := apiStatus st;
     activeModal := activeModal st; editingProfessor := p;
     toasts := toasts st; localStorage := localStorage st |}.

Definition showToast (message : string) (st : AppState) : AppState :=
  {| data := data st; loading := loading st; apiStatus := apiStatus st;
     activeModal := activeModal st; editingProfessor := editingProfessor st;
     toasts := toasts st ++ [message]; localStorage := localStorage st |}.

Definition withStorage (ls : LocalStorage) (st : AppState) : AppState :=
  {| data := data st; loading := loading st; apiStatus := apiStatus st;
     activeModal := activeModal st; editingProfessor := editingProfessor st;
     toasts := toasts st; localStorage := ls |}.

(** An updater passed to [handleDataUpdate]; it may itself write the store. *)
Definition Updater : Type := AppData → LocalStorage → AppData * LocalStorage.

Definition handleDataUpdate (updater : Updater) (st : AppState) : AppState :=
  match data st with
  | None => st
  | Some currentData =>
      let '(newData, ls) := updater currentData (localStorage st) in
      withStorage (saveLocalData newData ls) (setData (Some newData) st)
  end.

(** *** Branch resolution *)

(** [data.departments.find(d => d.id === departmentId)] *)
Definition findDepartment (d : AppData) (departmentId : string) : option Department :=
  List.find (λ x, String.eqb (dept_id x) departmentId) (departments d).

(** [department.branches.map(bId => data.branches[bId])] *)
Definition departmentBranches (d : AppData) (department : Department)
  : list (option Branch) :=
  (λ bId, branches d !! bId) <$> dept_branches department.

Definition same_name (b : Branch) (branchName : string) : bool :=
  String.eqb (toLowerCase (branch_name b)) (toLowerCase branchName).

(** [find(b => b?.name.toLowerCase() === branchName.toLowerCase())] *)
Definition existingBranchAdd (d : AppData) (department : Department)
    (branchName : string) : option Branch :=
  match List.find (λ b : option Branch,
                     match b with
                     | Some b => same_name b branchName
                     | None => false
                     end) (departmentBranches d department) with
  | Some b => b
  | None => None
  end.

(** [find(b => b && (b.id === branchName ||
                     b.name.toLowerCase() === (branchName || '').toLowerCase()))] *)
Definition existingBranchEdit (d : AppData) (department : Department)
    (branchName : string) : option Branch :=
  match List.find (λ b : option Branch,
                     match b with
                     | Some b => String.eqb (branch_id b) branchName
                                 || same_name b branchName
                     | None => false
                     end) (departmentBranches d department) with
  | Some b => b
  | None => None
  end.


(** [existingBranch ? existingBranch.id : `branch_${Date.now()}`] *)
Definition resolvedBranchId (existingBranch : option Branch) (now : Z) : string :=
  match existingBranch with
  | Some b => branch_id b
  | None => stamp "branch_" now
  end.

(** [{ ...d, branches: [...d.branches, branchId] }] *)
Definition appended (branchId : string) (d : Department) : Department :=
  {| dept_id := dept_id d; dept_name := dept_name d;
     dept_branches := dept_branches d ++ [branchId] |}.

(** The two statements under [if (isNewBranch)] in both updaters of Edit. *)
Definition registerBranch (branchId branchName : string) (department : Department)
    (updated : AppData) : AppData :=
  let newBranch := {| branch_id := branchId; branch_name := branchName;
                      branch_departmentId := Some (dept_id department) |} in
  {| departments :=
       (λ d, if String.eqb (dept_id d) (dept_id department)
             then appended branchId d
             else d) <$> departments updated;
     branches := <[branchId := newBranch]> (branches updated);
     professors := professors updated;
     news := news updated |}.

Definition withProfessors (profs : gmap string JsObj) (d : AppData) : AppData :=
  {| departments := departments d; branches := branches d;
     professors := profs; news := news d |}.

(** *** Add, Remove, Edit *)

(** What the add dialog submits: [{ branchName, departmentId, ...profCoreData }]. *)
Record AddForm := {
  add_branchName : string;
  add_departmentId : string;
  profCoreData : JsObj
}.

(** What the edit dialog submits: [{ branchName, departmentId, id, ...rest }];
    [id] is the empty string when the record has no identifier. *)
Record EditForm := {
  edit_branchName : string;
  edit_departmentId : string;
  edit_id : string;
  rest : JsObj
}.

(** The fields both handlers set after the spread:
    [branch: branchId, departmentId: department.id, departmentName: department.name]. *)
Definition routed (branchId : string) (department : Department) (o : JsObj) : JsObj :=
  <["departmentName" := JStr (dept_name department)]>
    (<["departmentId" := JStr (dept_id department)]>
       (<["branch" := JStr branchId]> o)).

Definition addPayload (d : AppData) (department : Department) (form : AddForm)
    (now : Z) : JsObj :=
  let branchId := resolvedBranchId
                    (existingBranchAdd d department (add_branchName form)) now in
  routed branchId department (profCoreData form).

(** [{ ...currentData.professors, [savedProf._id]: { ...savedProf, id: savedProf._id } }] *)
Definition addUpdater (savedProf : JsObj) : Updater :=
  λ currentData ls,
    let _id := get savedProf "_id" in
    (withProfessors (<[ToString _id := <["id" := _id]> savedProf]> (professors currentData))
       currentData, ls).

Definition handleAddProfessor (profFormData : AddForm) (now : Z)
    (updateProfessor : JsObj → Outcome JsObj) (st : AppState) : AppState :=
  match data st with
  | None => st
  | Some d =>
      match findDepartment d (add_departmentId profFormData) with
      | None => showToast "Error: Selected department not found." st
      | Some department =>
          match updateProfessor (addPayload d department profFormData now) with
          | Returned savedProf =>
              setActiveModal None
                (showToast "Professor added!"
                   (handleDataUpdate (addUpdater savedProf) st))
          | Thrown _ =>
              showToast "Failed to save professor." (setApiStatus offline st)
          end
      end
  end.

(** [delete newProfs[profId]] on a copy of the professor map. *)
Definition removeUpdater (profId : string) : Updater :=
  λ d ls, (withProfessors (delete profId (professors d)) d, ls).

(** [confirmed] is the answer to [window.confirm]. *)
Definition handleRemoveProfessor (profId : string) (confirmed : bool)
    (deleteProfessor : string → Outcome JsVal) (st : AppState) : AppState :=
  if negb confirmed then st
  else
    match deleteProfessor profId with
    | Returned _ => showToast "Professor removed." (handleDataUpdate (removeUpdater profId) st)
    | Thrown _ => showToast "Error removing professor." st
    end.

(** [fetchMockData] is awaited only once [deleteDepartment] has resolved; the
    refetched aggregate, taken to be well formed, replaces the state as it
    is. *)
Definition handleRemoveDepartment (deptId : string) (confirmed : bool)
    (deleteDepartment : string → Outcome JsVal) (fetchMockData : Outcome AppData)
    (st : AppState) : AppState :=
  if negb confirmed then st
  else
    match deleteDepartment deptId with
    | Returned _ =>
        match fetchMockData with
        | Returned freshData => showToast "Department removed." (setData (Some freshData) st)
        | Thrown _ => showToast "Error removing department." st
        end
    | Thrown _ => showToast "Error removing department." st
    end.

(** [id || undefined] *)
Definition id_or_undefined (id : string) : JsVal :=
  if String.eqb id "" then JUndefined else JStr id.

(** [{ _id: id || undefined, id: id || undefined, ...rest, branch: ..., ... }],
    with [branchName] added when the branch is new. *)
Definition editPayload (d : AppData) (department : Department) (form : EditForm)
    (now : Z) : JsObj :=
  let existingBranch := existingBranchEdit d department (edit_branchName form) in
  let branchId := resolvedBranchId existingBranch now in
  let idv := id_or_undefined (edit_id form) in
  let payload :=
    routed branchId department (rest form ∪ <["id" := idv]> (<["_id" := idv]> ∅)) in
  match existingBranch with
  | Some _ => payload
  | None => <["branchName" := JStr (edit_branchName form)]> payload
  end.

(** The first updater of Edit, run when [updateProfessor] resolved. *)
Definition editUpdater (department : Department) (branchId branchName : string)
    (isNewBranch : bool) (id : string) (savedProf : JsObj) : Updater :=
  λ currentData ls,
    let updated := if isNewBranch
                   then registerBranch branchId branchName department currentData
                   else currentData in
    let savedId := or_else (get savedProf "_id")
                     (or_else (get savedProf "id") (JStr id)) in
    (withProfessors (<[ToString savedId := <["id" := savedId]> savedProf]> (professors updated))
       updated, ls).

(** [id || `local_${Date.now()}`] *)
Definition localKey (id : string) (later : Z) : string :=
  if String.eqb id "" then stamp "local_" later else id.

(** The record written by the fallback:
    [{ ...rest, id: key, branch: branchId, departmentId: ..., departmentName: ... }]. *)
Definition localRecord (rest : JsObj) (key branchId : string) (department : Department)
  : JsObj :=
  routed branchId department (<["id" := JStr key]> rest).

(** The second updater of Edit, run in the [catch]; it saves by itself before
    [handleDataUpdate] saves again. *)
Definition editFallbackUpdater (department : Department) (branchId branchName : string)
    (isNewBranch : bool) (id : string) (rest : JsObj) (later : Z) : Updater :=
  λ currentData ls,
    let updated := if isNewBranch
                   then registerBranch branchId branchName department currentData
                   else currentData in
    let key := localKey id later in
    let updated := withProfessors
                     (<[key := localRecord rest key branchId department]> (professors updated))
                     updated in
    (updated, saveLocalData updated ls).

(** [now] is the clock when the branch is resolved, [later] the clock when
    the fallback updater runs. *)
Definition handleEditProfessor (profFormData : EditForm) (now later : Z)
    (updateProfessor : JsObj → Outcome JsObj) (st : AppState) : AppState :=
  match data st with
  | None => st
  | Some d =>
      match findDepartment d (edit_departmentId profFormData) with
      | None => showToast "Selected department not found." st
      | Some department =>
          let branchName := edit_branchName profFormData in
          let id := edit_id profFormData in
          let existingBranch := existingBranchEdit d department branchName in
          let branchId := resolvedBranchId existingBranch now in
          let isNewBranch := negb (bool_decide (is_Some existingBranch)) in
          match updateProfessor (editPayload d department profFormData now) with
          | Returned savedProf =>
              setEditingProfessor None
                (setActiveModal None
                   (showToast "Professor updated."
                      (handleDataUpdate
                         (editUpdater department branchId branchName isNewBranch id savedProf)
                         st)))
          | Thrown _ =>
              setEditingProfessor None
                (setActiveModal None
                   (showToast "Professor updated locally (offline)."
                      (handleDataUpdate
                         (editFallbackUpdater department branchId branchName isNewBranch
                            id (rest profFormData) later)
                         (setApiStatus offline st))))
          end
      end
  end.

(** *** The seed merge of [loadData] *)

(** [fb.departments.forEach(d => { if (!existingDeptIds.has(d.id)) push(d) })];
    the set is built once, before the loop. *)
Definition mergeDepartments (fb loaded : list Department) : list Department :=
  let existingDeptIds : gset string := list_to_set (dept_id <$> loaded) in
  foldl (λ (acc : list Department) d,
           if decide (dept_id d ∈ existingDeptIds) then acc else acc ++ [d])
        loaded fb.

(** [Object.keys(fallback).forEach(key => { if (!current[key]) current[key] = fallback[key] })] *)
Definition mergeEntries {V} (fallback current : gmap string V) : gmap string V :=
  map_fold (λ key v cur, match cur !! key with
                         | Some _ => cur
                         | None => <[key := v]> cur
                         end) current fallback.

(** The entries of a department list that carry a given identifier. *)
Definition with_id (id : string) (l : list Department) : list Department :=
  filter (λ d, dept_id d = id) l.

(** The three merges on an aggregate that has its three collections. *)
Definition mergeInto (fb loadedData : AppData) : AppData :=
  {| departments := mergeDepartments (departments fb) (departments loadedData);
     branches := mergeEntries (branches fb) (branches loadedData);
     professors := mergeEntries (professors fb) (professors loadedData);
     news := news loadedData |}.

(** *** src/seed-export.ts : the Seed Dataset *)

Definition prof_ece_1 : JsObj :=
  list_to_map
    [ ("id", JStr "prof_ece_1");
      ("name", JStr "Amitabha Bhattacharya");
      ("position", JStr "Professor");
      ("email", JStr "amitabha@ece.iitkgp.ac.in");
      ("degree", JStr "Ph.D.");
      ("branch", JStr "branch_ece");
      ("departmentId", JStr "dept_ece");
      ("description", JStr "Engineered electromagnetic materials, radar signal processing, microwave imaging, antenna design, satellite navigation, radar target identification, electromagnetic interference, and radar absorbing materials with composite materials applications.");
      ("photo", JStr "/ece/download.png");
      ("links", JObj (list_to_map
          [ ("webpage", JStr "https://www.iitkgp.ac.in/department/EC/faculty/ec-amitabha");
            ("awards", JStr "");
            ("bio", JStr "") ]));
      ("research", JArr
            [ JStr "Engineered electromagnetic materials";
              JStr "Radar signal processing";
              JStr "Microwave imaging";
              JStr "Antenna design";
              JStr "Satellite navigation";
              JStr "Radar target identification";
              JStr "Electromagnetic interference";
              JStr "Radar absorbing materials" ]);
      ("projects", JArr []);
      ("companies", JArr []);
      ("websites", JArr []);
      ("institutes", JArr []) ].

Definition prof_ece_2 : JsObj :=
  list_to_map
    [ ("id", JStr "prof_ece_2");
      ("name", JStr "Amitalok Jayant Budkuley");
      ("position", JStr "Assistant Professor Grade-I");
      ("email", JStr "amitalok@ece.iitkgp.ac.in");
      ("degree", JStr "Ph.D.");
      ("branch", JStr "branch_ece");
      ("departmentId", JStr "dept_ece");
      ("description", JStr "Fundamental limits of cryptographic primitives over unreliable Gaussian noisy channels, information theory, distributed sampling, coding theory, and secure multi-party computation.");
      ("photo", JStr "/ece/download(1).png");
      ("links", JObj (list_to_map
          [ ("webpage", JStr "https://www.iitkgp.ac.in/department/EC/faculty/ec-amitalok");
            ("awards", JStr "");
            ("bio", JStr "") ]));
      ("research", JArr
            [ JStr "Cryptographic primitives";
              JStr "Gaussian noisy channels";
              JStr "Information theory";
              JStr "Distributed sampling";
              JStr "Coding theory";
              JStr "Secure multi-party computation" ]);
      ("projects", JArr []);
      ("companies", JArr []);
      ("websites", JArr []);
      ("institutes", JArr []) ].

Definition prof_ece_3 : JsObj :=
  list_to_map
    [ ("id", JStr "prof_ece_3");
      ("name", JStr "Basudev Lahiri");
      ("position", JStr "Assistant Professor Grade-I");
      ("email", JStr "blahiri@ece.iitkgp.ac.in");
      ("degree", JStr "Ph.D.");
      ("branch", JStr "branch_ece");
      ("departmentId", JStr "dept_ece");
      ("description", JStr "Photonic wire waveguides, 2D materials, solar cells, neuromorphic devices, bio nano photonics, photonic instrumentation and imaging, metamaterials, biophotonics, and nanofabrication for biomedical sensor design.");
      ("photo", JStr "/ece/download(2).png");
      ("links", JObj (list_to_map
          [ ("webpage", JStr "https://www.iitkgp.ac.in/department/EC/faculty/ec-blahiri");
            ("awards", JStr "");
            ("bio", JStr "") ]));
      ("research", JArr
            [ JStr "Photonic wire waveguides";
              JStr "2D materials";
              JStr "Solar cells";
              JStr "Neuromorphic devices";
              JStr "Bio nano photonics";
              JStr "Photonic instrumentation";
              JStr "Metamaterials";
              JStr "Biophotonics";
              JStr "Nanofabrication" ]);
      ("projects", JArr []);
      ("companies", JArr []);
      ("websites", JArr []);
      ("institutes", JArr []) ].

Definition prof_ece_4 : JsObj :=
  list_to_map
    [ ("id", JStr "prof_ece_4");
      ("name", JStr "Bratin Ghosh");
      ("position", JStr "Professor");
      ("email", JStr "bghosh@ece.iitkgp.ac.in");
      ("degree", JStr "Ph.D.");
      ("branch", JStr "branch_ece");
      ("departmentId", JStr "dept_ece");
      ("description", JStr "Full-wave analysis and design of efficient antennas, guided systems, antenna miniaturization, numerical electromagnetics, dielectric resonator antennas, and slot antenna technologies.");
      ("photo", JStr "/ece/download(3).png");
      ("links", JObj (list_to_map
          [ ("webpage", JStr "https://www.iitkgp.ac.in/department/EC/faculty/ec-bghosh");
            ("awards", JStr "");
            ("bio", JStr "") ]));
      ("research", JArr
            [ JStr "Efficient antennas";
              JStr "Guided systems";
              JStr "Antenna miniaturization";
              JStr "Numerical electromagnetics";
              JStr "Dielectric resonator antennas";
              JStr "Slot antenna technologies" ]);
      ("projects", JArr []);
      ("companies", JArr []);
      ("websites", JArr []);
      ("institutes", JArr []) ].

Definition prof_ece_5 : JsObj :=
  list_to_map
    [ ("id", JStr "prof_ece_5");
      ("name", JStr "Debashis Sen");
      ("position", JStr "Associate Professor");
      ("email", JStr "dsen@ece.iitkgp.ac.in");
      ("degree", JStr "Ph.D.");
      ("branch", JStr "branch_ece");
      ("departmentId", JStr "dept_ece");
      ("description", JStr "Deep learning-based 3D digital restoration, hyperspectral image quality improvement, artificial visual scanpath generation for action recognition, robotic systems for hazardous manufacturing, and multi-sensor integration. Heavy focus on deep learning, image analysis, and advanced manufacturing.");
      ("photo", JStr "/ece/download(4).png");
      ("links", JObj (list_to_map
          [ ("webpage", JStr "https://www.iitkgp.ac.in/department/EC/faculty/ec-dsen");
            ("awards", JStr "");
            ("bio", JStr "") ]));
      ("research", JArr
            [ JStr "Deep learning";
              JStr "3D digital restoration";
              JStr "Hyperspectral imaging";
              JStr "Action recognition";
              JStr "Robotic systems";
              JStr "Multi-sensor integration" ]);
      ("projects", JArr []);
      ("companies", JArr []);
      ("websites", JArr []);
      ("institutes", JArr []) ].

Definition prof_ece_6 : JsObj :=
  list_to_map
    [ ("id", JStr "prof_ece_6");
      ("name", JStr "Goutam Saha");
      ("position", JStr "Professor");
      ("email", JStr "gsaha@ece.iitkgp.ac.in");
      ("degree", JStr "Ph.D.");
      ("branch", JStr "branch_ece");
      ("departmentId", JStr "dept_ece");
      ("description", JStr "Biomedical signal processing, speech/audio signal processing, pattern recognition, biometric authentication, healthcare technologies, and related machine learning.");
      ("photo", JStr "/ece/download(5).png");
      ("links", JObj (list_to_map
          [ ("webpage", JStr "https://www.iitkgp.ac.in/department/EC/faculty/ec-gsaha");
            ("awards", JStr "");
            ("bio", JStr "") ]));
      ("research", JArr
            [ JStr "Biomedical signal processing";
              JStr "Speech processing";
              JStr "Audio signal processing";
              JStr "Pattern recognition";
              JStr "Biometric authentication";
              JStr "Healthcare technologies" ]);
      ("projects", JArr []);
      ("companies", JArr []);
      ("websites", JArr []);
      ("institutes", JArr []) ].

Definition prof_ece_7 : JsObj :=
  list_to_map
    [ ("id", JStr "prof_ece_7");
      ("name", JStr "Indrajit Chakrabarti");
      ("position", JStr "Professor");
      ("email", JStr "indrajit@ece.iitkgp.ac.in");
      ("degree", JStr "Ph.D.");
      ("branch", JStr "branch_ece");
      ("departmentId", JStr "dept_ece");
      ("description", JStr "Hardware security in networking, low-power VLSI design, radio frequency ICs, mixed signal/RF IC design, modem design, wireless communication, VLSI architectures for image/video processing, and analog spiking neural network applications to low-power computing.");
      ("photo", JStr "/ece/download(6).png");
      ("links", JObj (list_to_map
          [ ("webpage", JStr "https://www.iitkgp.ac.in/department/EC/faculty/ec-indrajit");
            ("awards", JStr "");
            ("bio", JStr "") ]));
      ("research", JArr
            [ JStr "Hardware security";
              JStr "Low-power VLSI design";
              JStr "Radio frequency ICs";
              JStr "Mixed signal/RF IC design";
              JStr "Wireless communication";
              JStr "VLSI architectures";
              JStr "Spiking neural networks" ]);
      ("projects", JArr []);
      ("companies", JArr []);
      ("websites", JArr []);
      ("institutes", JArr []) ].

Definition prof_ece_8 : JsObj :=
  list_to_map
    [ ("id", JStr "prof_ece_8");
      ("name", JStr "Jithin R");
      ("position", JStr "Assistant Professor Grade-I");
      ("email", JStr "jithin@ece.iitkgp.ac.in");
      ("degree", JStr "Ph.D.");
      ("branch", JStr "branch_ece");
      ("departmentId", JStr "dept_ece");
      ("description", JStr "Information theory, wireless communication, privacy in coded caching and function computation, secure function computation, scaling laws for many-access channels, and network coding.");
      ("photo", JStr "/ece/download(7).png");
      ("links", JObj (list_to_map
          [ ("webpage", JStr "https://www.iitkgp.ac.in/department/EC/faculty/ec-jithin");
            ("awards", JStr "");
            ("bio", JStr "") ]));
      ("research", JArr
            [ JStr "Information theory";
              JStr "Wireless communication";
              JStr "Privacy in coded caching";
              JStr "Secure function computation";
              JStr "Scaling laws";
              JStr "Network coding" ]);
      ("projects", JArr []);
      ("companies", JArr []);
      ("websites", JArr []);
      ("institutes", JArr []) ].

Definition prof_ece_9 : JsObj :=
  list_to_map
    [ ("id", JStr "prof_ece_9");
      ("name", JStr "Mrinal Kanti Mandal");
      ("position", JStr "Professor");
      ("email", JStr "mkmandal@ece.iitkgp.ac.in");
      ("degree", JStr "Ph.D.");
      ("branch", JStr "branch_ece");
      ("departmentId", JStr "dept_ece");
      ("description", JStr "Microwave and millimeter-wave circuits, antenna design, filters (low-pass, band-pass, stop-band), SIW power dividers, reconfigurable antennas, and planar circuit technologies.");
      ("photo", JStr "/ece/download(8).png");
      ("links", JObj (list_to_map
          [ ("webpage", JStr "https://www.iitkgp.ac.in/department/EC/faculty/ec-mkmandal");
            ("awards", JStr "");
            ("bio", JStr "") ]));
      ("research", JArr
            [ JStr "Microwave circuits";
              JStr "Millimeter-wave circuits";
              JStr "Antenna design";
              JStr "Filters";
              JStr "SIW power dividers";
              JStr "Reconfigurable antennas";
              JStr "Planar circuit technologies" ]);
      ("projects", JArr []);
      ("companies", JArr []);
      ("websites", JArr []);
      ("institutes", JArr []) ].

Definition prof_ece_10 : JsObj :=
  list_to_map
    [ ("id", JStr "prof_ece_10");
      ("name", JStr "Mrityunjoy Chakraborty");
      ("position", JStr "Professor");
      ("email", JStr "mrityun@ece.iitkgp.ac.in");
      ("degree", JStr "Ph.D.");
      ("branch", JStr "branch_ece");
      ("departmentId", JStr "dept_ece");
      ("description", JStr "Digital and adaptive signal processing, VLSI signal processing, compressive sensing, sparse system identification, cooperative adaptive estimation algorithms, radar pulse parameter estimation.");
      ("photo", JStr "/ece/download(9).png");
      ("links", JObj (list_to_map
          [ ("webpage", JStr "https://www.iitkgp.ac.in/department/EC/faculty/ec-mrityun");
            ("awards", JStr "");
            ("bio", JStr "") ]));
      ("research", JArr
            [ JStr "Digital signal processing";
              JStr "Adaptive signal processing";
              JStr "VLSI signal processing";
              JStr "Compressive sensing";
              JStr "Sparse system identification";
              JStr "Radar pulse parameter estimation" ]);
      ("projects", JArr []);
      ("companies", JArr []);
      ("websites", JArr []);
      ("institutes", JArr []) ].

Definition prof_ece_11 : JsObj :=
  list_to_map
    [ ("id", JStr "prof_ece_11");
      ("name", JStr "Prasanta Kumar Guha");
      ("position", JStr "Professor");
      ("email", JStr "pkguha@ece.iitkgp.ac.in");
      ("degree", JStr "Ph.D.");
      ("branch", JStr "branch_ece");
      ("departmentId", JStr "dept_ece");
      ("description", JStr "Nanomaterial-based sensors/devices, flexible microdevices, energy devices, biomedical sensors, photonic sensors, VLSI design, chemiresistive gas sensors, supercapacitor nano devices, and energy storage.");
      ("photo", JStr "/ece/download(10).png");
      ("links", JObj (list_to_map
          [ ("webpage", JStr "https://www.iitkgp.ac.in/department/EC/faculty/ec-pkguha");
            ("awards", JStr "");
            ("bio", JStr "") ]));
      ("research", JArr
            [ JStr "Nanomaterial sensors";
              JStr "Flexible microdevices";
              JStr "Energy devices";
              JStr "Biomedical sensors";
              JStr "Photonic sensors";
              JStr "VLSI design";
              JStr "Chemiresistive gas sensors";
              JStr "Supercapacitor nano devices" ]);
      ("projects", JArr []);
      ("companies", JArr []);
      ("websites", JArr []);
      ("institutes", JArr []) ].

Definition prof_ece_12 : JsObj :=
  list_to_map
    [ ("id", JStr "prof_ece_12");
      ("name", JStr "Raja Datta");
      ("position", JStr "Professor");
      ("email", JStr "rajadatta@ece.iitkgp.ac.in");
      ("degree", JStr "Ph.D.");
      ("branch", JStr "branch_ece");
      ("departmentId", JStr "dept_ece");
      ("description", JStr "Software-defined networks, edge computing, inter-planetary networks, elastic optical networks, vehicular ad hoc networks, mobile ad hoc network security, routing, and IoT-enabled sensor techniques.");
      ("photo", JStr "/ece/download(11).png");
      ("links", JObj (list_to_map
          [ ("webpage", JStr "https://www.iitkgp.ac.in/department/EC/faculty/ec-rajadatta");
            ("awards", JStr "");
            ("bio", JStr "") ]));
      ("research", JArr
            [ JStr "Software-defined networks";
              JStr "Edge computing";
              JStr "Inter-planetary networks";
              JStr "Elastic optical networks";
              JStr "Vehicular ad hoc networks";
              JStr "Mobile ad hoc network security";
              JStr "IoT-enabled sensor techniques" ]);
      ("projects", JArr []);
      ("companies", JArr []);
      ("websites", JArr []);
      ("institutes", JArr []) ].

Definition prof_ece_13 : JsObj :=
  list_to_map
    [ ("id", JStr "prof_ece_13");
      ("name", JStr "Sarang Pendharker");
      ("position", JStr "Assistant Professor Grade-I");
      ("email", JStr "sarang@ece.iitkgp.ac.in");
      ("degree", JStr "Ph.D.");
      ("branch", JStr "branch_ece");
      ("departmentId", JStr "dept_ece");
      ("description", JStr "Optical physics and communication engineering at the electromagnetic wave-matter interface, developing next-gen communication technologies, optically reconfigured microstrip circuits/devices, photonics, and reconfigurable microwave devices.");
      ("photo", JStr "/ece/download(12).png");
      ("links", JObj (list_to_map
          [ ("webpage", JStr "https://www.iitkgp.ac.in/department/EC/faculty/ec-sarang");
            ("awards", JStr "");
            ("bio", JStr "") ]));
      ("research", JArr
            [ JStr "Optical physics";
              JStr "Communication engineering";
              JStr "Electromagnetic wave-matter interface";
              JStr "Optically reconfigured circuits";
              JStr "Photonics";
              JStr "Reconfigurable microwave devices" ]);
      ("projects", JArr []);
      ("companies", JArr []);
      ("websites", JArr []);
      ("institutes", JArr []) ].

Definition prof_ece_14 : JsObj :=
  list_to_map
    [ ("id", JStr "prof_ece_14");
      ("name", JStr "Shailendra Kumar Varshney");
      ("position", JStr "Professor");
      ("email", JStr "skvarshney@ece.iitkgp.ac.in");
      ("degree", JStr "Ph.D.");
      ("branch", JStr "branch_ece");
      ("departmentId", JStr "dept_ece");
      ("description", JStr "Quantum optics, micromachines, energy harvesting functional materials, integrated photonics, nanorobotics, fiber optic sensors, metamaterials, perovskite solar cells, underwater optical wireless comm., experimental photonics, 4D printing, micro manufacturing.");
      ("photo", JStr "/ece/download(13).png");
      ("links", JObj (list_to_map
          [ ("webpage", JStr "https://www.iitkgp.ac.in/department/EC/faculty/ec-skvarshney");
            ("awards", JStr "");
            ("bio", JStr "") ]));
      ("research", JArr
            [ JStr "Quantum optics";
              JStr "Micromachines";
              JStr "Energy harvesting materials";
              JStr "Integrated photonics";
              JStr "Nanorobotics";
              JStr "Fiber optic sensors";
              JStr "Metamaterials";
              JStr "Perovskite solar cells";
              JStr "4D printing" ]);
      ("projects", JArr []);
      ("companies", JArr []);
      ("websites", JArr []);
      ("institutes", JArr []) ].

Definition prof_ece_15 : JsObj :=
  list_to_map
    [ ("id", JStr "prof_ece_15");
      ("name", JStr "Sharba Bandyopadhyay");
      ("position", JStr "Assistant Professor Grade-I");
      ("email", JStr "sharba@ece.iitkgp.ac.in");
      ("degree", JStr "Ph.D.");
      ("branch", JStr "branch_ece");
      ("departmentId", JStr "dept_ece");
      ("description", JStr "Neurobiology, auditory neuroscience, auditory neural processing, cognitive neuroscience, neurophysiology, affective neuroscience. Focus on physiological/cognitive data analysis and neural plasticity in auditory systems.");
      ("photo", JStr "/ece/download(14).png");
      ("links", JObj (list_to_map
          [ ("webpage", JStr "https://www.iitkgp.ac.in/department/EC/faculty/ec-sharba");
            ("awards", JStr "");
            ("bio", JStr "") ]));
      ("research", JArr
            [ JStr "Neurobiology";
              JStr "Auditory neuroscience";
              JStr "Cognitive neuroscience";
              JStr "Neurophysiology";
              JStr "Affective neuroscience";
              JStr "Neural plasticity" ]);
      ("projects", JArr []);
      ("companies", JArr []);
      ("websites", JArr []);
      ("institutes", JArr []) ].

Definition prof_ece_16 : JsObj :=
  list_to_map
    [ ("id", JStr "prof_ece_16");
      ("name", JStr "Subhadip Mukherjee");
      ("position", JStr "Assistant Professor Grade-I");
      ("email", JStr "smukherjee@ece.iitkgp.ac.in");
      ("degree", JStr "Ph.D.");
      ("branch", JStr "branch_ece");
      ("departmentId", JStr "dept_ece");
      ("description", JStr "Deep learning for inverse problems in medical imaging (CT, low-dose/sparse projections), data-driven image reconstruction, optimization and statistics for clinical applications, integration of machine learning with regularization theory, and robust algorithms for high-dimensional signal estimation.");
      ("photo", JStr "/ece/download(15).png");
      ("links", JObj (list_to_map
          [ ("webpage", JStr "https://www.iitkgp.ac.in/department/EC/faculty/ec-smukherjee");
            ("awards", JStr "");
            ("bio", JStr "") ]));
      ("research", JArr
            [ JStr "Deep learning for inverse problems";
              JStr "Medical imaging";
              JStr "Data-driven image reconstruction";
              JStr "Optimization and statistics";
              JStr "Regularization theory";
              JStr "High-dimensional signal estimation" ]);
      ("projects", JArr []);
      ("companies", JArr []);
      ("websites", JArr []);
      ("institutes", JArr []) ].

Definition prof_ece_17 : JsObj :=
  list_to_map
    [ ("id", JStr "prof_ece_17");
      ("name", JStr "Sudipta Mukhopadhyay");
      ("position", JStr "Professor");
      ("email", JStr "smukho@ece.iitkgp.ac.in");
      ("degree", JStr "Ph.D.");
      ("branch", JStr "branch_ece");
      ("departmentId", JStr "dept_ece");
      ("description", JStr "Medical image processing, video restoration, image quality metrics, content-based image retrieval (especially for CT/lung images), autonomous tools for radiologists, feature extraction for image retrieval, video coding, and medical imaging algorithms.");
      ("photo", JStr "/ece/download(16).png");
      ("links", JObj (list_to_map
          [ ("webpage", JStr "https://www.iitkgp.ac.in/department/EC/faculty/ec-smukho");
            ("awards", JStr "");
            ("bio", JStr "") ]));
      ("research", JArr
            [ JStr "Medical image processing";
              JStr "Video restoration";
              JStr "Image quality metrics";
              JStr "Content-based image retrieval";
              JStr "Autonomous tools for radiologists";
              JStr "Video coding" ]);
      ("projects", JArr []);
      ("companies", JArr []);
      ("websites", JArr []);
      ("institutes", JArr []) ].

Definition prof_ece_18 : JsObj :=
  list_to_map
    [ ("id", JStr "prof_ece_18");
      ("name", JStr "Tarun Kanti Bhattacharyya");
      ("position", JStr "Professor");
      ("email", JStr "tkb@ece.iitkgp.ac.in");
      ("degree", JStr "Ph.D.");
      ("branch", JStr "branch_ece");
      ("departmentId", JStr "dept_ece");
      ("description", JStr "MEMS/microsystems, RF/analog VLSI, nanoelectronics, nano-bio sensors, energy storage/harvesting, thin films, biosystem engineering, sensors/actuators for aerospace; leads multidisciplinary labs for VLSI, high-performance devices, and nano-bio applications.");
      ("photo", JStr "/ece/download(17).png");
      ("links", JObj (list_to_map
          [ ("webpage", JStr "https://www.iitkgp.ac.in/department/EC/faculty/ec-tkb");
            ("awards", JStr "");
            ("bio", JStr "") ]));
      ("research", JArr
            [ JStr "MEMS/microsystems";
              JStr "RF/analog VLSI";
              JStr "Nanoelectronics";
              JStr "Nano-bio sensors";
              JStr "Energy storage/harvesting";
              JStr "Biosystem engineering";
              JStr "Sensors/actuators for aerospace" ]);
      ("projects", JArr []);
      ("companies", JArr []);
      ("websites", JArr []);
      ("institutes", JArr []) ].

Definition prof_ece_19 : JsObj :=
  list_to_map
    [ ("id", JStr "prof_ece_19");
      ("name", JStr "Vivek Dixit");
      ("position", JStr "Associate Professor");
      ("email", JStr "vdixit@ece.iitkgp.ac.in");
      ("degree", JStr "Ph.D.");
      ("branch", JStr "branch_ece");
      ("departmentId", JStr "dept_ece");
      ("description", JStr "Semiconductor devices modeling/simulation, silicon photonics, THz technology, metamaterials, photonic devices, low-loss silicon modulators, reconfigurable microwave/photonics structures, and eye diagram simulation for electro-optic signals.");
      ("photo", JStr "/ece/download(18).png");
      ("links", JObj (list_to_map
          [ ("webpage", JStr "https://www.iitkgp.ac.in/department/EC/faculty/ec-vdixit");
            ("awards", JStr "");
            ("bio", JStr "") ]));
      ("research", JArr
            [ JStr "Semiconductor devices modeling";
              JStr "Silicon photonics";
              JStr "THz technology";
              JStr "Metamaterials";
              JStr "Photonic devices";
              JStr "Low-loss silicon modulators";
              JStr "Reconfigurable microwave structures" ]);
      ("projects", JArr []);
      ("companies", JArr []);
      ("websites", JArr []);
      ("institutes", JArr []) ].

Definition fallbackData : AppData :=
  {| departments :=
       [ {| dept_id := "dept_ece";
            dept_name := "Electronics & Electrical Communication Engineering";
            dept_branches := ["branch_ece"] |} ];
     branches :=
       list_to_map
         [ ("branch_ece", {| branch_id := "branch_ece"; branch_name := "ECE"; branch_departmentId := Some "dept_ece" |}) ];
     professors :=
       list_to_map
         [ ("prof_ece_1", prof_ece_1);
           ("prof_ece_2", prof_ece_2);
           ("prof_ece_3", prof_ece_3);
           ("prof_ece_4", prof_ece_4);
           ("prof_ece_5", prof_ece_5);
           ("prof_ece_6", prof_ece_6);
           ("prof_ece_7", prof_ece_7);
           ("prof_ece_8", prof_ece_8);
           ("prof_ece_9", prof_ece_9);
           ("prof_ece_10", prof_ece_10);
           ("prof_ece_11", prof_ece_11);
           ("prof_ece_12", prof_ece_12);
           ("prof_ece_13", prof_ece_13);
           ("prof_ece_14", prof_ece_14);
           ("prof_ece_15", prof_ece_15);
           ("prof_ece_16", prof_ece_16);
           ("prof_ece_17", prof_ece_17);
           ("prof_ece_18", prof_ece_18);
           ("prof_ece_19", prof_ece_19) ];
     news := JArr [] |}.

(** *** loadData *)

(** How a call completes: normally, or by an exception that leaves the
    handler with the state reached so far. *)
Inductive Completion :=
  | Done (st : AppState)
  | Raised (e : JsError) (st : AppState).

(** [serverData && serverData.departments]; [None] is a falsy answer. *)
Definition validServerData (serverData : option Payload) : bool :=
  match serverData with
  | Some p => bool_decide (is_Some (p_departments p))
  | None => false
  end.

(** The [try]/[catch] that picks the base and the connectivity state. *)
Definition chooseBase (fetchMockData : Outcome (option Payload)) (ls : LocalStorage)
  : ApiStatus * option Payload :=
  let fromCache :=
    (offline, Some (match loadLocalData ls with
                    | Some local => local
                    | None => payload_of fallbackData
                    end)) in
  match fetchMockData with
  | Returned serverData =>
      if validServerData serverData then (connected, serverData) else fromCache
  | Thrown _ => fromCache
  end.

(** The block under [if (loadedData)].  The seed has a department, a branch
    and professors, so each of the three loops reads its collection of
    [loadedData] at least once; a missing one is a read on [undefined]. *)
Definition mergeFallback (loadedData : Payload) : Outcome AppData :=
  match p_departments loadedData with
  | None => Thrown undefined_deref
  | Some ds =>
      match p_professors loadedData with
      | None => Thrown undefined_deref
      | Some ps =>
          match p_branches loadedData with
          | None => Thrown undefined_deref
          | Some bs =>
              Returned (mergeInto fallbackData
                          {| departments := ds; branches := bs; professors := ps;
                             news := p_news loadedData |})
          end
      end
  end.

Definition loadData (fetchMockData : Outcome (option Payload)) (st : AppState)
  : Completion :=
  let st := setLoading true st in
  let '(status, loadedData) := chooseBase fetchMockData (localStorage st) in
  let st := setApiStatus status st in
  match loadedData with
  | Some p =>
      match mergeFallback p with
      | Returned merged => Done (setLoading false (setData (Some merged) st))
      | Thrown e => Raised e st
      end
  | None => Done (setLoading false (setData None st))
  end.

End App.

(* ===================================================================== *)
(** ** Sample inputs *)
(* ===================================================================== *)

Module Samples.
Import Api JobSearch App.

(** *** Network *)

Definition failed_to_fetch : JsError :=
  {| err_class := TypeError; err_message := "Failed to fetch"; err_status := None |}.





(** *** A toy URL platform: it parses one address and nothing else. *)

Definition tracked_address : string :=
  "https://jobs.example/apply?utm_source=mail&role=dev&gclid=7#top".

Definition tracked_url : URL :=
  {| protocol := "https:"; username := ""; password := "";
     host := "jobs.example"; pathname := "/apply";
     searchParams := [("utm_source", "mail"); ("role", "dev"); ("gclid", "7")];
     hash := "#top" |}.

Definition toy_parse (raw : string) : option URL :=
  if String.eqb raw tracked_address then Some tracked_url else None.

Definition toy_serialize (u : URL) : string :=
  protocol u +:+ "//" +:+ host u +:+ pathname u
  +:+ match searchParams u with
      | [] => ""
      | kv :: r => foldl (λ s kv, s +:+ "&" +:+ kv.1 +:+ "=" +:+ kv.2)
                         ("?" +:+ kv.1 +:+ "=" +:+ kv.2) r
      end
  +:+ hash u.

(** *** A small directory *)

Definition empty_store : LocalStorage :=
  {| ls_items := ∅; ls_readable := true; ls_writable := true |}.

Definition ada : JsObj :=
  list_to_map [("id", JStr "p1"); ("name", JStr "Ada"); ("branch", JStr "branch_ai");
               ("departmentId", JStr "dept_cs")].

(** A record the server holds under an identifier of the seed. *)
Definition server_copy : JsObj :=
  list_to_map [("id", JStr "prof_ece_1"); ("name", JStr "Server copy")].

Definition branch_ai : Branch :=
  {| branch_id := "branch_ai"; branch_name := "Artificial Intelligence";
     branch_departmentId := Some "dept_cs" |}.

Definition dept_cs : Department :=
  {| dept_id := "dept_cs"; dept_name := "Computer Science";
     dept_branches := ["branch_ai"] |}.

Definition remote_base : AppData :=
  {| departments := [dept_cs];
     branches := {["branch_ai" := branch_ai]};
     professors := <["p1" := ada]> {["prof_ece_1" := server_copy]};
     news := JArr [] |}.

(** A 200 answer whose body is an object with an empty [departments] list
    and nothing else. *)
Definition departments_only : Payload :=
  {| p_departments := Some []; p_branches := None; p_professors := None;
     p_news := JUndefined |}.

(** A session before its first load, and one that has loaded [remote_base]. *)
Definition st0 : AppState :=
  {| data := None; loading := false; apiStatus := connecting;
     activeModal := None; editingProfessor := None; toasts := [];
     localStorage := empty_store |}.

Definition st1 : AppState :=
  {| data := Some remote_base; loading := false; apiStatus := connected;
     activeModal := Some "edit-professor"; editingProfessor := Some ada; toasts := [];
     localStorage := empty_store |}.

Definition clock : Z := 1700000000000.

(** The Remote Store out of reach, and one that stores what it is sent. *)
Definition unreachable {A B} : A → Outcome B := λ _, Thrown failed_to_fetch.

Definition accepting : JsObj → Outcome JsObj :=
  λ payload, Returned (<["_id" := JStr "srv_7"]> payload).

Definition add_form : AddForm :=
  {| add_branchName := "Robotics"; add_departmentId := "dept_cs";
     profCoreData := list_to_map [("name", JStr "Grace");
                                  ("email", JStr "grace@cs.example")] |}.

Definition edit_form : EditForm :=
  {| edit_branchName := "artificial intelligence"; edit_departmentId := "dept_cs";
     edit_id := "p1";
     rest := list_to_map [("name", JStr "Ada L."); ("email", JStr "ada@cs.example")] |}.

End Samples.

(* ===================================================================== *)
(** ** src/vite.config.ts, App : reading the aggregate *)
(* ===================================================================== *)

Module AppExt.
Import App.

(** An updater that only computes the new aggregate, as those of Add and
    Remove do. *)
Definition pureUpdater (f : AppData → AppData) : Updater := λ d ls, (f d, ls).

(** [savedProf._id || savedProf.id || id], the key Edit writes under when
    the Remote Store accepted. *)
Definition savedId (savedProf : JsObj) (id : string) : JsVal :=
  or_else (get savedProf "_id") (or_else (get savedProf "id") (JStr id)).

(** Every professor's [departmentId] is the identifier of a department of
    the aggregate. *)
Definition departments_known (d : AppData) : Prop :=
  ∀ k p, professors d !! k = Some p →
         ∃ dep, dep ∈ departments d ∧ get p "departmentId" = JStr (dept_id dep).

(** Whether the answer of the server passes the test of [loadData]. *)
Definition serverAccepted (fetchMockData : Outcome (option Payload)) : bool :=
  match fetchMockData with
  | Returned serverData => validServerData serverData
  | Thrown _ => false
  end.

End AppExt.

Module AppExtSamples.
Import App.

(** A form that names a department the directory does not have. *)
Definition stray_add_form : AddForm :=
  {| add_branchName := "Robotics"; add_departmentId := "dept_missing";
     profCoreData := {["name" := JStr "Grace"]} |}.

Definition stray_edit_form : EditForm :=
  {| edit_branchName := "Robotics"; edit_departmentId := "dept_missing";
     edit_id := "p1"; rest := {["name" := JStr "Ada L."]} |}.


(** An answer of the server that is an object without [departments]. *)
Definition no_departments : Payload :=
  {| p_departments := None; p_branches := Some ∅; p_professors := Some ∅;
     p_news := JUndefined |}.

(** A store whose item is not JSON. *)
Definition garbled_store : LocalStorage :=
  {| ls_items := {[LOCAL_STORAGE_KEY := BlobMalformed]};
     ls_readable := true; ls_writable := true |}.

(** A directory in which every professor has a department. *)
Definition tidy_base : AppData :=
  {| departments := [Samples.dept_cs];
     branches := {["branch_ai" := Samples.branch_ai]};
     professors := {["p1" := Samples.ada]};
     news := JArr [] |}.

Definition st_tidy : AppState :=
  {| data := Some tidy_base; loading := false; apiStatus := connected;
     activeModal := Some "edit-professor"; editingProfessor := Some Samples.ada;
     toasts := []; localStorage := Samples.empty_store |}.

End AppExtSamples.

(* ===================================================================== *)
(** ** src/vite.config.ts, AddProfessorModal : handleSubmit *)
(* ===================================================================== *)

Module AddDialog.
Import App.

(** [handleSubmit] of the add dialog, wired as the application wires it:
    [onSubmit] is [handleAddProfessor], [onClose] is
    [() => setActiveModal(null)] and [toast] is the application's
    [showToast].  [handleAddProfessor] settles without an exception, so the
    [catch] block of the dialog is not entered. *)
Definition handleSubmit (form : AddForm) (now : Z)
    (updateProfessor : JsObj → Outcome JsObj) (st : AppState) : AppState :=
  if negb (truthy (get (profCoreData form) "name"))
     || negb (truthy (get (profCoreData form) "email"))
  then showToast "Please provide name and email." st
  else
    setActiveModal None
      (showToast "Professor added." (handleAddProfessor form now updateProfessor st)).

(** The form has a name and an email. *)
Definition filled (form : AddForm) : Prop :=
  truthy (get (profCoreData form) "name") = true
  ∧ truthy (get (profCoreData form) "email") = true.

End AddDialog.

(* ===================================================================== *)
(** ** More sample inputs *)
(* ===================================================================== *)

Module ApiExtSamples.
Import Api.

(** A 204 answer: success, and no body to parse. *)
Definition no_content : Response :=
  {| status := 204; body_text := ""; body_json := None |}.

(** A 200 answer with the JSON body [true]. *)
Definition accepted : Response :=
  {| status := 200; body_text := "true"; body_json := Some (JBool true) |}.

(** Two failed connections, then the answer. *)
Definition third_time_lucky (attempt : nat) : FetchOutcome :=
  match attempt with
  | 0%nat | 1%nat => FetchRejected Samples.failed_to_fetch
  | _ => FetchResponse accepted
  end.

End ApiExtSamples.

(* ===================================================================== *)
(** ** More of the language: splitting, upper case, property reads *)
(* ===================================================================== *)

Module JsMore.

(** [s.split(sep)] for a one-character separator: the pieces between the
    separators, empty ones included; the empty string gives one empty
    piece. *)
Fixpoint split_on (sep : ascii) (s : string) : list string :=
  match s with
  | EmptyString => [EmptyString]
  | String a r =>
      if Ascii.eqb a sep then EmptyString :: split_on sep r
      else match split_on sep r with
           | w :: ws => String a w :: ws
           | [] => [String a EmptyString]
           end
  end.

(** [String.prototype.toUpperCase] on ASCII text: the letters a to z are
    mapped, every other character is kept.  Beyond ASCII the built-in
    follows the Unicode case mappings and may lengthen the text, which this
    function does not follow. *)
Definition upper_ascii (c : ascii) : ascii :=
  let n := nat_of_ascii c in
  if ((97 <=? n) && (n <=? 122))%nat then ascii_of_nat (n - 32) else c.

Fixpoint toUpperCase (s : string) : string :=
  match s with
  | EmptyString => EmptyString
  | String c r => String (upper_ascii c) (toUpperCase r)
  end.

(** [it.k] for a key [k] that is not a built-in property of a string, a
    number, a boolean, an array or a plain object (the keys read this way
    are [name], [title], [position], [snippet], [summary], [url], [error]
    and [results]): the read throws on [null] and [undefined] and is
    [undefined] on every value that is not an object. *)
Definition field (it : JsVal) (k : string) : Outcome JsVal :=
  match it with
  | JNull | JUndefined => Thrown undefined_deref
  | JObj o => Returned (get o k)
  | _ => Returned JUndefined
  end.

End JsMore.

(* ===================================================================== *)
(** ** src/alumni_search.js : renderResults, doSearch *)
(* ===================================================================== *)

Module AlumniUi.
Import JsMore AlumniSearch Api.

(** [s[0] || ''], the first character of ASCII text. *)
Definition first_char (s : string) : string :=
  match s with
  | EmptyString => EmptyString
  | String a _ => String a EmptyString
  end.

(** [pieces.join('')] *)
Definition join_all (pieces : list string) : string :=
  foldr String.append EmptyString pieces.

(** [name.split(' ').map(s => s[0] || '').slice(0, 2).join('').toUpperCase() || '?'] *)
Definition initials (name : string) : string :=
  let i := toUpperCase (join_all (take 2 (first_char <$> split_on " " name))) in
  if String.eqb i "" then "?" else i.

(** The values interpolated into the markup of one card. *)
Record Card := {
  card_initials : string;
  card_name : string;
  card_url : option string;
  card_title : string;
  card_snippet : string
}.

(** The body of the [for] loop, up to the assembly of the markup; a value
    that [escapeHtml] cannot convert ends it by the exception. *)
Definition renderCard (it : JsVal) : Outcome Card :=
  match it with
  | JNull | JUndefined => Thrown undefined_deref
  | _ =>
      let read k := match field it k with Returned v => v | Thrown _ => JUndefined end in
      and_then (escapeHtml (of_value
                  (or_else (read "name") (or_else (read "title") (JStr "Unknown")))))
        (λ name,
      and_then (escapeHtml (of_value
                  (or_else (read "title") (or_else (read "position") (JStr "")))))
        (λ title,
      and_then (escapeHtml (of_value
                  (or_else (read "snippet") (or_else (read "summary") (JStr "")))))
        (λ snippet,
      and_then (if truthy (read "url")
                then and_then (escapeHtml (of_value (read "url"))) (λ u, Returned (Some u))
                else Returned None)
        (λ url,
      Returned {| card_initials := initials name; card_name := name; card_url := url;
                  card_title := title; card_snippet := snippet |}))))
  end.

(** What the results container shows: nothing (its markup was cleared), the
    "No results" line, or a grid of cards. *)
Inductive Rendered :=
  | Cleared
  | NoResults
  | Grid (cards : list Card).

(** The cards of a list of items; the first item that cannot be read ends
    the loop by its exception. *)
Fixpoint renderCards (items : list JsVal) : Outcome (list Card) :=
  match items with
  | [] => Returned []
  | it :: rest =>
      match renderCard it with
      | Thrown e => Thrown e
      | Returned c =>
          match renderCards rest with
          | Thrown e => Thrown e
          | Returned cs => Returned (c :: cs)
          end
      end
  end.

(** The [TypeError] of [for (const it of items)] on a value that cannot be
    iterated. *)
Definition not_iterable : JsError :=
  {| err_class := TypeError; err_message := "items is not iterable";
     err_status := None |}.

(** The characters of a string, which [for ... of] walks through. *)
Fixpoint characters (s : string) : list JsVal :=
  match s with
  | EmptyString => []
  | String a r => JStr (String a EmptyString) :: characters r
  end.

(** [renderResults(items)], for any value of [items]: what the container
    shows when the call returns, or the exception that ends it, in which
    case the container is left cleared. *)
Definition renderResults (items : JsVal) : Outcome Rendered :=
  if negb (truthy items) then Returned NoResults
  else
    match items with
    | JArr [] => Returned NoResults
    | JArr l =>
        match renderCards l with
        | Returned cs => Returned (Grid cs)
        | Thrown e => Thrown e
        end
    | JStr s =>
        match renderCards (characters s) with
        | Returned cs => Returned (Grid cs)
        | Thrown e => Thrown e
        end
    | JObj o =>
        match get o "length" with
        | JNum 0 => Returned NoResults
        | _ => Thrown not_iterable
        end
    | _ => Thrown not_iterable
    end.

(** The status line and the results container. *)
Record Ui := {
  status_text : string;
  shown : Rendered
}.

(** A white-space character of [String.prototype.trim], among the ASCII
    characters; [trim] strips further Unicode space characters, so a query
    that is [blank] here is blank for the code, and not conversely. *)
Definition is_space (a : ascii) : bool :=
  match nat_of_ascii a with
  | 9%nat | 10%nat | 11%nat | 12%nat | 13%nat | 32%nat => true
  | _ => false
  end.

(** [q.trim().length === 0] *)
Fixpoint blank (q : string) : bool :=
  match q with
  | EmptyString => true
  | String a r => is_space a && blank r
  end.

(** The [catch] block. *)
Definition searchFailed : Ui := {| status_text := "Error searching"; shown := NoResults |}.

(** [doSearch(q)], given what [fetch] settles with. *)
Definition doSearch (q : string) (fetched : FetchOutcome) : Ui :=
  if blank q then {| status_text := ""; shown := NoResults |}
  else
    match fetched with
    | FetchRejected _ => searchFailed
    | FetchResponse res =>
        match body_json res with
        | None => searchFailed                      (* res.json() rejects *)
        | Some json =>
            if negb (ok res) then
              let error := if truthy json
                           then match field json "error" with
                                | Returned e => e
                                | Thrown _ => JUndefined
                                end
                           else JUndefined in
              if truthy error then
                match StringOf error with      (* statusEl.textContent = json.error *)
                | Returned message => {| status_text := message; shown := NoResults |}
                | Thrown _ => searchFailed
                end
              else {| status_text := "Search failed"; shown := NoResults |}
            else
              match field json "results" with
              | Thrown _ => searchFailed
              | Returned results =>
                  match renderResults (or_else results (JArr [])) with
                  | Returned r => {| status_text := ""; shown := r |}
                  | Thrown _ => searchFailed
                  end
              end
        end
    end.

(** Every character of [s] satisfies [P]. *)
Definition chars_ok (P : ascii → Prop) (s : string) : Prop :=
  Forall P (list_ascii_of_string s).

(** A character that [escapeHtml] does not replace. *)
Definition plain_char (a : ascii) : Prop :=
  a ≠ "&"%char ∧ a ≠ "<"%char ∧ a ≠ ">"%char ∧ a ≠ dquote ∧ a ≠ "'"%char.

(** Every value interpolated into a card is free of markup characters. *)
Definition card_safe (c : Card) : Prop :=
  safe (card_initials c) ∧ safe (card_name c) ∧ safe (card_title c)
  ∧ safe (card_snippet c)
  ∧ match card_url c with Some u => safe u | None => True end.

End AlumniUi.

Module AlumniUiSamples.
Import Api AlumniUi.

(** One result whose name is markup. *)
Definition one_result : JsVal :=
  JArr [JObj (list_to_map [("name", JStr "<b>Eve</b>"); ("url", JStr "https://x.example/?a='1'")])].

Definition results_page : Response :=
  {| status := 200; body_text := "";
     body_json := Some (JObj {["results" := one_result]}) |}.

End AlumniUiSamples.

(* ===================================================================== *)
(** ** src/vite.config.ts, PublicJobSearch : the search pipeline *)
(* ===================================================================== *)

Module JobSearchExt.
Import Api JobSearch.

(** *** isJobPosting *)





(** *** fetchWithRetry *)

(** An answer of the search API: its status, the text of its body ([None]
    when reading it fails) and what [res.json()] resolves to ([None] when it
    rejects). *)
Record SearchResponse := {
  sr_status : Z;
  sr_text : option string;
  sr_json : option JsVal
}.

Definition sr_ok (r : SearchResponse) : bool :=
  (200 <=? sr_status r) && (sr_status r <=? 299).

Inductive SearchFetch :=
  | SearchRejected (e : JsError)
  | SearchAnswered (r : SearchResponse).

(** [new Error(errText || `HTTP ${res.status}`)], with
    [errText = await res.text().catch(() => String(res.status))]. *)
Definition status_error (r : SearchResponse) : JsError :=
  let errText := default (pretty (sr_status r)) (sr_text r) in
  {| err_class := PlainError;
     err_message := if String.eqb errText "" then "HTTP " +:+ pretty (sr_status r)
                    else errText;
     err_status := None |}.

(** [Math.pow(2, 5 - retries) * 500], for [retries] between 1 and 5. *)
Definition wait_ms (retries : nat) : Z := 2 ^ (5 - Z.of_nat retries) * 500.

(** [fetchWithRetry(url, retries)]; [net i] is what the [i]-th call of
    [fetch] settles with, [attempt] the number of calls made so far.  The
    recursive call is returned, not awaited, so its rejection does not reach
    the [catch] of the caller. *)
Fixpoint fetchWithRetry (net : nat → SearchFetch) (retries attempt : nat)
  : Outcome JsVal * list Event :=
  let again :=
    match retries with
    | O => None
    | S retries' =>
        Some (let '(res, log) := fetchWithRetry net retries' (S attempt) in
              (res, Fetched :: Slept (wait_ms retries) :: log))
    end in
  (* the [catch] block *)
  let caught (err : JsError) :=
    match again with
    | Some retried => retried
    | None => (Thrown err, [Fetched])
    end in
  match net attempt with
  | SearchRejected e => caught e
  | SearchAnswered res =>
      if negb (sr_ok res) then
        if ((sr_status res =? 429) || (500 <=? sr_status res)) && (0 <? retries)%nat
        then match again with
             | Some retried => retried
             | None => caught (status_error res)
             end
        else caught (status_error res)
      else
        match sr_json res with
        | Some data => (Returned data, [Fetched])
        | None => caught json_error
        end
  end.

(** The waits before the calls that follow, when [retries] are left. *)
Fixpoint waits (retries : nat) : list Z :=
  match retries with
  | O => []
  | S retries' => wait_ms retries :: waits retries'
  end.

(** The call [performSearch] makes: [retries] takes its default, 4. *)
Definition fetchSearch (net : nat → SearchFetch) : Outcome JsVal * list Event :=
  fetchWithRetry net 4 0.

(** What a call of [fetch] that does not end in a parsed 2xx answer leaves
    in the hands of the [catch] block: the rejection, the error made of a
    non-2xx answer, or the rejection of [res.json()]. *)
Definition failure (f : SearchFetch) : option JsError :=
  match f with
  | SearchRejected e => Some e
  | SearchAnswered res =>
      if negb (sr_ok res) then Some (status_error res)
      else match sr_json res with
           | Some _ => None
           | None => Some json_error
           end
  end.

(** *** The duplicate filter of performSearch *)

Record JobItem := {
  title : string;
  link : string;
  snippet : string;
  source : string;
  publishedAt : option string;
  postingFlag : bool        (* the field [isJobPosting] *)
}.

(** The URL [normalizeUrl] serializes. *)
Definition stripped (u : URL) : URL :=
  {| protocol := protocol u; username := username u; password := password u;
     host := host u; pathname := pathname u;
     searchParams := filter (λ kv, kv.1 ∉ tracking_params) (searchParams u);
     hash := "" |}.

(** [a || b] on strings. *)
Definition str_or (a b : string) : string := if String.eqb a "" then b else a.

Section WithPlatform.

Variable parse : string → option URL.
Variable serialize : URL → string.

(** [normalizeUrl(it.link || it.source || '') || ''] *)
Definition norm (it : JobItem) : string :=
  str_or (normalizeUrl parse serialize (str_or (link it) (str_or (source it) ""))) "".

(** One turn of the loop over [mapped]: [seen] and [unique]. *)
Definition keep_new (st : gset string * list JobItem) (it : JobItem)
  : gset string * list JobItem :=
  if decide (norm it ∈ st.1) then st
  else ({[norm it]} ∪ st.1, st.2 ++ [it]).

Definition dedupe (mapped : list JobItem) : list JobItem :=
  (foldl keep_new (∅, []) mapped).2.

(** What the loop maintains: [seen] holds the keys of [unique], which are
    all different. *)
Definition loop_inv (st : gset string * list JobItem) : Prop :=
  st.1 = list_to_set (norm <$> st.2) ∧ NoDup (norm <$> st.2).

End WithPlatform.

End JobSearchExt.

Module JobSearchSamples.
Import Api JobSearch JobSearchExt.

(** A 404 answer. *)
Definition missing : SearchResponse :=
  {| sr_status := 404; sr_text := Some "Not Found"; sr_json := None |}.

(** Two results for one page, the second reached through a campaign link,
    and a result without an address. *)
Definition posting : JobItem :=
  {| title := "Backend developer"; link := "https://jobs.example/apply?role=dev";
     snippet := "We are hiring"; source := "jobs.example"; publishedAt := None;
     postingFlag := true |}.

Definition posting_again : JobItem :=
  {| title := "Backend developer (sponsored)"; link := Samples.tracked_address;
     snippet := "Apply now"; source := "jobs.example"; publishedAt := None;
     postingFlag := true |}.

Definition other : JobItem :=
  {| title := "Tech news"; link := ""; snippet := ""; source := "news.example";
     publishedAt := None; postingFlag := false |}.

(** The address and the URL that [Samples.tracked_address] normalizes to,
    and a toy platform that parses both addresses. *)
Definition clean_address : string := "https://jobs.example/apply?role=dev".

Definition clean_url : URL :=
  {| protocol := "https:"; username := ""; password := "";
     host := "jobs.example"; pathname := "/apply";
     searchParams := [("role", "dev")];
     hash := "" |}.

Definition toy_parse2 (raw : string) : option URL :=
  if String.eqb raw Samples.tracked_address then Some Samples.tracked_url
  else if String.eqb raw clean_address then Some clean_url
  else None.

(** The same page shared with a click identifier and a fragment, and a toy
    platform that parses it and the plain address. *)
Definition shared_address : string :=
  "https://jobs.example/apply?role=dev&fbclid=abc#top".

Definition shared_url : URL :=
  {| protocol := "https:"; username := ""; password := "";
     host := "jobs.example"; pathname := "/apply";
     searchParams := [("role", "dev"); ("fbclid", "abc")];
     hash := "#top" |}.

Definition toy_parse3 (raw : string) : option URL :=
  if String.eqb raw shared_address then Some shared_url
  else if String.eqb raw clean_address then Some clean_url
  else None.

(** An empty result page, and a server that answers 404 twice before it. *)
Definition empty_page : SearchResponse :=
  {| sr_status := 200; sr_text := Some "{}"; sr_json := Some (JObj ∅) |}.

Definition found_at_third (attempt : nat) : SearchFetch :=
  match attempt with
  | 0%nat | 1%nat => SearchAnswered missing
  | _ => SearchAnswered empty_page
  end.


End JobSearchSamples.

(* ===================================================================== *)
(** ** src/vite.config.ts : extractGithubInfo, processGithubResults *)
(* ===================================================================== *)

Module Github.
Import JsMore JobSearch.

(** One repository of a user, and what is collected for a user. *)
Record Repo := {
  repo_name : string;
  repo_url : string;
  repo_snippet : JsVal
}.

Record UserEntry := {
  avatar : string;
  profile : string;
  bio : JsVal;
  repos : list Repo
}.

(** The names every object inherits from [Object.prototype]: on the empty
    object [byUser] they read as a function or, for [__proto__], as an
    object, never as [undefined]. *)
Definition inherited_names : list string :=
  ["constructor"; "__defineGetter__"; "__defineSetter__"; "hasOwnProperty";
   "__lookupGetter__"; "__lookupSetter__"; "isPrototypeOf";
   "propertyIsEnumerable"; "toString"; "valueOf"; "__proto__";
   "toLocaleString"].

(** The [TypeError] of [byUser[user].repos.push(...)] when [repos] is
    [undefined]. *)
Definition push_on_undefined : JsError :=
  {| err_class := TypeError;
     err_message := "Cannot read properties of undefined (reading 'push')";
     err_status := None |}.

(** [it.link || it.formattedUrl || ''], as the string [new URL] makes of
    it. *)
Definition address (o : JsObj) : string :=
  ToString (or_else (get o "link") (or_else (get o "formattedUrl") (JStr ""))).

(** [parts.filter(Boolean)] on strings *)
Definition nonempty (parts : list string) : list string :=
  filter (λ p, p ≠ "") parts.

Section WithPlatform.

(** The platform's URL parser ([None] when [new URL] throws) and
    [u.hostname], the host without the port. *)
Variable parse : string → option URL.
Variable hostname : URL → string.

(** [extractGithubInfo(url)]: the properties [user] and [repo] of the
    object returned, [None] for a property it does not have. *)
Definition extractGithubInfo (url : string) : option string * option string :=
  match parse url with
  | None => (None, None)
  | Some u =>
      if negb (String.eqb (hostname u) "github.com") then (None, None)
      else
        match nonempty (split_on "/" (pathname u)) with
        | user :: repo :: _ => (Some user, Some repo)
        | [user] => (Some user, None)
        | [] => (None, None)
        end
  end.

(** [info.user] and [info.repo] as conditions: a missing property and the
    empty string are falsy. *)
Definition given (p : option string) : option string :=
  match p with
  | Some s => if String.eqb s "" then None else Some s
  | None => None
  end.

(** The entry [byUser[user]] starts as. *)
Definition fresh (user : string) : UserEntry :=
  {| avatar := "https://github.com/" +:+ user +:+ ".png";
     profile := "https://github.com/" +:+ user;
     bio := JUndefined;
     repos := [] |}.

(** What the two branches under [if (info.repo)] do to the entry of
    [user]. *)
Definition record (user : string) (repo : option string) (snippet : JsVal)
    (entry : UserEntry) : UserEntry :=
  match repo with
  | Some repoName =>
      {| avatar := avatar entry; profile := profile entry; bio := bio entry;
         repos := repos entry
                  ++ [{| repo_name := repoName;
                         repo_url := "https://github.com/" +:+ user +:+ "/" +:+ repoName;
                         repo_snippet := snippet |}] |}
  | None =>
      if negb (truthy (bio entry)) && truthy snippet
      then {| avatar := avatar entry; profile := profile entry; bio := snippet;
              repos := repos entry |}
      else entry
  end.

(** The callback of [items.forEach]; [byUser] holds the own properties of
    the object being filled.  An item that is not an object has no address
    to offer ([it.link] is [undefined] or, on a string, the built-in method
    [link], whose text is not a URL), so it adds nothing; [null] and
    [undefined] cannot be read.  Under an inherited name [byUser[user]] is
    a built-in value: it is not initialized, it has no [repos], and a [bio]
    is written to the built-in value, not to [byUser]. *)
Definition visit (byUser : gmap string UserEntry) (it : JsVal)
  : Outcome (gmap string UserEntry) :=
  match it with
  | JNull | JUndefined => Thrown undefined_deref
  | JObj o =>
      let info := extractGithubInfo (address o) in
      match given info.1 with
      | None => Returned byUser
      | Some user =>
          match byUser !! user with
          | Some entry =>
              Returned (<[user := record user (given info.2) (get o "snippet") entry]> byUser)
          | None =>
              if bool_decide (user ∈ inherited_names) then
                match given info.2 with
                | Some _ => Thrown push_on_undefined
                | None => Returned byUser
                end
              else
                Returned (<[user := record user (given info.2) (get o "snippet") (fresh user)]>
                            byUser)
          end
      end
  | _ => Returned byUser
  end.

(** [items.forEach(...)]: the first exception ends the loop. *)
Fixpoint visitAll (byUser : gmap string UserEntry) (items : list JsVal)
  : Outcome (gmap string UserEntry) :=
  match items with
  | [] => Returned byUser
  | it :: rest =>
      match visit byUser it with
      | Returned byUser' => visitAll byUser' rest
      | Thrown e => Thrown e
      end
  end.

Definition processGithubResults (items : list JsVal) : Outcome (gmap string UserEntry) :=
  visitAll ∅ items.

(** What holds of every entry collected under [user]. *)
Definition entry_ok (user : string) (entry : UserEntry) : Prop :=
(user ∉ inherited_names)
  ∧ avatar entry = "https://github.com/" +:+ user +:+ ".png"
  ∧ profile entry = "https://github.com/" +:+ user
  ∧ Forall (λ r, repo_url r = profile entry +:+ "/" +:+ repo_name r) (repos entry).

End WithPlatform.

(** [c] does not occur in [s]. *)
Definition free_of (c : ascii) (s : string) : Prop := c ∉ list_ascii_of_string s.

End Github.

Module GithubSamples.
Import JobSearch Github.

(** A toy platform that knows two addresses, and a result for each. *)
Definition repo_address : string := "https://github.com/constructor/demo".
Definition repo_page : URL :=
  {| protocol := "https:"; username := ""; password := ""; host := "github.com";
     pathname := "/constructor/demo"; searchParams := []; hash := "" |}.

Definition hello_address : string := "https://github.com/octocat/hello/issues".
Definition hello_page : URL :=
  {| protocol := "https:"; username := ""; password := ""; host := "github.com";
     pathname := "/octocat/hello/issues"; searchParams := []; hash := "" |}.

Definition parse_repo (raw : string) : option URL :=
  if String.eqb raw repo_address then Some repo_page
  else if String.eqb raw hello_address then Some hello_page
  else None.

Definition found : JsVal :=
  JObj {[ "link" := JStr repo_address; "snippet" := JStr "A demo" ]}.

Definition hello : JsVal :=
  JObj {[ "link" := JStr hello_address; "snippet" := JStr "Issues" ]}.

Definition octocat : UserEntry :=
  {| avatar := "https://github.com/octocat.png";
     profile := "https://github.com/octocat";
     bio := JUndefined;
     repos := [{| repo_name := "hello";
                  repo_url := "https://github.com/octocat/hello";
                  repo_snippet := JStr "Issues" |}] |}.

End GithubSamples.

(* ===================================================================== *)
(** ** src/vite.config.ts, EditProfessorModal : the repeatable lists *)
(* ===================================================================== *)

Module EditLists.

(** [ensureArray(v)] *)
Definition ensureArray (v : JsVal) : list JsVal :=
  match v with
  | JArr l => filter (λ x, truthy x = true) l
  | _ => if truthy v then [v] else []
  end.

(** [l.filter((_, i) => i !== idx)] *)
Fixpoint without (idx : nat) (l : list JsVal) : list JsVal :=
  match l, idx with
  | [], _ => []
  | _ :: r, O => r
  | x :: r, S idx' => x :: without idx' r
  end.

(** [l.map((it, i) => i === idx ? val : it)] *)
Fixpoint replaced (idx : nat) (val : JsVal) (l : list JsVal) : list JsVal :=
  match l, idx with
  | [], _ => []
  | _ :: r, O => val :: r
  | x :: r, S idx' => x :: replaced idx' val r
  end.

(** The state updaters of the three handlers; the form is the object [f],
    [key] is 'research' or 'projects' at every call site, and [idx] is the
    position of the input in the list the modal displays. *)
Definition handleAddItem (key : string) (f : JsObj) : JsObj :=
  <[key := JArr (ensureArray (get f key) ++ [JStr ""])]> f.

Definition handleRemoveItem (key : string) (idx : nat) (f : JsObj) : JsObj :=
  <[key := JArr (without idx (ensureArray (get f key)))]> f.

Definition handleItemChange (key : string) (idx : nat) (val : string) (f : JsObj) : JsObj :=
  <[key := JArr (replaced idx (JStr val) (ensureArray (get f key)))]> f.

(** [(form[key] || []).map((r, i) => ...)]: the values of the inputs the
    modal displays for a list, in order; input [i] calls the handlers with
    index [i].  A form value that is neither empty nor an array makes
    [.map] throw while rendering. *)
Definition displayed (key : string) (f : JsObj) : option (list JsVal) :=
  match or_else (get f key) (JArr []) with
  | JArr l => Some l
  | _ => None
  end.

End EditLists.

Module EditListsSamples.
Import EditLists.

Definition one_topic : JsObj :=
  {[ "name" := JStr "Ada"; "research" := JArr [JStr "Compilers"] ]}.

End EditListsSamples.

(* ===================================================================== *)
(** ** src/vite.config.ts, App : the stack of views *)
(* ===================================================================== *)

Module Views.

Inductive View :=
  | home
  | professor (id : string)
  | department (id : string)
  | professor_directory.

(** The initial state of [viewStack], which [handleLogout], [onReturnHome]
    and [onHomeClick] set again; the current view is the last element. *)
Definition initialStack : list View := [home].

(** [viewStack[viewStack.length - 1]] *)
Definition currentView (viewStack : list View) : option View := last viewStack.

(** [navigateTo(view)], as the updater of [setViewStack]. *)
Definition navigateTo (view : View) (prev : list View) : list View := prev ++ [view].

(** [prev.slice(0, -1)] *)
Definition slice_to_last (prev : list View) : list View :=
  take (length prev - 1) prev.

(** [goBack()]: the guard reads [viewStack], the stack of the render whose
    handler is running, and the updater receives [prev], the state at the
    time it is applied. *)
Definition goBack (viewStack prev : list View) : list View :=
  if (1 <? length viewStack)%nat then slice_to_last prev else prev.

(** What the user does, each action handled by the render of the stack it
    finds. *)
Inductive Action :=
  | Navigate (view : View)
  | Back
  | Home.

Definition act (viewStack : list View) (a : Action) : list View :=
  match a with
  | Navigate view => navigateTo view viewStack
  | Back => goBack viewStack viewStack
  | Home => initialStack
  end.

Definition session (actions : list Action) : list View :=
  foldl act initialStack actions.

End Views.

(* ===================================================================== *)
(** * Properties *)
(* ===================================================================== *)

(** ** escapeHtml *)

Module AlumniSearchFacts.
Import AlumniSearch.

Lemma append_cons a s t : String a s +:+ t = String a (s +:+ t).
Proof. reflexivity. Qed.

Lemma append_assoc s1 s2 s3 : (s1 +:+ s2) +:+ s3 = s1 +:+ s2 +:+ s3.
Proof.
  induction s1 as [|a s1 IH]; [done|].
  rewrite !append_cons. by f_equal.
Qed.

Lemma replaceAll_app c ent s1 s2 :
  replaceAll c ent (s1 +:+ s2) = replaceAll c ent s1 +:+ replaceAll c ent s2.
Proof.
  induction s1 as [|a s1 IH]; [done|].
  rewrite append_cons. simpl. destruct (Ascii.eqb a c); rewrite IH.
  - by rewrite append_assoc.
  - by rewrite append_cons.
Qed.

Lemma passes_cons a s : passes (String a s) = entity a +:+ passes s.
Proof.
  unfold passes, entity. simpl replaceAll at 5.
  destruct (Ascii.eqb a "&") eqn:E1.
  { rewrite !replaceAll_app. done. }
  simpl replaceAll at 4. destruct (Ascii.eqb a "<") eqn:E2.
  { rewrite !replaceAll_app. done. }
  simpl replaceAll at 3. destruct (Ascii.eqb a ">") eqn:E3.
  { rewrite !replaceAll_app. done. }
  simpl replaceAll at 2. destruct (Ascii.eqb a dquote) eqn:E4.
  { rewrite !replaceAll_app. done. }
  simpl replaceAll at 1. destruct (Ascii.eqb a "'") eqn:E5; done.
Qed.

(** Replacing one pattern after the other is replacing every metacharacter
    by its own entity: no pass rewrites what an earlier pass produced. *)
Lemma passes_escapeEach s : passes s = escapeEach s.
Proof.
  induction s as [|a s IH]; [done|].
  by rewrite passes_cons, IH.
Qed.

Lemma list_ascii_app s1 s2 :
  list_ascii_of_string (s1 +:+ s2)
  = (list_ascii_of_string s1 ++ list_ascii_of_string s2)%list.
Proof. induction s1 as [|a s1 IH]; simpl; [done|by rewrite IH]. Qed.

Lemma safe_entity a : safe (entity a).
Proof.
  unfold entity, safe.
  destruct (Ascii.eqb a "&") eqn:E1.
  { repeat constructor; done. }
  destruct (Ascii.eqb a "<") eqn:E2.
  { repeat constructor; done. }
  destruct (Ascii.eqb a ">") eqn:E3.
  { repeat constructor; done. }
  destruct (Ascii.eqb a dquote) eqn:E4.
  { repeat constructor; done. }
  destruct (Ascii.eqb a "'") eqn:E5.
  { repeat constructor; done. }
  apply Ascii.eqb_neq in E2, E3, E4, E5.
  repeat constructor; done.
Qed.

Lemma safe_escapeEach s : safe (escapeEach s).
Proof.
  induction s as [|a s IH]; simpl.
  - constructor.
  - unfold safe. rewrite list_ascii_app. apply Forall_app. split; [apply safe_entity|done].
Qed.

Lemma escapeHtml_returns (str : Arg) :
  escapeHtml str
  = if arg_not str && negb (arg_is_zero str) then Returned ""
    else match arg_String str with
         | Returned s => Returned (escapeEach s)
         | Thrown e => Thrown e
         end.
Proof.
  unfold escapeHtml. destruct (arg_not str && negb (arg_is_zero str)); [done|].
  destruct (arg_String str) as [s|e]; [|done]. by rewrite passes_escapeEach.
Qed.

Lemma escapeHtml_returned_safe (str : Arg) (out : string) :
  escapeHtml str = Returned out → safe out.
Proof.
  rewrite escapeHtml_returns.
  destruct (arg_not str && negb (arg_is_zero str)).
  - intros [= <-]. constructor.
  - destruct (arg_String str) as [s|e]; [|done]. intros [= <-]. apply safe_escapeEach.
Qed.

(** C9 (amended).  Whatever the argument is, [escapeHtml] depends on three
    readings of it: [!str], [str === 0] and [String(str)].  A falsy argument
    other than the number 0 gives the empty string.  For any other
    argument, when [String(str)] returns, [escapeHtml] returns that string
    with every occurrence of the five metacharacters replaced by its
    entity, and when [String(str)] throws, [escapeHtml] throws the same
    exception.  A string that [escapeHtml] returns has no '<', '>', double
    quote or single quote.  [null], [undefined], the empty string, [false]
    and [NaN] give the empty string; the number 0 gives "0". *)
Theorem escapeHtml_spec (str : Arg) :
  escapeHtml str
  = (if arg_not str && negb (arg_is_zero str) then Returned ""
     else match arg_String str with
          | Returned s => Returned (escapeEach s)
          | Thrown e => Thrown e
          end)
  ∧ (∀ out, escapeHtml str = Returned out → safe out)
  ∧ escapeHtml (of_value JNull) = Returned ""
  ∧ escapeHtml (of_value JUndefined) = Returned ""
  ∧ escapeHtml (of_value (JStr "")) = Returned ""
  ∧ escapeHtml (of_value (JBool false)) = Returned ""
  ∧ escapeHtml (of_value JNaN) = Returned ""
  ∧ escapeHtml (of_value (JNum 0)) = Returned "0".
Proof.
  split; [apply escapeHtml_returns|].
  split; [apply escapeHtml_returned_safe|].
  by repeat split.
Qed.

(** C9 as stated fails: [JSON.parse] can produce an object with a property
    [toString] of its own; [String] throws on it, and [escapeHtml] with it,
    where the claim promises a string for every input. *)
Lemma escapeHtml_throws :
  StringOf (JObj {["toString" := JNum 1]}) = Thrown cannot_convert
  ∧ escapeHtml (of_value (JObj {["toString" := JNum 1]})) = Thrown cannot_convert.
Proof. split; reflexivity. Qed.

Example escapeHtml_markup :
  escapeHtml (of_value (JStr "<a href='x'>R&D</a>"))
  = Returned "&lt;a href=&#039;x&#039;&gt;R&amp;D&lt;/a&gt;".
Proof. reflexivity. Qed.

End AlumniSearchFacts.

(** ** request *)

Module ApiFacts.
Import Api.












Example request_delays :
  delays (request (λ _, FetchRejected Samples.failed_to_fetch)).2 = [500; 1000].
Proof. reflexivity. Qed.

End ApiFacts.

(** ** normalizeUrl *)

Module JobSearchFacts.
Import JobSearch.

Lemma delete_all_filter (names : list string) (params : list (string * string)) :
  foldl (λ ps p, params_delete p ps) params names
  = filter (λ kv, kv.1 ∉ names) params.
Proof.
  revert params. induction names as [|p names IH]; intros params; simpl.
  - induction params as [|kv params IHp]; [done|].
    rewrite filter_cons_True by set_solver. by f_equal.
  - rewrite IH. unfold params_delete. rewrite list_filter_filter.
    apply list_filter_iff. intros kv. rewrite not_elem_of_cons. tauto.
Qed.

(** C10. [normalizeUrl] returns its argument when the platform cannot parse
    it; otherwise it returns the serialization of the same URL (scheme,
    credentials, host and path as parsed) with an empty fragment and with
    the query pairs named [utm_source], [utm_medium], [utm_campaign],
    [utm_term], [utm_content], [fbclid] or [gclid] removed, every other pair
    kept with its value and in its place: a pair is in the result exactly
    when it was in the query under another name than these seven. *)
Theorem normalizeUrl_spec (parse : string → option URL) (serialize : URL → string)
    (raw : string) :
  match parse raw with
  | None => normalizeUrl parse serialize raw = raw
  | Some u =>
      ∃ u', normalizeUrl parse serialize raw = serialize u'
            ∧ protocol u' = protocol u ∧ username u' = username u
            ∧ password u' = password u ∧ host u' = host u
            ∧ pathname u' = pathname u
            ∧ hash u' = ""
            ∧ searchParams u'
              = filter (λ kv, kv.1 ∉ ["utm_source"; "utm_medium"; "utm_campaign";
                                      "utm_term"; "utm_content"; "fbclid"; "gclid"])
                  (searchParams u)
            ∧ (∀ name value,
                 (name, value) ∈ searchParams u'
                 ↔ (name, value) ∈ searchParams u
                   ∧ name ≠ "utm_source" ∧ name ≠ "utm_medium"
                   ∧ name ≠ "utm_campaign" ∧ name ≠ "utm_term"
                   ∧ name ≠ "utm_content" ∧ name ≠ "fbclid" ∧ name ≠ "gclid")
  end.
Proof.
  unfold normalizeUrl. destruct (parse raw) as [u|]; [|done].
  eexists. split; [reflexivity|].
  cbn [protocol username password host pathname hash searchParams].
  do 6 (split; [reflexivity|]).
  split; [exact (delete_all_filter tracking_params (searchParams u))|].
  intros name value.
  rewrite (delete_all_filter tracking_params (searchParams u)).
  rewrite list_elem_of_filter. unfold tracking_params. cbn [fst].
  rewrite !not_elem_of_cons. split.
  - intros [(H1 & H2 & H3 & H4 & H5 & H6 & H7 & _) Hin]. done.
  - intros (Hin & H1 & H2 & H3 & H4 & H5 & H6 & H7).
    split; [|done]. repeat split; try done. apply not_elem_of_nil.
Qed.

Example normalizeUrl_tracked :
  normalizeUrl Samples.toy_parse Samples.toy_serialize Samples.tracked_address
  = "https://jobs.example/apply?role=dev".
Proof. reflexivity. Qed.

Example normalizeUrl_unparseable :
  normalizeUrl Samples.toy_parse Samples.toy_serialize "not a url" = "not a url".
Proof. reflexivity. Qed.

End JobSearchFacts.

(** ** The reconciliation layer *)

Module AppFacts.
Import App.

(** *** The seed merge *)

Lemma mergeEntries_union {V} (fallback current : gmap string V) :
  mergeEntries fallback current = current ∪ fallback.
Proof.
  unfold mergeEntries.
  apply (map_fold_weak_ind (λ r m, r = current ∪ m)).
  - by rewrite (right_id_L ∅ (∪)).
  - intros k v m r Hm ->.
    rewrite lookup_union, Hm, (right_id_L None union).
    destruct (current !! k) as [w|] eqn:Hk.
    + apply map_eq. intros j. rewrite !lookup_union.
      destruct (decide (j = k)) as [->|Hne].
      * by rewrite Hk, Hm, lookup_insert_eq.
      * by rewrite lookup_insert_ne.
    + by rewrite insert_union_r.
Qed.

Lemma mergeEntries_lookup {V} (fallback current : gmap string V) k :
  mergeEntries fallback current !! k
  = match current !! k with
    | Some v => Some v
    | None => fallback !! k
    end.
Proof.
  rewrite mergeEntries_union, lookup_union.
  destruct (current !! k), (fallback !! k); done.
Qed.

Lemma push_missing (ids : gset string) (fb acc : list Department) :
  foldl (λ (acc : list Department) d,
           if decide (dept_id d ∈ ids) then acc else (acc ++ [d])%list) acc fb
  = (acc ++ filter (λ d, dept_id d ∉ ids) fb)%list.
Proof.
  revert acc. induction fb as [|d fb IH]; intros acc; simpl.
  - by rewrite app_nil_r.
  - rewrite IH. destruct (decide (dept_id d ∈ ids)) as [Hin|Hout].
    + by rewrite filter_cons_False by (intros ?; done).
    + rewrite filter_cons_True by done. by rewrite <- app_assoc.
Qed.

Lemma mergeDepartments_app (fb loaded : list Department) :
  mergeDepartments fb loaded
  = (loaded ++ filter (λ d, dept_id d ∉ dept_id <$> loaded) fb)%list.
Proof.
  unfold mergeDepartments. rewrite push_missing. f_equal.
  apply list_filter_iff. intros d. by rewrite elem_of_list_to_set.
Qed.

Lemma mergeDepartments_ids (fb loaded : list Department) d :
  d ∈ fb → dept_id d ∈ dept_id <$> mergeDepartments fb loaded.
Proof.
  intros Hd. rewrite mergeDepartments_app, fmap_app, elem_of_app.
  destruct (decide (dept_id d ∈ dept_id <$> loaded)) as [|Hout]; [by left|right].
  apply list_elem_of_fmap. exists d. split; [done|].
  by apply list_elem_of_filter.
Qed.

Lemma filter_none {A} (P : A → Prop) `{∀ x, Decision (P x)} (l : list A) :
  (∀ x, x ∈ l → ¬ P x) → filter P l = [].
Proof.
  induction l as [|x l IH]; intros Hl; [done|].
  rewrite filter_cons_False by (apply Hl; left).
  apply IH. intros y Hy. apply Hl. by right.
Qed.

Lemma mergeDepartments_idem (fb loaded : list Department) :
  mergeDepartments fb (mergeDepartments fb loaded) = mergeDepartments fb loaded.
Proof.
  rewrite (mergeDepartments_app fb (mergeDepartments fb loaded)).
  rewrite filter_none; [by rewrite app_nil_r|].
  intros d Hd Hout. apply Hout. by apply mergeDepartments_ids.
Qed.

Lemma mergeEntries_idem {V} (fallback current : gmap string V) :
  mergeEntries fallback (mergeEntries fallback current) = mergeEntries fallback current.
Proof.
  rewrite !mergeEntries_union. by rewrite <- (assoc_L (∪)), (idemp_L (∪)).
Qed.

Lemma mergeInto_idem (fb d : AppData) : mergeInto fb (mergeInto fb d) = mergeInto fb d.
Proof.
  unfold mergeInto. simpl.
  by rewrite mergeDepartments_idem, !mergeEntries_idem.
Qed.

(** Merging the seed into itself changes nothing: the case where
    [loadedData] and [fallbackData] are the same object. *)
Lemma mergeInto_self (fb : AppData) : mergeInto fb fb = fb.
Proof.
  destruct fb as [ds bs ps n]. unfold mergeInto. simpl.
  rewrite !mergeEntries_union, !(idemp_L (∪)). f_equal.
  rewrite mergeDepartments_app, filter_none; [by rewrite app_nil_r|].
  intros d Hd Hout. apply Hout. apply list_elem_of_fmap. by exists d.
Qed.

Lemma mergeDepartments_keeps (fb loaded : list Department) id :
  id ∈ dept_id <$> loaded →
  with_id id (mergeDepartments fb loaded) = with_id id loaded.
Proof.
  intros Hid. unfold with_id. rewrite mergeDepartments_app, filter_app.
  rewrite list_filter_filter.
  rewrite (filter_none _ fb); [by rewrite app_nil_r|].
  intros d _ [<- Hout]. done.
Qed.

Lemma mergeDepartments_adds (fb loaded : list Department) d :
  d ∈ fb → dept_id d ∉ dept_id <$> loaded → d ∈ mergeDepartments fb loaded.
Proof.
  intros Hd Hout. rewrite mergeDepartments_app, elem_of_app. right.
  by apply list_elem_of_filter.
Qed.

(** *** loadData *)

(** The seed has a department, a branch and nineteen professors. *)
Lemma seed_is_populated :
  dept_id <$> departments fallbackData = ["dept_ece"]
  ∧ dom (branches fallbackData) = {["branch_ece"]}
  ∧ size (professors fallbackData) = 19%nat.
Proof. split; [reflexivity|]. split; by vm_compute. Qed.

Lemma loadData_well_formed fetch st status base :
  chooseBase fetch (localStorage st) = (status, Some (payload_of base)) →
  loadData fetch st
  = Done (setLoading false
            (setData (Some (mergeInto fallbackData base))
               (setApiStatus status (setLoading true st)))).
Proof.
  intros Hbase. unfold loadData. simpl. rewrite Hbase. simpl.
  by destruct base.
Qed.

Lemma payload_of_inj d1 d2 : payload_of d1 = payload_of d2 → d1 = d2.
Proof. destruct d1, d2. unfold payload_of. cbn. by intros [= -> -> -> ->]. Qed.

(** The base is the server's answer, the cached aggregate, or the seed. *)
Lemma chooseBase_sources fetchMockData ls status base :
  chooseBase fetchMockData ls = (status, Some (payload_of base)) →
  (fetchMockData = Returned (Some (payload_of base)) ∧ status = connected)
  ∨ (loadLocalData ls = Some (payload_of base) ∧ status = offline)
  ∨ (loadLocalData ls = None ∧ base = fallbackData ∧ status = offline).
Proof.
  unfold chooseBase.
  assert (Hcache :
    (offline, Some (match loadLocalData ls with
                    | Some local => local
                    | None => payload_of fallbackData
                    end)) = (status, Some (payload_of base)) →
    (loadLocalData ls = Some (payload_of base) ∧ status = offline)
    ∨ (loadLocalData ls = None ∧ base = fallbackData ∧ status = offline)).
  { intros H.
    pose proof (f_equal fst H) as Hstatus. pose proof (f_equal snd H) as Hbase.
    cbn [fst snd] in Hstatus, Hbase. apply (inj Some) in Hbase.
    destruct (loadLocalData ls) as [local|].
    - left. by rewrite Hbase.
    - right. apply payload_of_inj in Hbase. by rewrite Hbase. }
  destruct fetchMockData as [serverData|e]; [|intros H; right; by apply Hcache].
  destruct (validServerData serverData); [|intros H; right; by apply Hcache].
  intros H.
  pose proof (f_equal fst H) as Hstatus. pose proof (f_equal snd H) as Hbase.
  cbn [fst snd] in Hstatus, Hbase. left. by rewrite Hbase.
Qed.

(** C1. Whatever base [loadData] picked (the server's answer, the cached
    aggregate or the seed itself), the aggregate it stores contains every
    professor, branch and department of the seed whose identifier the base
    lacks, with the seed's own value, and every entry of the base is kept as
    it was: a seed entry never replaces one. *)
Theorem seed_merge_first_writer_wins
    (fetchMockData : Outcome (option Payload)) (st : AppState)
    (status : ApiStatus) (base : AppData) :
  chooseBase fetchMockData (localStorage st) = (status, Some (payload_of base)) →
  ∃ st' merged,
    loadData fetchMockData st = Done st' ∧ data st' = Some merged
    ∧ ((fetchMockData = Returned (Some (payload_of base)) ∧ status = connected)
       ∨ (loadLocalData (localStorage st) = Some (payload_of base) ∧ status = offline)
       ∨ (loadLocalData (localStorage st) = None ∧ base = fallbackData
          ∧ status = offline))
    ∧ (∀ k v, professors fallbackData !! k = Some v → professors base !! k = None →
              professors merged !! k = Some v)
    ∧ (∀ k v, professors base !! k = Some v → professors merged !! k = Some v)
    ∧ (∀ k v, branches fallbackData !! k = Some v → branches base !! k = None →
              branches merged !! k = Some v)
    ∧ (∀ k v, branches base !! k = Some v → branches merged !! k = Some v)
    ∧ (∀ d, d ∈ departments fallbackData → dept_id d ∉ dept_id <$> departments base →
            d ∈ departments merged)
    ∧ (∀ id, id ∈ dept_id <$> departments base →
             with_id id (departments merged) = with_id id (departments base))
    ∧ departments base `prefix_of` departments merged.
Proof.
  intros Hbase. eexists _, (mergeInto fallbackData base).
  split; [by apply loadData_well_formed|]. split; [done|].
  split; [by apply chooseBase_sources|].
  unfold mergeInto; cbn [professors branches departments].
  refine (conj _ (conj _ (conj _ (conj _ (conj _ (conj _ _)))))).
  - intros k v Hfb Hk. rewrite mergeEntries_lookup, Hk. exact Hfb.
  - intros k v Hk. rewrite mergeEntries_lookup, Hk. reflexivity.
  - intros k v Hfb Hk. rewrite mergeEntries_lookup, Hk. exact Hfb.
  - intros k v Hk. rewrite mergeEntries_lookup, Hk. reflexivity.
  - intros d Hd Hout. apply mergeDepartments_adds; assumption.
  - intros id Hid. apply mergeDepartments_keeps; assumption.
  - rewrite mergeDepartments_app. apply prefix_app_r. reflexivity.
Qed.

(** The server holds its own record under [prof_ece_1] and none under
    [prof_ece_2]. *)
Lemma seed_merge_first_writer_wins_witness :
  ∃ st' merged,
    loadData (Returned (Some (payload_of Samples.remote_base))) Samples.st0 = Done st'
    ∧ data st' = Some merged
    ∧ professors merged !! "prof_ece_1" = Some Samples.server_copy
    ∧ professors merged !! "prof_ece_2" = Some prof_ece_2.
Proof.
  destruct (seed_merge_first_writer_wins
              (Returned (Some (payload_of Samples.remote_base))) Samples.st0
              connected Samples.remote_base)
    as (st' & merged & Hload & Hdata & _ & Hadd & Hkeep & _).
  - reflexivity.
  - exists st', merged. split; [exact Hload|]. split; [exact Hdata|]. split.
    + apply Hkeep. reflexivity.
    + apply Hadd; reflexivity.
Defined.

Lemma mergeEntries_absorb {V} (f : V → V) (fallback current : gmap string V) :
  mergeEntries fallback (f <$> mergeEntries fallback current)
  = f <$> mergeEntries fallback current.
Proof.
  apply map_eq. intros k.
  rewrite mergeEntries_lookup, lookup_fmap, mergeEntries_lookup.
  destruct (current !! k), (fallback !! k); done.
Qed.

Lemma loadLocalData_saved (d : AppData) (items : gmap string Blob) :
  loadLocalData (saveLocalData d {| ls_items := items; ls_readable := true;
                                     ls_writable := true |})
  = Some (stringify d).
Proof.
  unfold loadLocalData, saveLocalData. cbn [ls_writable ls_readable ls_items].
  by rewrite lookup_insert_eq.
Qed.

(** C7. Merging the seed twice is merging it once: the department list, the
    branch map and the professor map are the same; and a load that falls
    back to a cache holding an already merged aggregate returns its
    departments and branches as they are and its professors as JSON read
    them back, with no entry added. *)
Theorem seed_merge_idempotent (fb d : AppData) (e : JsError) (st : AppState)
    (items : gmap string Blob) :
  mergeInto fb (mergeInto fb d) = mergeInto fb d
  ∧ (let merged := mergeInto fallbackData d in
     let cache := saveLocalData merged {| ls_items := items; ls_readable := true;
                                          ls_writable := true |} in
     ∃ st' again,
       loadData (Thrown e) (withStorage cache st) = Done st'
       ∧ data st' = Some again
       ∧ departments again = departments merged
       ∧ branches again = branches merged
       ∧ professors again = jsonObj <$> professors merged).
Proof.
  split; [apply mergeInto_idem|].
  intros merged cache.
  unfold loadData, chooseBase.
  cbn [localStorage setLoading withStorage].
  unfold cache. rewrite (loadLocalData_saved merged items).
  unfold mergeFallback, stringify. cbn [p_departments p_professors p_branches p_news].
  eexists _, _. split; [reflexivity|]. split; [reflexivity|].
  unfold merged, mergeInto. cbn [departments branches professors].
  split; [apply mergeDepartments_idem|]. split; [apply mergeEntries_idem|].
  apply mergeEntries_absorb.
Qed.

Example load_seed_only :
  ∃ st, loadData (Thrown Samples.failed_to_fetch) Samples.st0 = Done st
        ∧ data st = Some fallbackData ∧ apiStatus st = offline.
Proof.
  eexists. split; [|split].
  - unfold loadData, chooseBase. cbn [localStorage setLoading Samples.st0].
    change (loadLocalData Samples.empty_store) with (@None Payload).
    unfold mergeFallback, payload_of.
    cbn [p_departments p_professors p_branches p_news].
    replace {| departments := departments fallbackData; branches := branches fallbackData;
               professors := professors fallbackData; news := news fallbackData |}
      with fallbackData by reflexivity.
    rewrite mergeInto_self. reflexivity.
  - reflexivity.
  - reflexivity.
Qed.

(** C2 at its failing input.  The server answers with an object that has a
    [departments] list and no [professors]: the answer passes the validity
    test, connectivity becomes "connected", and the professor merge reads a
    property of [undefined]; [loadData] ends by a [TypeError], before
    [setData] and [setLoading(false)]. *)
Theorem loadData_throws_without_professors (st : AppState) :
  loadData (Returned (Some Samples.departments_only)) st
  = Raised undefined_deref (setApiStatus connected (setLoading true st)).
Proof. reflexivity. Qed.

(** The same aggregate in the cache, with the server unreachable. *)
Example loadData_throws_on_cached :
  let cache := {| ls_items := {[LOCAL_STORAGE_KEY := BlobJson (Some Samples.departments_only)]};
                  ls_readable := true; ls_writable := true |} in
  ∃ st, loadData (Thrown Samples.failed_to_fetch) (withStorage cache Samples.st0)
        = Raised undefined_deref st.
Proof. eexists. reflexivity. Qed.

(** On a base that has its three collections [loadData] completes, and the
    professor map it stores holds every professor of the seed's identifiers. *)
Lemma loadData_not_empty fetchMockData st status base :
  chooseBase fetchMockData (localStorage st) = (status, Some (payload_of base)) →
  ∃ st' merged,
    loadData fetchMockData st = Done st' ∧ data st' = Some merged
    ∧ is_Some (professors merged !! "prof_ece_1").
Proof.
  intros Hbase. eexists _, _.
  split; [by apply loadData_well_formed|]. split; [reflexivity|].
  unfold mergeInto. cbn [professors]. rewrite mergeEntries_lookup.
  destruct (professors base !! "prof_ece_1"); [by eexists|].
  eexists. reflexivity.
Qed.

(** *** Saving *)

Lemma saveLocalData_twice d ls : saveLocalData d (saveLocalData d ls) = saveLocalData d ls.
Proof.
  unfold saveLocalData. destruct (ls_writable ls) eqn:Hw; cbn [ls_writable ls_items ls_readable].
  - by rewrite insert_insert_eq.
  - by rewrite Hw.
Qed.

Lemma saveLocalData_writable d ls :
  ls_writable ls = true →
  ls_items (saveLocalData d ls) !! LOCAL_STORAGE_KEY = Some (BlobJson (Some (stringify d))).
Proof. intros Hw. unfold saveLocalData. rewrite Hw. apply lookup_insert_eq. Qed.

Lemma saveLocalData_other d ls k :
  k ≠ LOCAL_STORAGE_KEY → ls_items (saveLocalData d ls) !! k = ls_items ls !! k.
Proof.
  intros Hk. unfold saveLocalData. destruct (ls_writable ls); [|done].
  by apply lookup_insert_ne.
Qed.

Lemma handleDataUpdate_some updater st cur :
  data st = Some cur →
  handleDataUpdate updater st
  = withStorage (saveLocalData (updater cur (localStorage st)).1
                   (updater cur (localStorage st)).2)
      (setData (Some (updater cur (localStorage st)).1) st).
Proof.
  intros Hd. unfold handleDataUpdate. rewrite Hd.
  by destruct (updater cur (localStorage st)).
Qed.

(** *** Failure of the Remote Store in Add and Remove *)

(** C4. When the Remote Store call of Add Professor, Remove Professor or
    Remove Department fails, the aggregate in memory and the Local Cache are
    what they were, and one failure notice is shown. *)
Theorem no_offline_fallback :
  (∀ form now updateProfessor st d department e,
     data st = Some d →
     findDepartment d (add_departmentId form) = Some department →
     updateProfessor (addPayload d department form now) = Thrown e →
     let st' := handleAddProfessor form now updateProfessor st in
     data st' = data st ∧ localStorage st' = localStorage st
     ∧ toasts st' = toasts st ++ ["Failed to save professor."])
  ∧ (∀ profId deleteProfessor st e,
       deleteProfessor profId = Thrown e →
       let st' := handleRemoveProfessor profId true deleteProfessor st in
       data st' = data st ∧ localStorage st' = localStorage st
       ∧ toasts st' = toasts st ++ ["Error removing professor."])
  ∧ (∀ deptId deleteDepartment fetchMockData st,
       (∃ e, deleteDepartment deptId = Thrown e) ∨ (∃ e, fetchMockData = Thrown e) →
       let st' := handleRemoveDepartment deptId true deleteDepartment fetchMockData st in
       data st' = data st ∧ localStorage st' = localStorage st
       ∧ toasts st' = toasts st ++ ["Error removing department."]).
Proof.
  split; [|split].
  - intros form now updateProfessor st d department e Hd Hdep Hfail.
    unfold handleAddProfessor. rewrite Hd, Hdep, Hfail. done.
  - intros profId deleteProfessor st e Hfail.
    unfold handleRemoveProfessor. cbn [negb]. rewrite Hfail. done.
  - intros deptId deleteDepartment fetchMockData st H.
    unfold handleRemoveDepartment. cbn [negb].
    destruct (deleteDepartment deptId) as [?|?]; [|done].
    destruct H as [[e He]|[e ->]]; done.
Qed.

(** *** The record written by the fallback of Edit *)

Lemma routed_branch branchId department o :
  routed branchId department o !! "branch" = Some (JStr branchId).
Proof.
  unfold routed. rewrite lookup_insert_ne by done. rewrite lookup_insert_ne by done.
  apply lookup_insert_eq.
Qed.

Lemma routed_departmentId branchId department o :
  routed branchId department o !! "departmentId" = Some (JStr (dept_id department)).
Proof. unfold routed. rewrite lookup_insert_ne by done. apply lookup_insert_eq. Qed.

Lemma routed_departmentName branchId department o :
  routed branchId department o !! "departmentName" = Some (JStr (dept_name department)).
Proof. unfold routed. apply lookup_insert_eq. Qed.

Lemma routed_other branchId department o f :
  f ≠ "branch" → f ≠ "departmentId" → f ≠ "departmentName" →
  routed branchId department o !! f = o !! f.
Proof. intros. unfold routed. by rewrite !lookup_insert_ne by done. Qed.

Lemma localKey_given id later : id ≠ "" → localKey id later = id.
Proof.
  intros Hid. unfold localKey. destruct (String.eqb id "") eqn:E; [|done].
  by apply String.eqb_eq in E.
Qed.

Lemma handleEditProfessor_offline form now later updateProfessor st d department e :
  data st = Some d →
  findDepartment d (edit_departmentId form) = Some department →
  updateProfessor (editPayload d department form now) = Thrown e →
  let existing := existingBranchEdit d department (edit_branchName form) in
  let updater := editFallbackUpdater department (resolvedBranchId existing now)
                   (edit_branchName form) (negb (bool_decide (is_Some existing)))
                   (edit_id form) (rest form) later in
  let d' := (updater d (localStorage st)).1 in
  handleEditProfessor form now later updateProfessor st
  = setEditingProfessor None
      (setActiveModal None
         (showToast "Professor updated locally (offline)."
            (withStorage (saveLocalData d' (localStorage st))
               (setData (Some d') (setApiStatus offline st))))).
Proof.
  intros Hd Hdep Hfail existing updater d'.
  unfold handleEditProfessor. rewrite Hd, Hdep, Hfail.
  rewrite (handleDataUpdate_some _ _ d) by done.
  fold existing. fold updater. cbn [localStorage setApiStatus].
  replace (updater d (localStorage st)).2 with (saveLocalData d' (localStorage st)) by done.
  fold d'. by rewrite saveLocalData_twice.
Qed.

(** C3. When the Remote Store call of Edit fails, the professor map in
    memory holds, under the record's identifier (or under [local_<clock>]
    when it has none), the submitted fields with the resolved routing
    fields; every other professor is untouched; connectivity is "offline";
    and the updated aggregate is saved to the Local Cache, which holds it
    under the fixed key whenever the store accepts the write. *)
Theorem edit_offline_write form now later updateProfessor st d department e :
  data st = Some d →
  findDepartment d (edit_departmentId form) = Some department →
  updateProfessor (editPayload d department form now) = Thrown e →
  let st' := handleEditProfessor form now later updateProfessor st in
  let key := localKey (edit_id form) later in
  let branchId :=
    resolvedBranchId (existingBranchEdit d department (edit_branchName form)) now in
  ∃ d' record,
    data st' = Some d'
    ∧ professors d' !! key = Some record
    ∧ (edit_id form ≠ "" → key = edit_id form)
    ∧ (edit_id form = "" → key = stamp "local_" later)
    ∧ record !! "id" = Some (JStr key)
    ∧ record !! "branch" = Some (JStr branchId)
    ∧ record !! "departmentId" = Some (JStr (dept_id department))
    ∧ record !! "departmentName" = Some (JStr (dept_name department))
    ∧ (∀ f, f ∉ ["id"; "branch"; "departmentId"; "departmentName"] →
            record !! f = rest form !! f)
    ∧ (∀ k, k ≠ key → professors d' !! k = professors d !! k)
    ∧ apiStatus st' = offline
    ∧ localStorage st' = saveLocalData d' (localStorage st)
    ∧ (ls_writable (localStorage st) = true →
       ls_items (localStorage st') !! LOCAL_STORAGE_KEY
       = Some (BlobJson (Some (stringify d')))).
Proof.
  intros Hd Hdep Hfail st' key branchId.
  unfold st'. rewrite (handleEditProfessor_offline _ _ _ _ _ _ _ _ Hd Hdep Hfail).
  fold branchId.
  cbn [data apiStatus localStorage setEditingProfessor setActiveModal showToast
       withStorage setData setApiStatus].
  eexists _, (localRecord (rest form) key branchId department).
  split; [reflexivity|].
  split.
  { unfold editFallbackUpdater. cbn [fst professors withProfessors].
    fold key. apply lookup_insert_eq. }
  split; [apply localKey_given|].
  split; [intros Hid; unfold key; by rewrite Hid|].
  unfold localRecord.
  split; [rewrite routed_other by done; apply lookup_insert_eq|].
  split; [apply routed_branch|].
  split; [apply routed_departmentId|].
  split; [apply routed_departmentName|].
  split.
  { intros f Hf. rewrite !not_elem_of_cons in Hf. destruct Hf as (? & ? & ? & ? & _).
    rewrite routed_other by done. by rewrite lookup_insert_ne. }
  split.
  { intros k Hk. unfold editFallbackUpdater. cbn [fst professors withProfessors].
    fold key. rewrite lookup_insert_ne by done.
    by destruct (negb _). }
  split; [reflexivity|]. split; [reflexivity|].
  apply saveLocalData_writable.
Qed.

(** *** Branch resolution *)













(** *** Saving after a mutation *)

Lemma loadData_storage fetchMockData st st' :
  loadData fetchMockData st = Done st' → localStorage st' = localStorage st.
Proof.
  unfold loadData.
  destruct (chooseBase fetchMockData (localStorage (setLoading true st))) as [status [p|]].
  - destruct (mergeFallback p); [|done]. by intros [= <-].
  - by intros [= <-].
Qed.

Lemma handleRemoveDepartment_storage deptId confirmed deleteDepartment fetchMockData st :
  localStorage (handleRemoveDepartment deptId confirmed deleteDepartment fetchMockData st)
  = localStorage st.
Proof.
  unfold handleRemoveDepartment.
  destruct (negb confirmed); [done|].
  destruct (deleteDepartment deptId); [|done]. by destruct fetchMockData.
Qed.

(** C6 (amended).  Every mutation made through [handleDataUpdate] saves the
    updated aggregate: Add and Edit after the Remote Store accepted, Edit in
    its offline fallback, and Remove Professor leave in the Local Cache
    what [saveLocalData] makes of the new aggregate, which is that
    aggregate under the one key "career-booster-data" whenever the store
    accepts the write, every other key being untouched.  Remove Department
    and [loadData] replace the aggregate in memory without touching the
    Local Cache. *)
Theorem mutations_are_saved :
  (∀ updater st cur,
     data st = Some cur →
     let st' := handleDataUpdate updater st in
     let newData := (updater cur (localStorage st)).1 in
     data st' = Some newData
     ∧ localStorage st' = saveLocalData newData (updater cur (localStorage st)).2)
  ∧ (∀ form now updateProfessor st d department savedProf,
       data st = Some d →
       findDepartment d (add_departmentId form) = Some department →
       updateProfessor (addPayload d department form now) = Returned savedProf →
       let st' := handleAddProfessor form now updateProfessor st in
       ∃ d', data st' = Some d'
             ∧ is_Some (professors d' !! ToString (get savedProf "_id"))
             ∧ localStorage st' = saveLocalData d' (localStorage st))
  ∧ (∀ profId deleteProfessor st d v,
       data st = Some d →
       deleteProfessor profId = Returned v →
       let st' := handleRemoveProfessor profId true deleteProfessor st in
       ∃ d', data st' = Some d'
             ∧ professors d' = delete profId (professors d)
             ∧ localStorage st' = saveLocalData d' (localStorage st))
  ∧ (∀ form now later updateProfessor st d department,
       data st = Some d →
       findDepartment d (edit_departmentId form) = Some department →
       let st' := handleEditProfessor form now later updateProfessor st in
       ∃ d', data st' = Some d'
             ∧ localStorage st' = saveLocalData d' (localStorage st))
  ∧ (∀ d ls,
       ls_writable ls = true →
       ls_items (saveLocalData d ls) !! LOCAL_STORAGE_KEY
       = Some (BlobJson (Some (stringify d)))
       ∧ ∀ k, k ≠ LOCAL_STORAGE_KEY → ls_items (saveLocalData d ls) !! k = ls_items ls !! k)
  ∧ (∀ deptId confirmed deleteDepartment fetchMockData st,
       localStorage (handleRemoveDepartment deptId confirmed deleteDepartment
                       fetchMockData st)
       = localStorage st)
  ∧ (∀ fetchMockData st st',
       loadData fetchMockData st = Done st' → localStorage st' = localStorage st).
Proof.
  split; [|split; [|split; [|split; [|split; [|split]]]]].
  - intros updater st cur Hd st' newData. unfold st'.
    by rewrite (handleDataUpdate_some _ _ cur).
  - intros form now updateProfessor st d department savedProf Hd Hdep Hok.
    unfold handleAddProfessor. rewrite Hd, Hdep, Hok.
    rewrite (handleDataUpdate_some _ _ d) by done.
    eexists. split; [reflexivity|]. split; [|reflexivity].
    unfold addUpdater. cbn [fst professors withProfessors].
    rewrite lookup_insert_eq. by eexists.
  - intros profId deleteProfessor st d v Hd Hok.
    unfold handleRemoveProfessor. cbn [negb]. rewrite Hok.
    rewrite (handleDataUpdate_some _ _ d) by done.
    eexists. split; [reflexivity|]. split; reflexivity.
  - intros form now later updateProfessor st d department Hd Hdep.
    unfold handleEditProfessor. rewrite Hd, Hdep.
    destruct (updateProfessor _) as [savedProf|e].
    + rewrite (handleDataUpdate_some _ _ d) by done.
      eexists. split; reflexivity.
    + rewrite (handleDataUpdate_some _ _ d) by done.
      eexists. split; [reflexivity|].
      unfold editFallbackUpdater.
      cbn [localStorage setEditingProfessor setActiveModal showToast withStorage
           setData setApiStatus fst snd].
      apply saveLocalData_twice.
  - intros d ls Hw. split; [by apply saveLocalData_writable|].
    intros k Hk. by apply saveLocalData_other.
  - apply handleRemoveDepartment_storage.
  - apply loadData_storage.
Qed.

(** *** Runs on the sample directory *)

Lemma no_offline_fallback_witness :
  data (handleAddProfessor Samples.add_form Samples.clock Samples.unreachable Samples.st1)
  = Some Samples.remote_base
  ∧ toasts (handleRemoveProfessor "p1" true Samples.unreachable Samples.st1)
    = ["Error removing professor."]
  ∧ data (handleRemoveDepartment "dept_cs" true Samples.unreachable
            (Returned fallbackData) Samples.st1)
    = Some Samples.remote_base.
Proof.
  destruct no_offline_fallback as (Hadd & Hremove & Hdept).
  split; [|split].
  - destruct (Hadd Samples.add_form Samples.clock Samples.unreachable Samples.st1
                Samples.remote_base Samples.dept_cs Samples.failed_to_fetch)
      as (H & _); [reflexivity|reflexivity|reflexivity|exact H].
  - destruct (Hremove "p1" Samples.unreachable Samples.st1 Samples.failed_to_fetch)
      as (_ & _ & H); [reflexivity|exact H].
  - destruct (Hdept "dept_cs" Samples.unreachable (Returned fallbackData) Samples.st1)
      as (H & _); [|exact H].
    left. exists Samples.failed_to_fetch. reflexivity.
Defined.

Lemma edit_offline_write_witness :
  ∃ d' record,
    data (handleEditProfessor Samples.edit_form Samples.clock Samples.clock
            Samples.unreachable Samples.st1) = Some d'
    ∧ professors d' !! "p1" = Some record
    ∧ record !! "name" = Some (JStr "Ada L.")
    ∧ record !! "branch" = Some (JStr "branch_ai")
    ∧ apiStatus (handleEditProfessor Samples.edit_form Samples.clock Samples.clock
                   Samples.unreachable Samples.st1) = offline
    ∧ ls_items (localStorage (handleEditProfessor Samples.edit_form Samples.clock
                                Samples.clock Samples.unreachable Samples.st1))
        !! LOCAL_STORAGE_KEY
      = Some (BlobJson (Some (stringify d'))).
Proof.
  destruct (edit_offline_write Samples.edit_form Samples.clock Samples.clock
              Samples.unreachable Samples.st1 Samples.remote_base Samples.dept_cs
              Samples.failed_to_fetch)
    as (d' & record & Hd & Hrec & _ & _ & _ & Hbranch & _ & _ & Hrest & _ & Hoff & _ & Hls);
    [reflexivity|reflexivity|reflexivity|].
  exists d', record.
  split; [exact Hd|]. split; [exact Hrec|]. split.
  { rewrite Hrest; [reflexivity|].
    repeat (apply not_elem_of_cons; split; [discriminate|]). apply not_elem_of_nil. }
  split; [exact Hbranch|]. split; [exact Hoff|].
  apply Hls. reflexivity.
Defined.



Lemma mutations_are_saved_witness :
  ∃ d', data (handleRemoveProfessor "p1" true (λ _, Returned JNull) Samples.st1) = Some d'
        ∧ professors d' !! "p1" = None
        ∧ ls_items (localStorage (handleRemoveProfessor "p1" true (λ _, Returned JNull)
                                    Samples.st1)) !! LOCAL_STORAGE_KEY
          = Some (BlobJson (Some (stringify d'))).
Proof.
  destruct mutations_are_saved as (_ & _ & Hremove & _ & Hsave & _).
  destruct (Hremove "p1" (λ _, Returned JNull) Samples.st1 Samples.remote_base JNull)
    as (d' & Hd & Hprofs & Hls); [reflexivity|reflexivity|].
  exists d'. split; [exact Hd|]. split.
  - rewrite Hprofs. apply lookup_delete_eq.
  - rewrite Hls. apply Hsave. reflexivity.
Defined.

(** C6 as stated fails: a load and a department removal change the
    aggregate in memory and leave the Local Cache empty. *)
Lemma load_and_remove_department_do_not_save :
  (∃ st' merged,
     loadData (Returned (Some (payload_of Samples.remote_base))) Samples.st0 = Done st'
     ∧ data st' = Some merged
     ∧ ls_writable (localStorage st') = true
     ∧ ls_items (localStorage st') !! LOCAL_STORAGE_KEY = None)
  ∧ (let st' := handleRemoveDepartment "dept_cs" true (λ _, Returned JNull)
                  (Returned fallbackData) Samples.st1 in
     data st' = Some fallbackData
     ∧ ls_writable (localStorage st') = true
     ∧ ls_items (localStorage st') !! LOCAL_STORAGE_KEY = None).
Proof.
  split.
  - eexists _, _. split; [reflexivity|]. split; [reflexivity|]. split; reflexivity.
  - cbv zeta. split; [reflexivity|]. split; reflexivity.
Qed.

End AppFacts.

(** ** More on the reconciliation layer *)

Module AppExtFacts.
Import App AppExt.

(** *** Updates through [handleDataUpdate] *)

Lemma saveLocalData_overwrites d1 d2 ls :
  saveLocalData d2 (saveLocalData d1 ls) = saveLocalData d2 ls.
Proof.
  unfold saveLocalData. destruct (ls_writable ls) eqn:Hw;
    cbn [ls_writable ls_items ls_readable].
  - by rewrite insert_insert_eq.
  - by rewrite Hw.
Qed.

(** X1. Two updates in a row are one update by the composed updater: the
    aggregate in memory and the Local Cache end up the same, the cache
    holding only the later aggregate. *)
Theorem handleDataUpdate_compose (f g : AppData → AppData) (st : AppState) :
  handleDataUpdate (pureUpdater g) (handleDataUpdate (pureUpdater f) st)
  = handleDataUpdate (pureUpdater (g ∘ f)) st.
Proof.
  unfold handleDataUpdate, pureUpdater.
  destruct (data st) as [cur|] eqn:Hd; cbn [data withStorage setData localStorage].
  - cbn. by rewrite saveLocalData_overwrites.
  - by rewrite Hd.
Qed.

Lemma update_some updater st cur :
  data st = Some cur →
  handleDataUpdate updater st
  = withStorage (saveLocalData (updater cur (localStorage st)).1
                   (updater cur (localStorage st)).2)
      (setData (Some (updater cur (localStorage st)).1) st).
Proof.
  intros Hd. unfold handleDataUpdate. rewrite Hd.
  by destruct (updater cur (localStorage st)).
Qed.

(** *** Validation before the network *)

Lemma findDepartment_unknown d departmentId :
  departmentId ∉ dept_id <$> departments d → findDepartment d departmentId = None.
Proof.
  unfold findDepartment. intros Hout.
  destruct (List.find _ _) as [dep|] eqn:Hfind; [|done].
  apply List.find_some in Hfind as [Hin Heq]. apply String.eqb_eq in Heq.
  exfalso. apply Hout. apply list_elem_of_fmap. exists dep.
  split; [done|]. by apply list_elem_of_In.
Qed.

(** X2. When the form names a department the aggregate does not have, Add and
    Edit end with their "department not found" notice and nothing else:
    the result is the same whatever the Remote Store would have answered,
    and the aggregate, the connectivity state and the Local Cache are
    untouched. *)
Theorem unknown_department_is_rejected :
  (∀ form now updateProfessor st d,
     data st = Some d →
     add_departmentId form ∉ dept_id <$> departments d →
     handleAddProfessor form now updateProfessor st
     = showToast "Error: Selected department not found." st)
  ∧ (∀ form now later updateProfessor st d,
       data st = Some d →
       edit_departmentId form ∉ dept_id <$> departments d →
       handleEditProfessor form now later updateProfessor st
       = showToast "Selected department not found." st).
Proof.
  split.
  - intros form now updateProfessor st d Hd Hout.
    unfold handleAddProfessor. by rewrite Hd, findDepartment_unknown.
  - intros form now later updateProfessor st d Hd Hout.
    unfold handleEditProfessor. by rewrite Hd, findDepartment_unknown.
Qed.

Lemma unknown_department_is_rejected_witness :
  data (handleAddProfessor AppExtSamples.stray_add_form Samples.clock Samples.accepting
          Samples.st1) = Some Samples.remote_base
  ∧ toasts (handleEditProfessor AppExtSamples.stray_edit_form Samples.clock Samples.clock
              Samples.accepting Samples.st1)
    = ["Selected department not found."].
Proof.
  destruct unknown_department_is_rejected as [Hadd Hedit].
  split.
  - rewrite (Hadd AppExtSamples.stray_add_form Samples.clock Samples.accepting
               Samples.st1 Samples.remote_base).
    + reflexivity.
    + reflexivity.
    + vm_compute. intros H. inversion H; subst. inversion H2.
  - rewrite (Hedit AppExtSamples.stray_edit_form Samples.clock Samples.clock
               Samples.accepting Samples.st1 Samples.remote_base).
    + reflexivity.
    + reflexivity.
    + vm_compute. intros H. inversion H; subst. inversion H2.
Defined.

(** *** Add, then Remove *)

Lemma withProfessors_same d : withProfessors (professors d) d = d.
Proof. by destruct d. Qed.

(** X3. Removing the professor that Add has just stored, under an identifier
    the map did not hold before, gives back the aggregate as it was, in
    memory and in the Local Cache. *)
Theorem add_then_remove form now updateProfessor deleteProfessor st d department
    savedProf v :
  data st = Some d →
  findDepartment d (add_departmentId form) = Some department →
  updateProfessor (addPayload d department form now) = Returned savedProf →
  let key := ToString (get savedProf "_id") in
  professors d !! key = None →
  deleteProfessor key = Returned v →
  let st' := handleRemoveProfessor key true deleteProfessor
               (handleAddProfessor form now updateProfessor st) in
  data st' = Some d
  ∧ localStorage st' = saveLocalData d (localStorage st)
  ∧ toasts st' = toasts st ++ ["Professor added!"; "Professor removed."].
Proof.
  intros Hd Hdep Hok key Hfresh Hdel st'. unfold st'.
  unfold handleAddProfessor. rewrite Hd, Hdep, Hok.
  rewrite (update_some _ _ d) by done.
  unfold handleRemoveProfessor. cbn [negb]. rewrite Hdel.
  erewrite update_some by reflexivity.
  unfold addUpdater, removeUpdater.
  cbn [fst snd data localStorage toasts showToast withStorage setData setActiveModal
       professors withProfessors departments branches news].
  fold key. rewrite delete_insert_id by done.
  rewrite saveLocalData_overwrites.
  assert (Hback : withProfessors (professors d)
                    (withProfessors
                       (<[key:=<["id":=get savedProf "_id"]> savedProf]> (professors d)) d)
                  = d) by (by destruct d).
  rewrite Hback.
  split; [done|]. split; [done|]. by rewrite <- app_assoc.
Qed.

Lemma add_then_remove_witness :
  data (handleRemoveProfessor "srv_7" true (λ _, Returned JNull)
          (handleAddProfessor Samples.add_form Samples.clock Samples.accepting
             Samples.st1))
  = Some Samples.remote_base.
Proof.
  destruct (add_then_remove Samples.add_form Samples.clock Samples.accepting
              (λ _, Returned JNull) Samples.st1 Samples.remote_base Samples.dept_cs
              (<["_id" := JStr "srv_7"]>
                 (addPayload Samples.remote_base Samples.dept_cs Samples.add_form
                    Samples.clock)) JNull) as (H & _).
  - reflexivity.
  - reflexivity.
  - reflexivity.
  - reflexivity.
  - reflexivity.
  - exact H.
Defined.

(** *** Edit, when the Remote Store accepted *)



(** *** What a load ends with *)

Lemma chooseBase_status fetchMockData ls :
  (chooseBase fetchMockData ls).1
  = if serverAccepted fetchMockData then connected else offline.
Proof.
  unfold chooseBase, serverAccepted.
  destruct fetchMockData as [serverData|e]; [|done].
  by destruct (validServerData serverData).
Qed.

(** X5. A load that completes switches the loading flag off and reports
    "connected" exactly when the server's answer passed the validity test;
    a load that ends by an exception leaves the loading flag on and the
    aggregate that was in memory, with the same connectivity rule.  Neither
    shows a notice. *)
Theorem load_outcome (fetchMockData : Outcome (option Payload)) (st : AppState) :
  let status := if serverAccepted fetchMockData then connected else offline in
  match loadData fetchMockData st with
  | Done st' =>
      loading st' = false ∧ apiStatus st' = status ∧ toasts st' = toasts st
  | Raised _ st' =>
      loading st' = true ∧ data st' = data st ∧ apiStatus st' = status
      ∧ toasts st' = toasts st
  end.
Proof.
  cbv zeta. rewrite <- (chooseBase_status fetchMockData (localStorage st)).
  unfold loadData. cbn [localStorage setLoading].
  destruct (chooseBase fetchMockData (localStorage st)) as [status [p|]]; cbn [fst].
  - destruct (mergeFallback p); done.
  - done.
Qed.

Lemma chooseBase_rejected fetchMockData ls :
  serverAccepted fetchMockData = false →
  chooseBase fetchMockData ls
  = (offline, Some (match loadLocalData ls with
                    | Some local => local
                    | None => payload_of fallbackData
                    end)).
Proof.
  unfold chooseBase, serverAccepted.
  destruct fetchMockData as [serverData|e]; [|done].
  by intros ->.
Qed.

(** X6. With no acceptable answer from the server and nothing usable in the
    Local Cache (absent, empty, unparsable, falsy or unreadable), the loaded
    aggregate is the seed itself, unchanged by the merge into itself, and
    connectivity is "offline". *)
Theorem load_falls_back_to_seed fetchMockData st :
  serverAccepted fetchMockData = false →
  loadLocalData (localStorage st) = None →
  ∃ st', loadData fetchMockData st = Done st'
         ∧ data st' = Some fallbackData
         ∧ apiStatus st' = offline.
Proof.
  intros Hserver Hcache. eexists. split; [|split].
  - unfold loadData. cbn [localStorage setLoading].
    rewrite (chooseBase_rejected _ _ Hserver), Hcache.
    unfold mergeFallback, payload_of.
    cbn [p_departments p_professors p_branches p_news].
    replace {| departments := departments fallbackData; branches := branches fallbackData;
               professors := professors fallbackData; news := news fallbackData |}
      with fallbackData by reflexivity.
    rewrite AppFacts.mergeInto_self. reflexivity.
  - reflexivity.
  - reflexivity.
Qed.

(** The server answers without a departments list; the store holds a text
    that is not JSON. *)
Lemma load_falls_back_to_seed_witness :
  ∃ st', loadData (Returned (Some AppExtSamples.no_departments))
           (withStorage AppExtSamples.garbled_store Samples.st0) = Done st'
         ∧ data st' = Some fallbackData
         ∧ apiStatus st' = offline.
Proof.
  apply (load_falls_back_to_seed (Returned (Some AppExtSamples.no_departments))
           (withStorage AppExtSamples.garbled_store Samples.st0)); reflexivity.
Defined.

(** *** Departments that professors refer to *)

Lemma get_lookup (o : JsObj) k v : o !! k = Some v → get o k = v.
Proof. unfold get. by intros ->. Qed.

(** Every professor of the seed belongs to [dept_ece]. *)
Lemma seed_professors_department k p :
  professors fallbackData !! k = Some p → get p "departmentId" = JStr "dept_ece".
Proof.
  intros Hk. apply elem_of_map_to_list in Hk.
  remember (map_to_list (professors fallbackData)) as l eqn:Hl.
  assert (Hall : forallb (λ kp : string * JsObj,
                    match kp.2 !! "departmentId" with
                    | Some (JStr s) => String.eqb s "dept_ece"
                    | _ => false
                    end) l = true).
  { rewrite Hl. vm_compute. reflexivity. }
  clear Hl. apply list_elem_of_In in Hk.
  pose proof (proj1 (forallb_forall _ l) Hall (k, p) Hk) as Hp. cbn [snd] in Hp.
  unfold get. destruct (p !! "departmentId") as [v|]; [|discriminate Hp].
  destruct v; try discriminate Hp.
  apply String.eqb_eq in Hp. by rewrite Hp.
Qed.

Lemma known_by_id (ds : list Department) (v : JsVal) :
  (∃ dep, dep ∈ ds ∧ v = JStr (dept_id dep)) ↔ ∃ id, id ∈ dept_id <$> ds ∧ v = JStr id.
Proof.
  split.
  - intros (dep & Hin & ->). exists (dept_id dep). split; [|done].
    apply list_elem_of_fmap. by exists dep.
  - intros (id & Hin & ->). apply list_elem_of_fmap in Hin as (dep & -> & Hin).
    by exists dep.
Qed.

Lemma registerBranch_ids branchId branchName department d :
  dept_id <$> departments (registerBranch branchId branchName department d)
  = dept_id <$> departments d.
Proof.
  unfold registerBranch. cbn [departments]. rewrite <- list_fmap_compose.
  apply list_fmap_ext. intros i x _. cbn.
  by destruct (String.eqb (dept_id x) (dept_id department)).
Qed.

(** X7. The seed merge keeps the directory consistent: if every professor of
    the base [loadData] picked refers to a department of the base, then
    every professor of the loaded aggregate, those added from the seed
    included, refers to a department of the loaded aggregate. *)
Theorem load_keeps_departments_known fetchMockData st status base :
  chooseBase fetchMockData (localStorage st) = (status, Some (payload_of base)) →
  departments_known base →
  ∃ st' merged,
    loadData fetchMockData st = Done st' ∧ data st' = Some merged
    ∧ departments_known merged.
Proof.
  intros Hbase Hknown. eexists _, _.
  split; [by apply AppFacts.loadData_well_formed|]. split; [reflexivity|].
  intros k p. unfold mergeInto. cbn [professors departments].
  rewrite AppFacts.mergeEntries_lookup.
  destruct (professors base !! k) as [q|] eqn:Hk.
  - intros [= <-]. destruct (Hknown k q Hk) as (dep & Hin & Hdep).
    exists dep. split; [|exact Hdep].
    rewrite AppFacts.mergeDepartments_app. apply elem_of_app. by left.
  - intros Hseed. apply known_by_id. exists "dept_ece". split.
    + assert (Hin : "dept_ece" ∈ dept_id <$> departments fallbackData).
      { rewrite (proj1 AppFacts.seed_is_populated). apply list_elem_of_here. }
      apply list_elem_of_fmap in Hin as (dep & Hid & Hin). rewrite Hid.
      by apply AppFacts.mergeDepartments_ids.
    + by apply (seed_professors_department k).
Qed.

Lemma tidy_base_known : departments_known AppExtSamples.tidy_base.
Proof.
  intros k p Hk. cbn [professors AppExtSamples.tidy_base] in Hk.
  apply lookup_singleton_Some in Hk as [<- <-].
  exists Samples.dept_cs. split; [apply list_elem_of_here|reflexivity].
Qed.

Lemma load_keeps_departments_known_witness :
  ∃ st' merged,
    loadData (Returned (Some (payload_of AppExtSamples.tidy_base))) Samples.st0 = Done st'
    ∧ data st' = Some merged ∧ departments_known merged.
Proof.
  apply (load_keeps_departments_known
           (Returned (Some (payload_of AppExtSamples.tidy_base))) Samples.st0 connected
           AppExtSamples.tidy_base).
  - reflexivity.
  - exact tidy_base_known.
Defined.

Lemma findDepartment_elem d departmentId department :
  findDepartment d departmentId = Some department → department ∈ departments d.
Proof.
  unfold findDepartment. intros H. apply List.find_some in H as [H _].
  by apply list_elem_of_In.
Qed.

(** X8. The offline fallback of Edit keeps the directory consistent: the record
    it writes refers to the department the form selected, which the
    aggregate has, and no department is lost. *)
Theorem offline_edit_keeps_departments_known form now later updateProfessor st d
    department e :
  data st = Some d →
  findDepartment d (edit_departmentId form) = Some department →
  updateProfessor (editPayload d department form now) = Thrown e →
  departments_known d →
  ∃ d', data (handleEditProfessor form now later updateProfessor st) = Some d'
        ∧ departments_known d'.
Proof.
  intros Hd Hdep Hfail Hknown.
  rewrite (AppFacts.handleEditProfessor_offline _ _ _ _ _ _ _ _ Hd Hdep Hfail).
  cbn [data setEditingProfessor setActiveModal showToast withStorage setData].
  eexists. split; [reflexivity|].
  unfold editFallbackUpdater. cbn [fst].
  set (updated := if negb _ then _ else d).
  assert (Hids : dept_id <$> departments updated = dept_id <$> departments d).
  { unfold updated. destruct (negb _); [apply registerBranch_ids|done]. }
  assert (Hprofs : professors updated = professors d).
  { unfold updated. by destruct (negb _). }
  intros k p. cbn [professors departments withProfessors]. rewrite Hprofs.
  intros Hk. apply known_by_id. rewrite Hids.
  destruct (decide (k = localKey (edit_id form) later)) as [->|Hne].
  - rewrite lookup_insert_eq in Hk. injection Hk as <-.
    exists (dept_id department). split.
    + apply list_elem_of_fmap. exists department.
      split; [done|]. by eapply findDepartment_elem.
    + unfold localRecord. apply get_lookup. apply AppFacts.routed_departmentId.
  - rewrite lookup_insert_ne in Hk by done.
    apply known_by_id. by apply (Hknown k).
Qed.

Lemma offline_edit_keeps_departments_known_witness :
  ∃ d', data (handleEditProfessor Samples.edit_form Samples.clock Samples.clock
                Samples.unreachable AppExtSamples.st_tidy) = Some d'
        ∧ departments_known d'.
Proof.
  apply (offline_edit_keeps_departments_known Samples.edit_form Samples.clock
           Samples.clock Samples.unreachable AppExtSamples.st_tidy
           AppExtSamples.tidy_base Samples.dept_cs Samples.failed_to_fetch).
  - reflexivity.
  - reflexivity.
  - reflexivity.
  - exact tidy_base_known.
Defined.

End AppExtFacts.

(** ** The add dialog *)

Module AddDialogFacts.
Import App AddDialog.

Lemma handleSubmit_filled form now updateProfessor st :
  filled form →
  handleSubmit form now updateProfessor st
  = setActiveModal None
      (showToast "Professor added." (handleAddProfessor form now updateProfessor st)).
Proof. intros [Hname Hemail]. unfold handleSubmit. by rewrite Hname, Hemail. Qed.

(** X9. A filled-in add dialog always ends by announcing success and closing,
    whatever became of the request.  When the Remote Store refuses or cannot
    be reached, the user is told of the failure and then of a success: the
    two messages are shown in that order, the dialog closes, and neither the
    directory nor the Local Store has changed. *)
Theorem add_dialog_announces_success form now updateProfessor st :
  filled form →
  let st' := handleSubmit form now updateProfessor st in
  activeModal st' = None
  ∧ last (toasts st') = Some "Professor added."
  ∧ (∀ d department e,
       data st = Some d →
       findDepartment d (add_departmentId form) = Some department →
       updateProfessor (addPayload d department form now) = Thrown e →
       toasts st' = toasts st ++ ["Failed to save professor."; "Professor added."]
       ∧ data st' = data st
       ∧ localStorage st' = localStorage st).
Proof.
  intros Hfilled st'. unfold st'. rewrite (handleSubmit_filled _ _ _ _ Hfilled).
  split; [reflexivity|]. split.
  - cbn [toasts setActiveModal showToast]. apply last_snoc.
  - intros d department e Hd Hdept Hfail. unfold handleAddProfessor.
    rewrite Hd, Hdept, Hfail.
    cbn [toasts data localStorage setActiveModal showToast setApiStatus].
    by rewrite <- app_assoc.
Qed.

Lemma add_dialog_announces_success_witness :
  toasts (handleSubmit Samples.add_form Samples.clock Samples.unreachable Samples.st1)
  = ["Failed to save professor."; "Professor added."].
Proof.
  destruct (add_dialog_announces_success Samples.add_form Samples.clock
              Samples.unreachable Samples.st1) as (_ & _ & Hfail).
  - split; reflexivity.
  - destruct (Hfail Samples.remote_base Samples.dept_cs Samples.failed_to_fetch)
      as (Htoasts & _); [reflexivity|reflexivity|reflexivity|exact Htoasts].
Defined.

End AddDialogFacts.

(** ** More on request *)

Module ApiExtFacts.
Import Api.

Lemma network_failure_retryable attempt f :
  (attempt < MAX_RETRIES)%nat → network_failure f →
  ∃ e, f = FetchRejected e ∧ retryable attempt e = true.
Proof.
  intros Hlt (e & -> & Hcls & Hinc). exists e. split; [done|].
  unfold retryable. rewrite Hcls, Hinc.
  apply Nat.ltb_lt in Hlt. by rewrite Hlt.
Qed.

(** One more turn of the loop after a failed connection. *)
Lemma attempts_retry net remaining attempt :
  (attempt < MAX_RETRIES)%nat → network_failure (net attempt) →
  attempts net (S remaining) attempt
  = ((attempts net remaining (S attempt)).1,
     Fetched :: Slept (RETRY_DELAY_MS * (Z.of_nat attempt + 1))
       :: (attempts net remaining (S attempt)).2).
Proof.
  intros Hlt Hfail.
  destruct (network_failure_retryable _ _ Hlt Hfail) as (e & Hnet & Hretry).
  cbn [attempts]. rewrite Hnet. cbn [attempt_body]. rewrite Hretry.
  by destruct (attempts net remaining (S attempt)).
Qed.

(** The turn of the loop that gets a parseable 2xx answer. *)
Lemma attempts_success net remaining attempt r v :
  net attempt = FetchResponse r → ok r = true → body_json r = Some v →
  attempts net (S remaining) attempt = (Returned v, [Fetched; Logged "SUCCESS"]).
Proof.
  intros Hnet Hok Hjson. cbn [attempts]. rewrite Hnet. cbn [attempt_body].
  by rewrite Hok, Hjson.
Qed.

Lemma request_loop net : request net = attempts net 3 0.
Proof. reflexivity. Qed.

(** X10. A connection that fails at most twice does not fail the call: after
    [k <= 2] rejected fetches, a 2xx answer with a JSON body is returned,
    with [k + 1] calls of [fetch] and the waits 500 ms, 1000 ms before the
    retries. *)
Theorem request_recovers (net : nat → FetchOutcome) (k : nat) (r : Response)
    (v : JsVal) :
  (k ≤ MAX_RETRIES)%nat →
  (∀ i, (i < k)%nat → network_failure (net i)) →
  net k = FetchResponse r → ok r = true → body_json r = Some v →
  (request net).1 = Returned v
  ∧ fetch_count (request net).2 = S k
  ∧ delays (request net).2 = backoff 0 k.
Proof.
  unfold MAX_RETRIES. intros Hk Hfail Hnet Hok Hjson. rewrite request_loop.
  destruct k as [|[|[|k]]]; [| | |lia].
  - rewrite (attempts_success _ _ _ _ _ Hnet Hok Hjson). done.
  - rewrite attempts_retry by (unfold MAX_RETRIES; auto with lia).
    rewrite (attempts_success _ _ _ _ _ Hnet Hok Hjson). done.
  - rewrite attempts_retry by (unfold MAX_RETRIES; auto with lia).
    rewrite attempts_retry by (unfold MAX_RETRIES; auto with lia).
    rewrite (attempts_success _ _ _ _ _ Hnet Hok Hjson). done.
Qed.

Lemma request_recovers_witness :
  (request ApiExtSamples.third_time_lucky).1 = Returned (JBool true)
  ∧ fetch_count (request ApiExtSamples.third_time_lucky).2 = 3%nat
  ∧ delays (request ApiExtSamples.third_time_lucky).2 = [500; 1000].
Proof.
  apply (request_recovers ApiExtSamples.third_time_lucky 2 ApiExtSamples.accepted
           (JBool true)).
  - unfold MAX_RETRIES. lia.
  - intros i Hi. exists Samples.failed_to_fetch.
    destruct i as [|[|i]]; [by repeat split|by repeat split|lia].
  - reflexivity.
  - reflexivity.
  - reflexivity.
Defined.

(** X11. A connection that fails three times fails the call: [request] has then
    called [fetch] three times, waited 500 ms and 1000 ms, and throws the
    error of the third attempt, not of the first. *)
Theorem request_gives_up (net : nat → FetchOutcome) :
  (∀ i, (i ≤ MAX_RETRIES)%nat → network_failure (net i)) →
  ∃ e, net MAX_RETRIES = FetchRejected e
       ∧ request net
         = (Thrown e, [Fetched; Slept 500; Fetched; Slept 1000; Fetched; Logged "FAIL"]).
Proof.
  unfold MAX_RETRIES. intros Hfail. rewrite request_loop.
  rewrite attempts_retry by (unfold MAX_RETRIES; auto with lia).
  rewrite attempts_retry by (unfold MAX_RETRIES; auto with lia).
  destruct (Hfail 2%nat) as (e & Hnet & _); [lia|].
  exists e. split; [done|].
  cbn [attempts]. rewrite Hnet. cbn [attempt_body].
  unfold retryable. cbn. done.
Qed.

Lemma request_gives_up_witness :
  (request (λ _, FetchRejected Samples.failed_to_fetch)).1
  = Thrown Samples.failed_to_fetch.
Proof.
  destruct (request_gives_up (λ _, FetchRejected Samples.failed_to_fetch))
    as (e & He & Hreq).
  - intros i _. exists Samples.failed_to_fetch. by repeat split.
  - rewrite Hreq. injection He as <-. reflexivity.
Defined.

(** X12. A 2xx answer whose body is not JSON, such as a 204 without a body, is
    a failure of the call: [request] throws a [SyntaxError] and does not try
    again, whether the answer came at the first attempt or after retries. *)
Theorem request_rejects_unparsable_success (net : nat → FetchOutcome) (k : nat)
    (r : Response) :
  (k ≤ MAX_RETRIES)%nat →
  (∀ i, (i < k)%nat → network_failure (net i)) →
  net k = FetchResponse r → ok r = true → body_json r = None →
  (request net).1 = Thrown json_error
  ∧ fetch_count (request net).2 = S k.
Proof.
  unfold MAX_RETRIES. intros Hk Hfail Hnet Hok Hjson. rewrite request_loop.
  assert (Hlast : ∀ remaining,
            attempts net (S remaining) k = (Thrown json_error, [Fetched; Logged "FAIL"])).
  { intros remaining. cbn [attempts]. rewrite Hnet. cbn [attempt_body].
    rewrite Hok, Hjson. cbn [negb]. unfold retryable. cbn.
    by rewrite andb_false_r. }
  destruct k as [|[|[|k]]]; [| | |lia].
  - by rewrite Hlast.
  - rewrite attempts_retry by (unfold MAX_RETRIES; auto with lia).
    by rewrite Hlast.
  - rewrite attempts_retry by (unfold MAX_RETRIES; auto with lia).
    rewrite attempts_retry by (unfold MAX_RETRIES; auto with lia).
    by rewrite Hlast.
Qed.

Lemma request_rejects_unparsable_success_witness :
  (request (λ _, FetchResponse ApiExtSamples.no_content)).1 = Thrown json_error.
Proof.
  apply (request_rejects_unparsable_success
           (λ _, FetchResponse ApiExtSamples.no_content) 0 ApiExtSamples.no_content).
  - unfold MAX_RETRIES. lia.
  - intros i Hi. lia.
  - reflexivity.
  - reflexivity.
  - reflexivity.
Defined.

End ApiExtFacts.

(** ** More on escapeHtml, and the alumni search panel *)

Module AlumniUiFacts.
Import JsMore.
Import AlumniSearch Api AlumniUi.

(** *** escapeHtml on strings *)

Lemma escapeHtml_string s : escapeHtml (of_value (JStr s)) = Returned (escapeEach s).
Proof.
  rewrite AlumniSearchFacts.escapeHtml_returns. by destruct s.
Qed.

Lemma escapeHtml_is_safe v out : escapeHtml (of_value v) = Returned out → safe out.
Proof. apply AlumniSearchFacts.escapeHtml_returned_safe. Qed.

Lemma and_then_returned {A B} (o : Outcome A) (f : A → Outcome B) b :
  and_then o f = Returned b → ∃ a, o = Returned a ∧ f a = Returned b.
Proof. destruct o as [a|e]; [|done]. intros H. by exists a. Qed.

Lemma entity_plain a : plain_char a → entity a = String a EmptyString.
Proof.
  intros (H1 & H2 & H3 & H4 & H5). unfold entity.
  apply Ascii.eqb_neq in H1, H2, H3, H4, H5. by rewrite H1, H2, H3, H4, H5.
Qed.

Lemma entity_cases a :
  plain_char a ∧ entity a = String a EmptyString
  ∨ a = "&"%char ∨ a = "<"%char ∨ a = ">"%char ∨ a = dquote ∨ a = "'"%char.
Proof.
  destruct (Ascii.eqb a "&") eqn:E1; [apply Ascii.eqb_eq in E1; tauto|].
  destruct (Ascii.eqb a "<") eqn:E2; [apply Ascii.eqb_eq in E2; tauto|].
  destruct (Ascii.eqb a ">") eqn:E3; [apply Ascii.eqb_eq in E3; tauto|].
  destruct (Ascii.eqb a dquote) eqn:E4; [apply Ascii.eqb_eq in E4; tauto|].
  destruct (Ascii.eqb a "'") eqn:E5; [apply Ascii.eqb_eq in E5; tauto|].
  left. apply Ascii.eqb_neq in E1, E2, E3, E4, E5.
  split; [by repeat split|]. by apply entity_plain.
Qed.

(** The entity that starts an escaped text tells the character it stands
    for, and where the rest begins. *)
Lemma entity_app_inj a b x y :
  entity a +:+ x = entity b +:+ y → a = b ∧ x = y.
Proof.
  destruct (entity_cases a) as [[Ha Ea]|Ha], (entity_cases b) as [[Hb Eb]|Hb];
    rewrite ?Ea, ?Eb.
  - intros H. change (String a x = String b y) in H. by injection H as -> ->.
  - destruct Ha as (P1 & P2 & P3 & P4 & P5).
    destruct Hb as [->|[->|[->|[->| ->]]]]; intros H; vm_compute in H;
      injection H as Hc _; exfalso; congruence.
  - destruct Hb as (P1 & P2 & P3 & P4 & P5).
    destruct Ha as [->|[->|[->|[->| ->]]]]; intros H; vm_compute in H;
      injection H as Hc _; exfalso; congruence.
  - destruct Ha as [->|[->|[->|[->| ->]]]], Hb as [->|[->|[->|[->| ->]]]];
      intros H; vm_compute in H;
      first [discriminate H | (injection H as ->; by split)].
Qed.

Lemma escapeEach_inj s1 s2 : escapeEach s1 = escapeEach s2 → s1 = s2.
Proof.
  revert s2. induction s1 as [|a s1 IH]; intros [|b s2]; cbn [escapeEach].
  - done.
  - intros H. exfalso.
    destruct (entity_cases b) as [[_ Hb]|[->|[->|[->|[->| ->]]]]];
      [rewrite Hb in H|..]; discriminate H.
  - intros H. exfalso.
    destruct (entity_cases a) as [[_ Ha]|[->|[->|[->|[->| ->]]]]];
      [rewrite Ha in H|..]; discriminate H.
  - intros H. apply entity_app_inj in H as [-> H]. f_equal. by apply IH.
Qed.

Lemma escapeEach_plain s :
  Forall plain_char (list_ascii_of_string s) → escapeEach s = s.
Proof.
  induction s as [|a s IH]; cbn [escapeEach list_ascii_of_string]; [done|].
  intros H. apply Forall_cons in H as [Ha Hs].
  rewrite (entity_plain a Ha), IH by done. reflexivity.
Qed.

(** X13. On strings [escapeHtml] loses nothing and adds nothing: two different
    strings have different escaped forms, and a string without any of the
    five metacharacters is returned as it is. *)
Theorem escapeHtml_faithful (s1 s2 : string) :
  (escapeHtml (of_value (JStr s1)) = escapeHtml (of_value (JStr s2)) → s1 = s2)
  ∧ (Forall plain_char (list_ascii_of_string s1) →
     escapeHtml (of_value (JStr s1)) = Returned s1).
Proof.
  rewrite !escapeHtml_string. split.
  - intros [= H]. by apply escapeEach_inj.
  - intros H. by rewrite escapeEach_plain.
Qed.

Lemma escapeHtml_faithful_witness :
  escapeHtml (of_value (JStr "Ada Lovelace")) = Returned "Ada Lovelace".
Proof.
  apply (proj2 (escapeHtml_faithful "Ada Lovelace" "")).
  repeat constructor; discriminate.
Defined.

(** *** The cards *)

Lemma chars_ok_app P s1 s2 : chars_ok P s1 → chars_ok P s2 → chars_ok P (s1 +:+ s2).
Proof.
  unfold chars_ok. rewrite AlumniSearchFacts.list_ascii_app. intros. by apply Forall_app.
Qed.

Lemma chars_ok_first P s : chars_ok P s → chars_ok P (first_char s).
Proof.
  destruct s as [|a s]; [done|]. unfold chars_ok. cbn. intros H.
  apply Forall_cons in H as [Ha _]. by repeat constructor.
Qed.

Lemma chars_ok_split P sep s : chars_ok P s → Forall (chars_ok P) (split_on sep s).
Proof.
  induction s as [|a s IH]; intros H.
  - repeat constructor.
  - unfold chars_ok in H. cbn in H. apply Forall_cons in H as [Ha Hs].
    cbn [split_on]. specialize (IH Hs).
    destruct (Ascii.eqb a sep).
    + constructor; [constructor|done].
    + destruct (split_on sep s) as [|w ws].
      * repeat constructor. done.
      * apply Forall_cons in IH as [Hw Hws]. constructor; [|done].
        unfold chars_ok. cbn. by constructor.
Qed.

Lemma chars_ok_join P l : Forall (chars_ok P) l → chars_ok P (join_all l).
Proof.
  induction 1 as [|w l Hw Hl IH]; [constructor|].
  cbn [join_all foldr]. by apply chars_ok_app.
Qed.

Lemma upper_ascii_safe a : safe_char a → safe_char (upper_ascii a).
Proof.
  destruct a as [[] [] [] [] [] [] [] []]; vm_compute; intros (H1 & H2 & H3 & H4);
    repeat split; first [done | discriminate].
Qed.

Lemma chars_ok_upper s : chars_ok safe_char s → chars_ok safe_char (toUpperCase s).
Proof.
  induction s as [|a s IH]; [done|]. unfold chars_ok. cbn. intros H.
  apply Forall_cons in H as [Ha Hs]. constructor; [by apply upper_ascii_safe|by apply IH].
Qed.

Lemma initials_safe name : safe name → safe (initials name).
Proof.
  intros Hname. unfold initials.
  destruct (String.eqb _ "").
  - repeat constructor; done.
  - apply chars_ok_upper, chars_ok_join, Forall_take, Forall_fmap.
    eapply Forall_impl; [by apply chars_ok_split|].
    intros w Hw. by apply chars_ok_first.
Qed.

Lemma url_safe (v : JsVal) (url : option string) :
  (if truthy v
   then and_then (escapeHtml (of_value v)) (λ u, Returned (Some u))
   else Returned None) = Returned url →
  match url with Some u => safe u | None => True end.
Proof.
  destruct (truthy v).
  - intros H. apply and_then_returned in H as (u & Hu & [= <-]).
    by eapply escapeHtml_is_safe.
  - by intros [= <-].
Qed.

Lemma renderCard_safe it c : renderCard it = Returned c → card_safe c.
Proof.
  unfold renderCard.
  destruct it; try done; cbv zeta; intros H;
    apply and_then_returned in H as (name & Hname & H);
    apply and_then_returned in H as (title & Htitle & H);
    apply and_then_returned in H as (snippet & Hsnippet & H);
    apply and_then_returned in H as (url & Hurl & H);
    injection H as <-;
    unfold card_safe;
    cbn [card_initials card_name card_url card_title card_snippet];
    apply escapeHtml_is_safe in Hname, Htitle, Hsnippet;
    apply url_safe in Hurl;
    refine (conj _ (conj Hname (conj Htitle (conj Hsnippet Hurl))));
    by apply initials_safe.
Qed.

Lemma renderCards_safe items cards :
  renderCards items = Returned cards → Forall card_safe cards.
Proof.
  revert cards. induction items as [|it items IH]; intros cards; cbn [renderCards].
  - intros [= <-]. constructor.
  - destruct (renderCard it) as [c|e] eqn:Hc; [|done].
    destruct (renderCards items) as [cs|e]; [|done].
    intros [= <-]. constructor; [by eapply renderCard_safe|by apply IH].
Qed.

Lemma rendered_cards_safe_aux (items : JsVal) (cards : list Card) :
  renderResults items = Returned (Grid cards) → Forall card_safe cards.
Proof.
  unfold renderResults. destruct (negb (truthy items)); [done|].
  destruct items as [| | | | |s|l|o]; try done.
  - destruct (renderCards (characters s)) as [cs|] eqn:Hcs; [|done].
    intros [= <-]. by eapply renderCards_safe.
  - destruct l as [|it l]; [done|].
    destruct (renderCards (it :: l)) as [cs|] eqn:Hcs; [|done].
    intros [= <-]. by eapply renderCards_safe.
  - by destruct (get o "length") as [| | | |[]| | |].
Qed.

Lemma StringOf_thrown_truthy v e : StringOf v = Thrown e → truthy v = true.
Proof. by destruct v. Qed.

Lemma or_else_truthy a b : truthy a = true → or_else a b = a.
Proof. unfold or_else. by intros ->. Qed.

Lemma escapeHtml_thrown v e :
  StringOf v = Thrown e → escapeHtml (of_value v) = Thrown e.
Proof.
  intros Hv. unfold escapeHtml, of_value. cbn [arg_not arg_is_zero arg_String].
  by rewrite (StringOf_thrown_truthy _ _ Hv), Hv.
Qed.

Lemma renderCard_throws (o : JsObj) e :
  StringOf (get o "name") = Thrown e → renderCard (JObj o) = Thrown e.
Proof.
  intros Hname. unfold renderCard. cbn [field]. cbv zeta.
  rewrite (or_else_truthy (get o "name")) by (by eapply StringOf_thrown_truthy).
  by rewrite (escapeHtml_thrown _ _ Hname).
Qed.

Lemma renderCards_throws items it e :
  it ∈ items → renderCard it = Thrown e → ∃ e', renderCards items = Thrown e'.
Proof.
  intros Hin Hit. induction items as [|x items IH]; [by apply elem_of_nil in Hin|].
  cbn [renderCards]. destruct (renderCard x) as [c|e0] eqn:Hx; [|by eexists].
  apply elem_of_cons in Hin as [->|Hin]; [congruence|].
  destruct (IH Hin) as [e' ->]. by eexists.
Qed.

(** X14. Whatever [renderResults] is given, the cards it shows carry no markup
    of the data: the name, title, snippet, address and initials put into
    each card have no '<', '>', double quote or single quote.  And it shows
    no card at all when one item of the list has a name that [String]
    cannot convert: it ends by an exception. *)
Theorem rendered_cards_are_safe (items : JsVal) :
  (∀ cards, renderResults items = Returned (Grid cards) → Forall card_safe cards)
  ∧ (∀ l o e, items = JArr l → JObj o ∈ l → StringOf (get o "name") = Thrown e →
              ∃ e', renderResults items = Thrown e').
Proof.
  split.
  - intros cards. unfold renderResults. destruct (negb (truthy items)); [done|].
    destruct items as [| | | | |s|l|o]; try done.
    + destruct (renderCards (characters s)) as [cs|] eqn:Hcs; [|done].
      intros [= <-]. by eapply renderCards_safe.
    + destruct l as [|it l]; [done|].
      destruct (renderCards (it :: l)) as [cs|] eqn:Hcs; [|done].
      intros [= <-]. by eapply renderCards_safe.
    + by destruct (get o "length") as [| | | |[]| | |].
  - intros l o e -> Hin Hname. unfold renderResults. cbn [truthy negb].
    destruct l as [|it l]; [by apply elem_of_nil in Hin|].
    destruct (renderCards_throws (it :: l) (JObj o) e Hin (renderCard_throws o e Hname))
      as [e' ->].
    by exists e'.
Qed.

Lemma rendered_cards_are_safe_witness :
  ∃ c, renderResults AlumniUiSamples.one_result = Returned (Grid [c])
       ∧ card_initials c = "&"
       ∧ card_safe c.
Proof.
  eexists. split; [reflexivity|]. split; [reflexivity|].
  pose proof (proj1 (rendered_cards_are_safe AlumniUiSamples.one_result) _ eq_refl) as H.
  by apply Forall_cons in H as [H _].
Defined.

(** *** A search *)

(** X15. A blank query is answered without the network: whatever [fetch] would
    settle with, the status line is empty and "No results" is shown.  For
    any query, the results container is never left cleared, and cards are
    shown only for a 2xx answer, with an empty status line and markup-free
    values. *)
Theorem doSearch_outcomes (q : string) (fetched : FetchOutcome) :
  (blank q = true →
   doSearch q fetched = {| status_text := ""; shown := NoResults |})
  ∧ shown (doSearch q fetched) ≠ Cleared
  ∧ (∀ cards, shown (doSearch q fetched) = Grid cards →
              status_text (doSearch q fetched) = ""
              ∧ (∃ res, fetched = FetchResponse res ∧ ok res = true)
              ∧ Forall card_safe cards).
Proof.
  split; [|split].
  - intros Hq. unfold doSearch. by rewrite Hq.
  - unfold doSearch. destruct (blank q); [done|].
    destruct fetched as [e|res]; [done|].
    destruct (body_json res) as [json|]; [|done].
    destruct (negb (ok res)).
    { destruct (truthy _); [destruct (StringOf _)|]; done. }
    destruct (field json "results") as [results|]; [|done].
    destruct (renderResults (or_else results (JArr []))) as [r|] eqn:Hr; [|done].
    cbn [shown]. intros ->. revert Hr. unfold renderResults.
    destruct (negb (truthy _)); [done|].
    destruct (or_else results (JArr [])) as [| | | | |s|l|o]; try done.
    + by destruct (renderCards (characters s)).
    + destruct l; [done|]. by destruct (renderCards _).
    + by destruct (get o "length") as [| | | |[]| | |].
  - intros cards. unfold doSearch. destruct (blank q); [done|].
    destruct fetched as [e|res]; [done|].
    destruct (body_json res) as [json|]; [|done].
    destruct (ok res) eqn:Hok; cbn [negb];
      [|destruct (truthy _); [destruct (StringOf _)|]; done].
    destruct (field json "results") as [results|]; [|done].
    destruct (renderResults (or_else results (JArr []))) as [r|] eqn:Hr; [|done].
    cbn [shown status_text]. intros ->.
    split; [done|]. split; [by exists res|].
    by eapply rendered_cards_safe_aux.
Qed.

Lemma doSearch_outcomes_witness :
  doSearch "  " (FetchResponse AlumniUiSamples.results_page)
  = {| status_text := ""; shown := NoResults |}
  ∧ ∃ cards,
      shown (doSearch "eve" (FetchResponse AlumniUiSamples.results_page)) = Grid cards
      ∧ Forall card_safe cards.
Proof.
  split.
  - by apply (doSearch_outcomes "  " (FetchResponse AlumniUiSamples.results_page)).
  - eexists. split; [vm_compute; reflexivity|].
    destruct (doSearch_outcomes "eve" (FetchResponse AlumniUiSamples.results_page))
      as (_ & _ & Hgrid).
    by apply (Hgrid _ eq_refl).
Defined.

End AlumniUiFacts.

(** ** More on the job search *)

Module JobSearchExtFacts.
Import Api JobSearch JobSearchExt.

(** *** fetchWithRetry *)

Lemma count_cons_fetched log : fetch_count (Fetched :: log) = S (fetch_count log).
Proof. reflexivity. Qed.

Lemma count_cons_slept ms log : fetch_count (Slept ms :: log) = fetch_count log.
Proof. reflexivity. Qed.

Lemma delays_cons_fetched log : delays (Fetched :: log) = delays log.
Proof. reflexivity. Qed.

Lemma delays_cons_slept ms log : delays (Slept ms :: log) = ms :: delays log.
Proof. reflexivity. Qed.

(** What every way out of one call has in common. *)
Lemma fetchWithRetry_step net retries attempt :
  fetchWithRetry net retries attempt
  = match net attempt with
    | SearchAnswered res =>
        if sr_ok res then
          match sr_json res with
          | Some data => (Returned data, [Fetched])
          | None =>
              match retries with
              | O => (Thrown json_error, [Fetched])
              | S r => ((fetchWithRetry net r (S attempt)).1,
                        Fetched :: Slept (wait_ms retries)
                          :: (fetchWithRetry net r (S attempt)).2)
              end
          end
        else
          match retries with
          | O => (Thrown (status_error res), [Fetched])
          | S r => ((fetchWithRetry net r (S attempt)).1,
                    Fetched :: Slept (wait_ms retries)
                      :: (fetchWithRetry net r (S attempt)).2)
          end
    | SearchRejected e =>
        match retries with
        | O => (Thrown e, [Fetched])
        | S r => ((fetchWithRetry net r (S attempt)).1,
                  Fetched :: Slept (wait_ms retries)
                    :: (fetchWithRetry net r (S attempt)).2)
        end
    end.
Proof.
  destruct retries as [|r]; cbn [fetchWithRetry].
  - destruct (net attempt) as [e|res]; [done|].
    destruct (sr_ok res); cbn [negb]; [done|].
    by rewrite andb_false_r.
  - destruct (fetchWithRetry net r (S attempt)) as [res' log'].
    destruct (net attempt) as [e|res]; [done|].
    destruct (sr_ok res); cbn [negb]; [by destruct (sr_json res)|].
    by destruct (((sr_status res =? 429) || (500 <=? sr_status res)) && _).
Qed.

Lemma fetchWithRetry_bounds net retries attempt :
  let res := (fetchWithRetry net retries attempt).1 in
  let log := (fetchWithRetry net retries attempt).2 in
  (1 ≤ fetch_count log ≤ S retries)%nat
  ∧ delays log = take (fetch_count log - 1) (waits retries)
  ∧ ((∃ e, res = Thrown e) → fetch_count log = S retries).
Proof.
  revert attempt. induction retries as [|r IH]; intros attempt; cbv zeta;
    rewrite fetchWithRetry_step.
  - destruct (net attempt) as [e|res].
    + cbn. split; [lia|]. split; [done|]. done.
    + destruct (sr_ok res); [destruct (sr_json res)|];
        cbn; (split; [lia|]); (split; [done|]); done.
  - specialize (IH (S attempt)). cbv zeta in IH.
    destruct IH as (Hc & Hd & Ht).
    assert (Hretry :
      let log := Fetched :: Slept (wait_ms (S r)) :: (fetchWithRetry net r (S attempt)).2 in
      (1 ≤ fetch_count log ≤ S (S r))%nat
      ∧ delays log = take (fetch_count log - 1) (waits (S r))
      ∧ ((∃ e, (fetchWithRetry net r (S attempt)).1 = Thrown e) →
         fetch_count log = S (S r))).
    { cbv zeta. rewrite count_cons_fetched, count_cons_slept, delays_cons_fetched,
        delays_cons_slept, Hd.
      split; [lia|]. split.
      - destruct (fetch_count _) as [|c]; [lia|]. cbn [waits].
        by rewrite Nat.sub_succ, Nat.sub_0_r, Nat.sub_succ, Nat.sub_0_r.
      - intros H. by rewrite (Ht H). }
    destruct (net attempt) as [e|res]; [exact Hretry|].
    destruct (sr_ok res); [|exact Hretry].
    destruct (sr_json res); [|exact Hretry].
    cbn. split; [lia|]. split; [done|]. by intros [e He].
Qed.

Lemma fetchWithRetry_retry net r attempt e :
  failure (net attempt) = Some e →
  fetchWithRetry net (S r) attempt
  = ((fetchWithRetry net r (S attempt)).1,
     Fetched :: Slept (wait_ms (S r)) :: (fetchWithRetry net r (S attempt)).2).
Proof.
  intros Hfail. rewrite fetchWithRetry_step. unfold failure in Hfail.
  destruct (net attempt) as [e'|res]; [done|].
  destruct (sr_ok res); cbn [negb] in Hfail; [|done].
  by destruct (sr_json res).
Qed.

Lemma fetchWithRetry_last net attempt e :
  failure (net attempt) = Some e →
  fetchWithRetry net 0 attempt = (Thrown e, [Fetched]).
Proof.
  intros Hfail. rewrite fetchWithRetry_step. unfold failure in Hfail.
  destruct (net attempt) as [e'|res]; [by injection Hfail as ->|].
  destruct (sr_ok res); cbn [negb] in Hfail; [|by injection Hfail as ->].
  destruct (sr_json res); [done|by injection Hfail as ->].
Qed.

Lemma fetchWithRetry_answer net retries attempt res v :
  net attempt = SearchAnswered res → sr_ok res = true → sr_json res = Some v →
  fetchWithRetry net retries attempt = (Returned v, [Fetched]).
Proof.
  intros Hnet Hok Hjson. rewrite fetchWithRetry_step, Hnet, Hok, Hjson. done.
Qed.

(** The run up to the first call that succeeds. *)
Lemma fetchWithRetry_recovers net retries attempt k res v :
  (k ≤ retries)%nat →
  (∀ i, (i < k)%nat → is_Some (failure (net (attempt + i)%nat))) →
  net (attempt + k)%nat = SearchAnswered res → sr_ok res = true → sr_json res = Some v →
  (fetchWithRetry net retries attempt).1 = Returned v
  ∧ fetch_count (fetchWithRetry net retries attempt).2 = S k
  ∧ delays (fetchWithRetry net retries attempt).2 = take k (waits retries).
Proof.
  revert retries attempt.
  induction k as [|k IH]; intros retries attempt Hk Hfail Hnet Hok Hjson.
  - rewrite Nat.add_0_r in Hnet.
    rewrite (fetchWithRetry_answer _ _ _ _ _ Hnet Hok Hjson). by rewrite take_0.
  - destruct retries as [|r]; [lia|].
    destruct (Hfail 0%nat) as [e He]; [lia|]. rewrite Nat.add_0_r in He.
    rewrite (fetchWithRetry_retry _ _ _ _ He). cbn [fst snd].
    destruct (IH r (S attempt)) as (Hres & Hcount & Hdelays); [lia| | |done|done|].
    + intros i Hi. replace (S attempt + i)%nat with (attempt + S i)%nat by lia.
      apply Hfail. lia.
    + by replace (S attempt + k)%nat with (attempt + S k)%nat by lia.
    + split; [done|].
      rewrite count_cons_fetched, count_cons_slept, delays_cons_fetched,
        delays_cons_slept, Hcount, Hdelays. done.
Qed.

(** The run in which every call fails. *)
Lemma fetchWithRetry_exhausts net retries attempt e :
  (∀ i, (i < retries)%nat → is_Some (failure (net (attempt + i)%nat))) →
  failure (net (attempt + retries)%nat) = Some e →
  (fetchWithRetry net retries attempt).1 = Thrown e
  ∧ fetch_count (fetchWithRetry net retries attempt).2 = S retries
  ∧ delays (fetchWithRetry net retries attempt).2 = waits retries.
Proof.
  revert attempt. induction retries as [|r IH]; intros attempt Hfail Hlast.
  - rewrite Nat.add_0_r in Hlast. by rewrite (fetchWithRetry_last _ _ _ Hlast).
  - destruct (Hfail 0%nat) as [e0 He0]; [lia|]. rewrite Nat.add_0_r in He0.
    rewrite (fetchWithRetry_retry _ _ _ _ He0). cbn [fst snd].
    destruct (IH (S attempt)) as (Hres & Hcount & Hdelays).
    + intros i Hi. replace (S attempt + i)%nat with (attempt + S i)%nat by lia.
      apply Hfail. lia.
    + by replace (S attempt + r)%nat with (attempt + S r)%nat by lia.
    + split; [done|].
      rewrite count_cons_fetched, count_cons_slept, delays_cons_fetched,
        delays_cons_slept, Hcount, Hdelays. done.
Qed.

(** X16. A search request tries again after every failure, a rejected fetch,
    an unparsable body or any non-2xx status (a 404 as much as a 429),
    while one of its 4 retries is left.  When the calls before call [k <= 4]
    fail and call [k] gets a 2xx answer with a JSON body, that body is
    returned, after [k + 1] calls of [fetch] and the waits 1 s, 2 s, 4 s,
    8 s before the retries made.  When all five calls fail, the request
    throws what the fifth call failed with, after the four waits. *)
Theorem fetchSearch_retries_everything (net : nat → SearchFetch) :
  (∀ k res v,
     (k ≤ 4)%nat →
     (∀ i, (i < k)%nat → is_Some (failure (net i))) →
     net k = SearchAnswered res → sr_ok res = true → sr_json res = Some v →
     (fetchSearch net).1 = Returned v
     ∧ fetch_count (fetchSearch net).2 = S k
     ∧ delays (fetchSearch net).2 = take k [1000; 2000; 4000; 8000])
  ∧ (∀ e,
       (∀ i, (i < 4)%nat → is_Some (failure (net i))) →
       failure (net 4%nat) = Some e →
       (fetchSearch net).1 = Thrown e
       ∧ fetch_count (fetchSearch net).2 = 5%nat
       ∧ delays (fetchSearch net).2 = [1000; 2000; 4000; 8000]).
Proof.
  split.
  - intros k res v Hk Hfail Hnet Hok Hjson.
    apply (fetchWithRetry_recovers net 4 0 k res v Hk Hfail Hnet Hok Hjson).
  - intros e Hfail Hlast.
    apply (fetchWithRetry_exhausts net 4 0 e Hfail Hlast).
Qed.

(** A server that answers 404 every time, and one that answers 404 twice
    and then with a result. *)
Lemma fetchSearch_retries_everything_witness :
  ((fetchSearch (λ _, SearchAnswered JobSearchSamples.missing)).1
   = Thrown (status_error JobSearchSamples.missing)
   ∧ fetch_count (fetchSearch (λ _, SearchAnswered JobSearchSamples.missing)).2 = 5%nat
   ∧ delays (fetchSearch (λ _, SearchAnswered JobSearchSamples.missing)).2
     = [1000; 2000; 4000; 8000])
  ∧ ((fetchSearch JobSearchSamples.found_at_third).1 = Returned (JObj ∅)
     ∧ fetch_count (fetchSearch JobSearchSamples.found_at_third).2 = 3%nat
     ∧ delays (fetchSearch JobSearchSamples.found_at_third).2 = [1000; 2000]).
Proof.
  split.
  - apply (proj2 (fetchSearch_retries_everything
                    (λ _, SearchAnswered JobSearchSamples.missing))
             (status_error JobSearchSamples.missing)).
    + intros i _. by eexists.
    + reflexivity.
  - apply (proj1 (fetchSearch_retries_everything JobSearchSamples.found_at_third)
             2%nat JobSearchSamples.empty_page (JObj ∅)).
    + lia.
    + intros [|[|i]] Hi; [by eexists|by eexists|lia].
    + reflexivity.
    + reflexivity.
    + reflexivity.
Defined.

(** *** The duplicate filter *)

Section Dedupe.

Variable parse : string → option URL.
Variable serialize : URL → string.

#[local] Abbreviation norm := (norm parse serialize).
#[local] Abbreviation keep_new := (keep_new parse serialize).
#[local] Abbreviation dedupe := (dedupe parse serialize).
#[local] Abbreviation loop_inv := (loop_inv parse serialize).

Lemma keep_new_inv st it : loop_inv st → loop_inv (keep_new st it).
Proof.
  intros [Hseen Hnodup]. unfold keep_new.
  destruct (decide (norm it ∈ st.1)) as [Hin|Hout]; [done|].
  split; cbn [fst snd].
  - rewrite fmap_app, list_to_set_app_L, Hseen. cbn.
    by rewrite (right_id_L ∅ (∪)), (comm_L (∪)).
  - rewrite fmap_app. apply NoDup_app. split; [done|]. split.
    + intros k Hk Hk'. apply list_elem_of_singleton in Hk' as ->.
      apply Hout. rewrite Hseen. by apply elem_of_list_to_set.
    + apply NoDup_singleton.
Qed.

Lemma foldl_keep_new_inv items st : loop_inv st → loop_inv (foldl keep_new st items).
Proof.
  revert st. induction items as [|it items IH]; intros st Hst; [done|].
  cbn [foldl]. by apply IH, keep_new_inv.
Qed.

Lemma keep_new_grows st it : st.2 `prefix_of` (keep_new st it).2.
Proof.
  unfold keep_new. destruct (decide _); [done|]. by apply prefix_app_r.
Qed.

Lemma foldl_keep_new_grows items st : st.2 `prefix_of` (foldl keep_new st items).2.
Proof.
  revert st. induction items as [|it items IH]; intros st; [done|].
  cbn [foldl]. etrans; [apply keep_new_grows|apply IH].
Qed.

Lemma foldl_keep_new_sublist items st :
  ∃ kept, (foldl keep_new st items).2 = st.2 ++ kept ∧ kept `sublist_of` items.
Proof.
  revert st. induction items as [|it items IH]; intros st.
  - exists []. by rewrite app_nil_r.
  - cbn [foldl]. destruct (IH (keep_new st it)) as (kept & -> & Hsub).
    unfold keep_new. destruct (decide _).
    + exists kept. split; [done|]. by apply sublist_cons.
    + exists (it :: kept). cbn [snd]. split; [by rewrite <- app_assoc|].
      by apply sublist_skip.
Qed.

Lemma foldl_keep_new_covers items st it :
  loop_inv st → it ∈ items → norm it ∈ norm <$> (foldl keep_new st items).2.
Proof.
  revert st. induction items as [|x items IH]; intros st Hst Hin.
  - by apply elem_of_nil in Hin.
  - cbn [foldl]. apply elem_of_cons in Hin as [->|Hin].
    + assert (Hx : norm x ∈ norm <$> (keep_new st x).2).
      { unfold keep_new. destruct (decide (norm x ∈ st.1)) as [Hseen|Hnew].
        - destruct Hst as [Hs _]. rewrite Hs in Hseen.
          by apply elem_of_list_to_set in Hseen.
        - cbn [snd]. rewrite fmap_app. apply elem_of_app. right. apply list_elem_of_here. }
      destruct (foldl_keep_new_grows items (keep_new st x)) as [more ->].
      rewrite fmap_app. apply elem_of_app. by left.
    + apply IH; [by apply keep_new_inv|done].
Qed.

(** X17. One item per normalized address: the filtered list has no two items
    with the same normalized address, it is the mapped list with items left
    out and none moved, every address of the mapped list is still
    represented, and an item whose address did not occur before it is
    kept. *)
Theorem dedupe_keeps_first (mapped : list JobItem) :
  NoDup (norm <$> dedupe mapped)
  ∧ dedupe mapped `sublist_of` mapped
  ∧ (∀ it, it ∈ mapped → norm it ∈ norm <$> dedupe mapped)
  ∧ (∀ before it after,
       mapped = before ++ it :: after → norm it ∉ norm <$> before →
       it ∈ dedupe mapped).
Proof.
  assert (Hinit : loop_inv (∅, [])).
  { split; [done|constructor]. }
  unfold dedupe. split; [|split; [|split]].
  - by apply foldl_keep_new_inv.
  - destruct (foldl_keep_new_sublist mapped (∅, [])) as (kept & -> & Hsub). done.
  - intros it Hin. by apply foldl_keep_new_covers.
  - intros before it after -> Hnew. rewrite foldl_app. cbn [foldl].
    set (st := foldl keep_new (∅, []) before).
    assert (Hst : loop_inv st) by (by apply foldl_keep_new_inv).
    assert (Hkeys : ∀ k, k ∈ norm <$> st.2 → k ∈ norm <$> before).
    { intros k Hk. apply list_elem_of_fmap in Hk as (x & -> & Hx).
      apply list_elem_of_fmap. exists x. split; [done|].
      destruct (foldl_keep_new_sublist before (∅, [])) as (kept & Hk & Hsub).
      fold st in Hk. cbn in Hk. rewrite Hk in Hx. by eapply elem_of_sublist. }
    assert (Hit : it ∈ (keep_new st it).2).
    { unfold keep_new. destruct (decide (norm it ∈ st.1)) as [Hseen|_].
      - exfalso. apply Hnew, Hkeys. destruct Hst as [Hs _]. rewrite Hs in Hseen.
        by apply elem_of_list_to_set in Hseen.
      - cbn [snd]. apply elem_of_app. right. apply list_elem_of_here. }
    destruct (foldl_keep_new_grows after (keep_new st it)) as [more ->].
    apply elem_of_app. by left.
Qed.

End Dedupe.

Lemma dedupe_keeps_first_witness :
  dedupe Samples.toy_parse Samples.toy_serialize
    [JobSearchSamples.posting; JobSearchSamples.posting_again; JobSearchSamples.other]
  = [JobSearchSamples.posting; JobSearchSamples.other]
  ∧ JobSearchSamples.other
    ∈ dedupe Samples.toy_parse Samples.toy_serialize
        [JobSearchSamples.posting; JobSearchSamples.posting_again; JobSearchSamples.other].
Proof.
  split; [reflexivity|].
  destruct (dedupe_keeps_first Samples.toy_parse Samples.toy_serialize
              [JobSearchSamples.posting; JobSearchSamples.posting_again;
               JobSearchSamples.other]) as (_ & _ & _ & Hfirst).
  apply (Hfirst [JobSearchSamples.posting; JobSearchSamples.posting_again]
           JobSearchSamples.other []); [reflexivity|].
  intros H. apply list_elem_of_fmap in H as (x & Hx & Hin).
  apply elem_of_cons in Hin as [->|Hin]; [vm_compute in Hx; discriminate Hx|].
  apply elem_of_cons in Hin as [->|Hin]; [vm_compute in Hx; discriminate Hx|].
  by apply elem_of_nil in Hin.
Defined.

(** *** normalizeUrl, once more *)

Lemma filter_tracking_idem (params : list (string * string)) :
  filter (λ kv, kv.1 ∉ tracking_params) (filter (λ kv, kv.1 ∉ tracking_params) params)
  = filter (λ kv, kv.1 ∉ tracking_params) params.
Proof.
  rewrite list_filter_filter. apply list_filter_iff. intros kv. tauto.
Qed.

Lemma normalizeUrl_parsed parse serialize raw u :
  parse raw = Some u → normalizeUrl parse serialize raw = serialize (stripped u).
Proof.
  intros Hu. unfold normalizeUrl, stripped. rewrite Hu.
  by rewrite JobSearchFacts.delete_all_filter.
Qed.

(** X18. Decorating an address does not change what it normalizes to: if a
    second address parses to the same URL except that one query pair named
    [utm_source], [utm_medium], [utm_campaign], [utm_term], [utm_content],
    [fbclid] or [gclid] has been inserted anywhere in the query, with any
    value, and that the fragment is another, then both addresses normalize
    to the same string. *)
Theorem tracking_variants_collapse parse serialize raw1 raw2 (u : URL)
    (name value : string) (before after : list (string * string)) (fragment : string) :
  name ∈ ["utm_source"; "utm_medium"; "utm_campaign"; "utm_term"; "utm_content";
          "fbclid"; "gclid"] →
  parse raw1 = Some u →
  searchParams u = before ++ after →
  parse raw2 = Some {| protocol := protocol u; username := username u;
                       password := password u; host := host u;
                       pathname := pathname u;
                       searchParams := before ++ (name, value) :: after;
                       hash := fragment |} →
  normalizeUrl parse serialize raw1 = normalizeUrl parse serialize raw2.
Proof.
  intros Hname H1 Hquery H2.
  rewrite (normalizeUrl_parsed _ _ _ _ H1), (normalizeUrl_parsed _ _ _ _ H2).
  f_equal. unfold stripped.
  cbn [protocol username password host pathname searchParams hash].
  f_equal. rewrite Hquery, !filter_app. f_equal.
  rewrite filter_cons_False; [done|].
  intros Hout. by apply Hout.
Qed.

Lemma tracking_variants_collapse_witness :
  normalizeUrl JobSearchSamples.toy_parse3 Samples.toy_serialize
    JobSearchSamples.clean_address
  = normalizeUrl JobSearchSamples.toy_parse3 Samples.toy_serialize
      JobSearchSamples.shared_address.
Proof.
  apply (tracking_variants_collapse JobSearchSamples.toy_parse3 Samples.toy_serialize
           JobSearchSamples.clean_address JobSearchSamples.shared_address
           JobSearchSamples.clean_url "fbclid" "abc" [("role", "dev")] [] "#top").
  - do 5 apply list_elem_of_further. apply list_elem_of_here.
  - reflexivity.
  - reflexivity.
  - reflexivity.
Defined.

(** X19. Normalizing twice is normalizing once, on a platform that parses the
    serialization of the normalized URL back to it. *)
Theorem normalizeUrl_idempotent parse serialize raw :
  (∀ u, parse raw = Some u → parse (serialize (stripped u)) = Some (stripped u)) →
  normalizeUrl parse serialize (normalizeUrl parse serialize raw)
  = normalizeUrl parse serialize raw.
Proof.
  intros Hround. destruct (parse raw) as [u|] eqn:Hu.
  - rewrite (normalizeUrl_parsed _ _ _ _ Hu).
    rewrite (normalizeUrl_parsed _ _ _ _ (Hround u eq_refl)).
    f_equal. unfold stripped. cbn [protocol username password host pathname
      searchParams hash]. by rewrite filter_tracking_idem.
  - unfold normalizeUrl at 2. rewrite Hu. unfold normalizeUrl. by rewrite Hu.
Qed.

Lemma normalizeUrl_idempotent_witness :
  normalizeUrl JobSearchSamples.toy_parse2 Samples.toy_serialize
    (normalizeUrl JobSearchSamples.toy_parse2 Samples.toy_serialize Samples.tracked_address)
  = "https://jobs.example/apply?role=dev".
Proof.
  rewrite (normalizeUrl_idempotent JobSearchSamples.toy_parse2 Samples.toy_serialize
             Samples.tracked_address).
  - reflexivity.
  - intros u [= <-]. reflexivity.
Defined.

(** *** isJobPosting *)







End JobSearchExtFacts.

(** ** The GitHub helpers *)

Module GithubFacts.
Import JsMore JobSearch Github.

Lemma split_on_free (sep : ascii) (s : string) :
  Forall (free_of sep) (split_on sep s).
Proof.
  induction s as [|a s IH]; cbn [split_on].
  - repeat constructor. unfold free_of. cbn. apply not_elem_of_nil.
  - destruct (Ascii.eqb_spec a sep) as [->|Hne].
    + constructor; [|exact IH]. unfold free_of. cbn. apply not_elem_of_nil.
    + destruct (split_on sep s) as [|w ws].
      * repeat constructor. unfold free_of. cbn. intros H.
        apply elem_of_cons in H as [H|H]; [congruence|by apply elem_of_nil in H].
      * apply Forall_cons in IH as [Hw Hws]. constructor; [|exact Hws].
        unfold free_of in *. cbn. intros H.
        apply elem_of_cons in H as [H|H]; [congruence|done].
Qed.

Lemma nonempty_parts (s : string) :
  Forall (λ p, p ≠ "" ∧ free_of "/" p) (nonempty (split_on "/" s)).
Proof.
  apply list.Forall_forall. intros p Hp. unfold nonempty in Hp.
  apply list_elem_of_filter in Hp as [Hne Hin]. split; [done|].
  pose proof (split_on_free "/" s) as H. rewrite list.Forall_forall in H. by apply H.
Qed.

Section WithPlatform.

Variable parse : string → option URL.
Variable hostname : URL → string.

#[local] Abbreviation extractGithubInfo := (extractGithubInfo parse hostname).
#[local] Abbreviation visit := (visit parse hostname).
#[local] Abbreviation visitAll := (visitAll parse hostname).
#[local] Abbreviation processGithubResults := (processGithubResults parse hostname).

Lemma extractGithubInfo_given (url : string) user repo :
  extractGithubInfo url = (Some user, Some repo) → user ≠ "" ∧ repo ≠ "".
Proof.
  unfold Github.extractGithubInfo. destruct (parse url) as [u|]; [|done].
  destruct (negb _); [done|].
  pose proof (nonempty_parts (pathname u)) as Hparts.
  destruct (nonempty (split_on "/" (pathname u))) as [|x [|y rest]]; [done|done|].
  intros [= <- <-].
  apply Forall_cons in Hparts as [[Hx _] Hparts].
  by apply Forall_cons in Hparts as [[Hy _] _].
Qed.

(** X21. Only an address that parses with host name github.com names a user; a
    repository is never named without a user; and the names are segments of
    the path: not empty and without a slash. *)
Theorem extractGithubInfo_names (url : string) :
  match extractGithubInfo url with
  | (Some user, repo) =>
      (∃ u, parse url = Some u ∧ hostname u = "github.com")
      ∧ user ≠ "" ∧ free_of "/" user
      ∧ (∀ r, repo = Some r → r ≠ "" ∧ free_of "/" r)
  | (None, repo) => repo = None
  end.
Proof.
  unfold Github.extractGithubInfo. destruct (parse url) as [u|] eqn:Hu; [|done].
  destruct (String.eqb_spec (hostname u) "github.com") as [Hhost|_]; cbn [negb]; [|done].
  pose proof (nonempty_parts (pathname u)) as Hparts.
  destruct (nonempty (split_on "/" (pathname u))) as [|user [|repo rest]]; [done| |].
  - apply Forall_cons in Hparts as [[Hne Hfree] _].
    split; [by exists u|]. split; [done|]. split; [done|]. by intros r H.
  - apply Forall_cons in Hparts as [[Hne Hfree] Hparts].
    apply Forall_cons in Hparts as [[Hne' Hfree'] _].
    split; [by exists u|]. split; [done|]. split; [done|]. by intros r [= <-].
Qed.

Lemma record_ok user repo snippet entry :
  entry_ok user entry → entry_ok user (record user repo snippet entry).
Proof.
  intros (Hname & Hav & Hpr & Hrepos). unfold record.
  destruct repo as [repoName|].
  - refine (conj Hname (conj Hav (conj Hpr _))). cbn [repos profile].
    apply Forall_app. split; [done|]. repeat constructor. cbn [repo_url repo_name].
    rewrite Hpr. by rewrite AlumniSearchFacts.append_assoc.
  - by destruct (negb (truthy (bio entry)) && truthy snippet).
Qed.

Lemma fresh_ok user : user ∉ inherited_names → entry_ok user (fresh user).
Proof. intros H. refine (conj H (conj eq_refl (conj eq_refl _))). constructor. Qed.

Lemma visit_ok byUser it byUser' :
  map_Forall entry_ok byUser → visit byUser it = Returned byUser' →
  map_Forall entry_ok byUser'.
Proof.
  intros Hinv. unfold Github.visit.
  destruct it as [| | | | | | |o]; try (by intros [= <-]); try done.
  destruct (given _) as [user|]; [|by intros [= <-]].
  destruct (byUser !! user) as [entry|] eqn:Hentry.
  - intros [= <-]. apply map_Forall_insert_2; [|done].
    apply record_ok. by apply (Hinv user).
  - destruct (bool_decide_reflect (user ∈ inherited_names)) as [Hin|Hout].
    + destruct (given _); [done|]. by intros [= <-].
    + intros [= <-]. apply map_Forall_insert_2; [|done].
      by apply record_ok, fresh_ok.
Qed.

Lemma visitAll_ok items byUser byUser' :
  map_Forall entry_ok byUser → visitAll byUser items = Returned byUser' →
  map_Forall entry_ok byUser'.
Proof.
  revert byUser. induction items as [|it items IH]; intros byUser Hinv; cbn [Github.visitAll].
  - by intros [= <-].
  - destruct (visit byUser it) as [mid|e] eqn:Hvisit; [|done].
    apply IH. by eapply visit_ok.
Qed.

(** X22. When [processGithubResults] returns, every user it has collected is
    filed under a name that is not inherited from [Object.prototype], with
    the avatar and profile addresses of that name, and every repository
    address is the profile address followed by the repository name. *)
Theorem processGithubResults_entries (items : list JsVal) byUser user entry :
  processGithubResults items = Returned byUser → byUser !! user = Some entry →
  entry_ok user entry.
Proof.
  intros Hrun Hentry.
  apply (visitAll_ok items ∅ byUser (map_Forall_empty _) Hrun user entry Hentry).
Qed.

Lemma visitAll_inherited items byUser it o user repo :
  map_Forall entry_ok byUser →
  it ∈ items →
  it = JObj o →
  extractGithubInfo (address o) = (Some user, Some repo) →
  user ∈ inherited_names →
  ∃ e, visitAll byUser items = Thrown e.
Proof.
  intros Hinv Hin -> Hinfo Hname. revert byUser Hinv.
  induction items as [|x items IH]; intros byUser Hinv; [by apply elem_of_nil in Hin|].
  cbn [Github.visitAll].
  destruct (visit byUser x) as [mid|e] eqn:Hvisit; [|by exists e].
  apply elem_of_cons in Hin as [<-|Hin].
  - exfalso. revert Hvisit. unfold Github.visit.
    fold extractGithubInfo. rewrite Hinfo. cbn [fst snd].
    destruct (extractGithubInfo_given _ _ _ Hinfo) as [Huser Hrepo'].
    unfold given. destruct (String.eqb_spec user ""); [done|].
    destruct (String.eqb_spec repo ""); [done|].
    destruct (byUser !! user) as [entry|] eqn:Hentry.
    + by destruct (Hinv user entry Hentry) as [Hout _].
    + by rewrite bool_decide_eq_true_2.
  - apply IH; [done|]. by eapply visit_ok.
Qed.

(** X23. One result that points into a repository of a user whose name is
    inherited from [Object.prototype] (constructor, toString, ...) makes
    [processGithubResults] throw, whatever the other results are. *)
Theorem processGithubResults_inherited_name (items : list JsVal) o user repo :
  JObj o ∈ items →
  extractGithubInfo (address o) = (Some user, Some repo) →
  user ∈ inherited_names →
  ∃ e, processGithubResults items = Thrown e.
Proof.
  intros Hin Hinfo Hname.
  by apply (visitAll_inherited items ∅ (JObj o) o user repo (map_Forall_empty _) Hin).
Qed.

End WithPlatform.

Lemma processGithubResults_entries_witness :
  processGithubResults GithubSamples.parse_repo host [JStr "x"; GithubSamples.hello]
  = Returned {[ "octocat" := GithubSamples.octocat ]}
  ∧ entry_ok "octocat" GithubSamples.octocat.
Proof.
  split; [reflexivity|].
  apply (processGithubResults_entries GithubSamples.parse_repo host
           [JStr "x"; GithubSamples.hello] {[ "octocat" := GithubSamples.octocat ]});
    reflexivity.
Defined.

Lemma processGithubResults_inherited_name_witness :
  processGithubResults GithubSamples.parse_repo host [JNum 1; GithubSamples.found]
  = Thrown push_on_undefined.
Proof.
  destruct (processGithubResults_inherited_name GithubSamples.parse_repo host
              [JNum 1; GithubSamples.found]
              {[ "link" := JStr GithubSamples.repo_address; "snippet" := JStr "A demo" ]}
              "constructor" "demo") as [e He].
  - apply list_elem_of_further, list_elem_of_here.
  - reflexivity.
  - apply list_elem_of_here.
  - reflexivity.
Defined.

End GithubFacts.

(** ** The repeatable lists of the edit dialog *)

Module EditListsFacts.
Import EditLists.

Lemma get_insert (key : string) (v : JsVal) (f : JsObj) : get (<[key := v]> f) key = v.
Proof. unfold get. by rewrite lookup_insert_eq. Qed.

Lemma ensureArray_truthy (v : JsVal) : Forall (λ x, truthy x = true) (ensureArray v).
Proof.
  destruct v as [| | | | | |l|]; cbn [ensureArray];
    try (destruct (truthy _) eqn:E; [by repeat constructor|constructor]).
  apply list.Forall_forall. intros x Hx. by apply list_elem_of_filter in Hx as [Hx _].
Qed.

Lemma filter_truthy_id (l : list JsVal) :
  Forall (λ x, truthy x = true) l → filter (λ x, truthy x = true) l = l.
Proof.
  induction 1 as [|x l Hx _ IH]; [done|]. by rewrite filter_cons_True, IH.
Qed.

Lemma ensureArray_fixed (l : list JsVal) :
  Forall (λ x, truthy x = true) l → ensureArray (JArr l) = l.
Proof. apply filter_truthy_id. Qed.

Lemma ensureArray_slot (l : list JsVal) :
  Forall (λ x, truthy x = true) l → ensureArray (JArr (l ++ [JStr ""])) = l.
Proof.
  intros Hl. cbn [ensureArray]. rewrite filter_app, (filter_truthy_id l Hl).
  rewrite filter_cons_False by (cbn; done). by rewrite filter_nil, app_nil_r.
Qed.

Lemma replaced_beyond (val : JsVal) (l : list JsVal) (idx : nat) :
  (length l ≤ idx)%nat → replaced idx val l = l.
Proof.
  revert idx. induction l as [|x l IH]; intros [|idx] Hlen; cbn in *; try done; try lia.
  f_equal. apply IH. lia.
Qed.

Lemma without_beyond (l : list JsVal) (idx : nat) :
  (length l ≤ idx)%nat → without idx l = l.
Proof.
  revert idx. induction l as [|x l IH]; intros [|idx] Hlen; cbn in *; try done; try lia.
  f_equal. apply IH. lia.
Qed.

Lemma replaced_insert (val : JsVal) (l : list JsVal) (idx : nat) :
  replaced idx val l = <[idx := val]> l.
Proof.
  revert idx. induction l as [|x l IH]; intros [|idx]; cbn; try done. by rewrite IH.
Qed.

Lemma without_delete (l : list JsVal) (idx : nat) : without idx l = delete idx l.
Proof.
  revert idx. induction l as [|x l IH]; intros [|idx]; cbn; try done. by rewrite IH.
Qed.

(** X24. Pressing Add twice is pressing it once: the empty entry added first is
    dropped by the second press before it adds its own. *)
Theorem handleAddItem_twice (key : string) (f : JsObj) :
  handleAddItem key (handleAddItem key f) = handleAddItem key f.
Proof.
  unfold handleAddItem. rewrite get_insert, insert_insert_eq.
  by rewrite (ensureArray_slot _ (ensureArray_truthy _)).
Qed.

(** X25. After Add the modal displays the entries kept from before followed by
    one empty input; typing into that input, whatever the text, does not
    store the text: the list is back to the entries kept from before and the
    input is gone.  So is removing it. *)
Theorem new_slot_cannot_be_filled (key : string) (f : JsObj) (val : string) :
  let kept := ensureArray (get f key) in
  displayed key (handleAddItem key f) = Some (kept ++ [JStr ""])
  ∧ handleItemChange key (length kept) val (handleAddItem key f) = <[key := JArr kept]> f
  ∧ handleRemoveItem key (length kept) (handleAddItem key f) = <[key := JArr kept]> f.
Proof.
  intros kept. unfold displayed, handleItemChange, handleRemoveItem, handleAddItem.
  rewrite !get_insert, !insert_insert_eq.
  rewrite (ensureArray_slot _ (ensureArray_truthy _)). fold kept.
  split; [done|]. split.
  - by rewrite replaced_beyond.
  - by rewrite without_beyond.
Qed.

(** X26. On a list without empty entries the handlers act on the displayed
    position: a change overwrites that position, a removal deletes it, and
    what is displayed afterwards is the list stored. *)
Theorem handlers_on_clean_list (key : string) (f : JsObj) (l : list JsVal)
    (idx : nat) (val : string) :
  get f key = JArr l → Forall (λ x, truthy x = true) l →
  displayed key f = Some l
  ∧ displayed key (handleItemChange key idx val f) = Some (<[idx := JStr val]> l)
  ∧ displayed key (handleRemoveItem key idx f) = Some (delete idx l).
Proof.
  intros Hget Hl. unfold displayed, handleItemChange, handleRemoveItem.
  rewrite !get_insert, Hget, (ensureArray_fixed l Hl).
  by rewrite replaced_insert, without_delete.
Qed.

Lemma handlers_on_clean_list_witness :
  displayed "research"
    (handleItemChange "research" 0 "Type theory" EditListsSamples.one_topic)
  = Some [JStr "Type theory"].
Proof.
  refine (proj1 (proj2 (handlers_on_clean_list "research" EditListsSamples.one_topic
                          [JStr "Compilers"] 0 "Type theory" _ _))).
  - reflexivity.
  - by repeat constructor.
Defined.

End EditListsFacts.

(** ** The stack of views *)

Module ViewsFacts.
Import Views.

Lemma slice_to_last_app (prev : list View) (view : View) :
  slice_to_last (prev ++ [view]) = prev.
Proof.
  unfold slice_to_last. rewrite length_app. cbn [length].
  replace (length prev + 1 - 1)%nat with (length prev) by lia.
  by rewrite take_app_length.
Qed.

Lemma act_keeps_home (rest : list View) (a : Action) :
  ∃ rest', act (home :: rest) a = home :: rest'.
Proof.
  destruct a as [view| |]; cbn [act].
  - by exists (rest ++ [view]).
  - unfold goBack. destruct rest as [|v rest]; [by exists []|].
    cbn [length Nat.ltb Nat.leb]. unfold slice_to_last. cbn [length].
    replace (S (S (length rest)) - 1)%nat with (S (length rest)) by lia.
    cbn [take]. by eexists.
  - by exists [].
Qed.

Lemma foldl_act_keeps_home (actions : list Action) (rest : list View) :
  ∃ rest', foldl act (home :: rest) actions = home :: rest'.
Proof.
  revert rest. induction actions as [|a actions IH]; intros rest; [by exists rest|].
  cbn [foldl]. destruct (act_keeps_home rest a) as [rest' ->]. apply IH.
Qed.

(** X27. Whatever the user does, the stack is never empty and its bottom is the
    home view, so there is always a current view; and Back right after a
    navigation restores the stack the navigation found. *)
Theorem view_stack_rests_on_home (actions : list Action) (view : View) :
  (∃ rest, session actions = home :: rest)
  ∧ (∃ v, currentView (session actions) = Some v)
  ∧ session (actions ++ [Navigate view; Back]) = session actions.
Proof.
  destruct (foldl_act_keeps_home actions []) as [rest Hrest].
  split; [by exists rest|]. split.
  - unfold session at 1. unfold initialStack. rewrite Hrest. unfold currentView.
    destruct (last (home :: rest)) as [v|] eqn:E; [by exists v|].
    by apply last_None in E.
  - unfold session. rewrite foldl_app. cbn [foldl act].
    unfold initialStack. rewrite Hrest.
    unfold goBack, navigateTo. rewrite slice_to_last_app.
    rewrite length_app. cbn [length].
    by destruct (Nat.ltb_spec 1 (S (length rest) + 1)); [|lia].
Qed.

End ViewsFacts.
